(** * Lead ingestion and ClickUp synchronisation: a shallow embedding

    The development follows the components of the service: the ClickUp
    client ([app/integrations/clickup_client.py]), the lead model with
    its JSON-backed list properties ([app/db/models.py]), the
    create-or-get service with its best-effort synchronisation
    ([app/services/lead_service.py]), the webhook that calls it
    ([app/api/routers/webhook.py]) and the startup migrations
    ([app/db/migrations.py]).

    Python values are modelled as follows.  A [str] is the list of its
    code points; [bytes] is a list of numbers below 256; an [int] is a [Z];
    the two floats of the client (timeout, backoff delays) are exact
    rationals; [None]-able attributes are options.  Code that may raise
    runs in a state-and-exception monad over the [World]: the table of
    leads, the SQLAlchemy session, the trace of network I/O and the
    structured log. *)

From Stdlib Require Import String Ascii ZArith NArith QArith List Bool Lia.
Import ListNotations.
Open Scope N_scope.

(** ** Python strings *)

Module PyStr.

(** A [str] is a sequence of code points. *)
Definition str := list N.

Definition eqb (a b : str) : bool :=
  if list_eq_dec N.eq_dec a b then true else false.

(** Decoding of the UTF-8 bytes of a literal of this file into code
    points, so that literals are written as in the Python source. *)
Fixpoint utf8_decode (bs : list N) : str :=
  match bs with
  | [] => []
  | b :: t =>
      if b <? 0x80 then b :: utf8_decode t
      else if b <? 0xE0 then
        match t with
        | c1 :: t1 => ((b - 0xC0) * 64 + (c1 - 0x80)) :: utf8_decode t1
        | [] => []
        end
      else if b <? 0xF0 then
        match t with
        | c1 :: c2 :: t2 =>
            ((b - 0xE0) * 4096 + (c1 - 0x80) * 64 + (c2 - 0x80)) :: utf8_decode t2
        | _ => []
        end
      else
        match t with
        | c1 :: c2 :: c3 :: t3 =>
            ((b - 0xF0) * 262144 + (c1 - 0x80) * 4096 + (c2 - 0x80) * 64 + (c3 - 0x80))
              :: utf8_decode t3
        | _ => []
        end
  end.

Definition lit (s : string) : str :=
  utf8_decode (map N_of_ascii (list_ascii_of_string s)).

(** [s.encode("utf-8")]. *)
Definition utf8_encode_cp (c : N) : list N :=
  if c <? 0x80 then [c]
  else if c <? 0x800 then [0xC0 + c / 64; 0x80 + c mod 64]
  else if c <? 0x10000 then [0xE0 + c / 4096; 0x80 + (c / 64) mod 64; 0x80 + c mod 64]
  else [0xF0 + c / 262144; 0x80 + (c / 4096) mod 64; 0x80 + (c / 64) mod 64; 0x80 + c mod 64].

Definition encode_utf8 (s : str) : list N := flat_map utf8_encode_cp s.

(** The code points [str.isspace] accepts; [str.strip()] removes them
    from both ends. *)
Definition isspace (c : N) : bool :=
  ((0x09 <=? c) && (c <=? 0x0D)) || ((0x1C <=? c) && (c <=? 0x20))
  || (c =? 0x85) || (c =? 0xA0) || (c =? 0x1680)
  || ((0x2000 <=? c) && (c <=? 0x200A))
  || (c =? 0x2028) || (c =? 0x2029) || (c =? 0x202F) || (c =? 0x205F) || (c =? 0x3000).

Fixpoint lstrip (s : str) : str :=
  match s with
  | c :: t => if isspace c then lstrip t else s
  | [] => []
  end.

Definition rstrip (s : str) : str := rev (lstrip (rev s)).

Definition strip (s : str) : str := rstrip (lstrip s).

(** [str.lower()], on the ASCII letters.  The case mapping of the other
    scripts is a table of the interpreter and is left out: a code point
    outside [A-Z] is kept.  On a text of ASCII ([isascii] below) this is
    [str.lower()] itself; on a capital letter of another script the
    interpreter gives its small letter and the function here does not. *)
Definition lower_cp (c : N) : N :=
  if (0x41 <=? c) && (c <=? 0x5A) then c + 32 else c.

Definition lower (s : str) : str := map lower_cp s.


(** [sep.join(parts)]. *)
Fixpoint join (sep : str) (parts : list str) : str :=
  match parts with
  | [] => []
  | [p] => p
  | p :: rest => p ++ sep ++ join sep rest
  end.

(** [s.split(sep)] for a separator of one code point. *)
Fixpoint split (sep : N) (s : str) : list str :=
  match s with
  | [] => [[]]
  | c :: t =>
      if c =? sep then [] :: split sep t
      else match split sep t with
           | p :: ps => (c :: p) :: ps
           | [] => [[c]]
           end
  end.

(** Decimal digits, and [str(n)] for an [int]. *)
Definition digit (d : N) : N := 0x30 + d.

Fixpoint digits_fuel (fuel : nat) (n : N) (acc : str) : str :=
  match fuel with
  | O => acc
  | S f =>
      let acc' := digit (n mod 10) :: acc in
      if n / 10 =? 0 then acc' else digits_fuel f (n / 10) acc'
  end.

Definition str_of_N (n : N) : str := digits_fuel (S (N.to_nat (N.log2 n))) n [].

Definition str_of_Z (z : Z) : str :=
  match z with
  | Zneg p => 0x2D :: str_of_N (Npos p)
  | _ => str_of_N (Z.to_N z)
  end.

(** Zero-padded decimal field of [width] digits (the low digits when the
    number is wider). *)
Fixpoint zero_padded (width : nat) (n : N) : str :=
  match width with
  | O => []
  | S w => zero_padded w (n / 10) ++ [digit (n mod 10)]
  end.

(** The two halves of the surrogate range. *)
Definition is_high (u : N) : bool := (0xD800 <=? u) && (u <=? 0xDBFF).
Definition is_low (u : N) : bool := (0xDC00 <=? u) && (u <=? 0xDFFF).

(** The texts of the model: code points of Unicode, with no high
    surrogate immediately before a low one.  (Such a pair stands for one
    code point of a supplementary plane, and a decoder of JSON or of
    UTF-8 yields that code point, never the pair; a lone surrogate, which
    an escape of a JSON body can bring in, is allowed.) *)
Fixpoint wf (s : str) : bool :=
  match s with
  | [] => true
  | c :: t =>
      (c <? 0x110000)
      && negb (is_high c && match t with c' :: _ => is_low c' | [] => false end)
      && wf t
  end.

End PyStr.

Import PyStr.
Notation "'s!' x" := (lit x) (at level 1, x at level 0, only parsing).

(** ** SHA-256 (FIPS 180-4), as [hashlib.sha256(..).hexdigest()] *)

Module Sha256.

Definition w32 (x : N) : N := x mod 0x100000000.
Definition add32 (a b : N) : N := w32 (a + b).
Definition rotr (n x : N) : N := w32 (N.lor (N.shiftr x n) (N.shiftl x (32 - n))).
Definition not32 (x : N) : N := N.lxor x 0xFFFFFFFF.

Definition Ch (x y z : N) := N.lxor (N.land x y) (N.land (not32 x) z).
Definition Maj (x y z : N) := N.lxor (N.lxor (N.land x y) (N.land x z)) (N.land y z).
Definition Sigma0 x := N.lxor (N.lxor (rotr 2 x) (rotr 13 x)) (rotr 22 x).
Definition Sigma1 x := N.lxor (N.lxor (rotr 6 x) (rotr 11 x)) (rotr 25 x).
Definition sigma0 x := N.lxor (N.lxor (rotr 7 x) (rotr 18 x)) (N.shiftr x 3).
Definition sigma1 x := N.lxor (N.lxor (rotr 17 x) (rotr 19 x)) (N.shiftr x 10).

(** The round constants and the initial hash value, in decimal. *)
Definition K : list N :=
  [1116352408; 1899447441; 3049323471; 3921009573; 961987163; 1508970993;
   2453635748; 2870763221; 3624381080; 310598401; 607225278; 1426881987;
   1925078388; 2162078206; 2614888103; 3248222580; 3835390401; 4022224774;
   264347078; 604807628; 770255983; 1249150122; 1555081692; 1996064986;
   2554220882; 2821834349; 2952996808; 3210313671; 3336571891; 3584528711;
   113926993; 338241895; 666307205; 773529912; 1294757372; 1396182291;
   1695183700; 1986661051; 2177026350; 2456956037; 2730485921; 2820302411;
   3259730800; 3345764771; 3516065817; 3600352804; 4094571909; 275423344;
   430227734; 506948616; 659060556; 883997877; 958139571; 1322822218;
   1537002063; 1747873779; 1955562222; 2024104815; 2227730452; 2361852424;
   2428436474; 2756734187; 3204031479; 3329325298].

Definition H0 : list N :=
  [1779033703; 3144134277; 1013904242; 2773480762; 1359893119; 2600822924;
   528734635; 1541459225].

(** Big-endian bytes of a number, [n] of them. *)
Fixpoint be_bytes (n : nat) (x : N) : list N :=
  match n with
  | O => []
  | S k => be_bytes k (x / 256) ++ [x mod 256]
  end.

Definition pad (msg : list N) : list N :=
  let len := N.of_nat (length msg) in
  let zeros := (119 - len mod 64) mod 64 in
  msg ++ [0x80] ++ repeat 0 (N.to_nat zeros) ++ be_bytes 8 (8 * len).

Fixpoint words (n : nat) (bs : list N) : list N :=
  match n, bs with
  | S k, b0 :: b1 :: b2 :: b3 :: t =>
      (((b0 * 256 + b1) * 256 + b2) * 256 + b3) :: words k t
  | _, _ => []
  end.

(** The message schedule: the window holds the last sixteen words. *)
Fixpoint schedule (n : nat) (win : list N) : list N :=
  match n with
  | O => []
  | S k =>
      let w := add32 (add32 (sigma1 (nth 14 win 0)) (nth 9 win 0))
                     (add32 (sigma0 (nth 1 win 0)) (nth 0 win 0)) in
      w :: schedule k (tl win ++ [w])
  end.

Definition round (st : list N) (kw : N * N) : list N :=
  match st with
  | [a; b; c; d; e; f; g; h] =>
      let t1 := add32 (add32 (add32 h (Sigma1 e)) (add32 (Ch e f g) (fst kw))) (snd kw) in
      let t2 := add32 (Sigma0 a) (Maj a b c) in
      [add32 t1 t2; a; b; c; add32 d t1; e; f; g]
  | _ => st
  end.

Definition compress (st : list N) (block : list N) : list N :=
  let w16 := words 16 block in
  let w := w16 ++ schedule 48 w16 in
  map (fun p => add32 (fst p) (snd p)) (combine st (fold_left round (combine K w) st)).

Fixpoint blocks (n : nat) (st : list N) (bs : list N) : list N :=
  match n with
  | O => st
  | S k => blocks k (compress st (firstn 64 bs)) (skipn 64 bs)
  end.

Definition sha256 (msg : list N) : list N :=
  let p := pad msg in
  flat_map (be_bytes 4) (blocks (length p / 64) H0 p).

Definition hex_digit (d : N) : N := if d <? 10 then 0x30 + d else 0x57 + d.

Definition hexdigest (msg : list N) : str :=
  flat_map (fun b => [hex_digit (b / 16); hex_digit (b mod 16)]) (sha256 msg).


End Sha256.


(** ** The [json] codec of the list-valued columns

    [dumps] is [json.dumps] on a list of strings (the only values the
    setters of the model pass to it), with the default [ensure_ascii=True]
    and the default separators.  [loads] is [json.loads] on any text. *)

Module Json.

#[warnings="-register-all"]
Inductive JValue : Type :=
| JNull
| JBool (b : bool)
| JInt (z : Z)
| JFloat (literal : str)
| JString (s : str)
| JArray (items : list JValue)
| JObject (members : list (str * JValue)).

Definition QUOTE : N := 0x22.
Definition BACKSLASH : N := 0x5C.
Definition LETTER_u : N := 0x75.

(** *** Encoder *)

Definition hex_digit (d : N) : N := if d <? 10 then 0x30 + d else 0x57 + d.

(** ['{0:04x}'.format(n)] for [n < 0x10000]. *)
Definition hex4 (n : N) : str :=
  [hex_digit (n / 4096); hex_digit ((n / 256) mod 16);
   hex_digit ((n / 16) mod 16); hex_digit (n mod 16)].

Definition escape_cp (c : N) : str :=
  if c =? QUOTE then [BACKSLASH; QUOTE]
  else if c =? BACKSLASH then [BACKSLASH; BACKSLASH]
  else if c =? 0x0A then [BACKSLASH; 0x6E]
  else if c =? 0x0D then [BACKSLASH; 0x72]
  else if c =? 0x09 then [BACKSLASH; 0x74]
  else if c =? 0x0C then [BACKSLASH; 0x66]
  else if c =? 0x08 then [BACKSLASH; 0x62]
  else if (0x20 <=? c) && (c <=? 0x7E) then [c]
  else if c <? 0x10000 then BACKSLASH :: LETTER_u :: hex4 c
  else
    let v := c - 0x10000 in
    let s1 := N.lor 0xD800 (N.land (N.shiftr v 10) 0x3FF) in
    let s2 := N.lor 0xDC00 (N.land v 0x3FF) in
    (BACKSLASH :: LETTER_u :: hex4 s1) ++ (BACKSLASH :: LETTER_u :: hex4 s2).

Definition encode_string (s : str) : str :=
  QUOTE :: flat_map escape_cp s ++ [QUOTE].

(** The default item separator. *)
Definition SEPARATOR : str := s!", ".

Definition dumps (l : list str) : str :=
  s!"[" ++ join SEPARATOR (map encode_string l) ++ s!"]".

(** *** Decoder *)

Definition is_ws (c : N) : bool :=
  (c =? 0x20) || (c =? 0x09) || (c =? 0x0A) || (c =? 0x0D).

Fixpoint skip_ws (s : str) : str :=
  match s with
  | c :: t => if is_ws c then skip_ws t else s
  | [] => []
  end.

Definition hexval (c : N) : option N :=
  if (0x30 <=? c) && (c <=? 0x39) then Some (c - 0x30)
  else if (0x61 <=? c) && (c <=? 0x66) then Some (c - 0x57)
  else if (0x41 <=? c) && (c <=? 0x46) then Some (c - 0x37)
  else None.

Definition hex4val (a b c d : N) : option N :=
  match hexval a, hexval b, hexval c, hexval d with
  | Some x, Some y, Some z, Some w => Some (((x * 16 + y) * 16 + z) * 16 + w)
  | _, _, _, _ => None
  end.

Definition unescape (e : N) : option N :=
  if e =? QUOTE then Some QUOTE
  else if e =? BACKSLASH then Some BACKSLASH
  else if e =? 0x2F then Some 0x2F
  else if e =? 0x62 then Some 0x08
  else if e =? 0x66 then Some 0x0C
  else if e =? 0x6E then Some 0x0A
  else if e =? 0x72 then Some 0x0D
  else if e =? 0x74 then Some 0x09
  else None.

Definition join_surrogates (hi lo : N) : N :=
  0x10000 + N.lor (N.shiftl (hi - 0xD800) 10) (lo - 0xDC00).

Definition push (c : N) (r : option (str * str)) : option (str * str) :=
  match r with
  | Some (x, rest) => Some (c :: x, rest)
  | None => None
  end.

(** The scanner of a string, entered after the opening quote (strict
    mode): the decoded text and what follows the closing quote; [None]
    is [JSONDecodeError]. *)
Fixpoint scanstring (s : str) : option (str * str) :=
  match s with
  | [] => None
  | c :: t =>
      if c =? QUOTE then Some ([], t)
      else if c =? BACKSLASH then
        match t with
        | [] => None
        | e :: t1 =>
            if e =? LETTER_u then
              match t1 with
              | a :: b :: c' :: d :: t2 =>
                  match hex4val a b c' d with
                  | None => None
                  | Some uni =>
                      if is_high uni then
                        match t2 with
                        | bs :: u :: a2 :: b2 :: c2 :: d2 :: t4 =>
                            if (bs =? BACKSLASH) && (u =? LETTER_u) then
                              match hex4val a2 b2 c2 d2 with
                              | None => None
                              | Some uni2 =>
                                  if is_low uni2
                                  then push (join_surrogates uni uni2) (scanstring t4)
                                  else push uni (scanstring t2)
                              end
                            else push uni (scanstring t2)
                        | _ => push uni (scanstring t2)
                        end
                      else push uni (scanstring t2)
                  end
              | _ => None
              end
            else
              match unescape e with
              | Some ch => push ch (scanstring t1)
              | None => None
              end
        end
      else if c <? 0x20 then None
      else push c (scanstring t)
  end.

Definition is_digit (c : N) : bool := (0x30 <=? c) && (c <=? 0x39).

Fixpoint span_digits (s : str) : str * str :=
  match s with
  | c :: t =>
      if is_digit c then let (ds, r) := span_digits t in (c :: ds, r) else ([], s)
  | [] => ([], [])
  end.

Definition int_of_digits (ds : str) : Z :=
  fold_left (fun acc c => (acc * 10 + Z.of_N (c - 0x30))%Z) ds 0%Z.

(** The number pattern of the scanner: an optional minus sign, then a
    zero or a digit string without leading zero; then, if present, a dot
    with at least one digit; then, if present, an exponent mark with an
    optional sign and at least one digit.  What does not fit is left
    unread. *)
Definition scan_number (s : str) : option (JValue * str) :=
  let (sign, s1) :=
    match s with
    | c :: t => if c =? 0x2D then ([c], t) else ([], s)
    | [] => ([], s)
    end in
  let integer :=
    match s1 with
    | c :: t =>
        if c =? 0x30 then Some ([c], t)
        else if is_digit c then let (ds, r) := span_digits t in Some (c :: ds, r)
        else None
    | [] => None
    end in
  match integer with
  | None => None
  | Some (ip, r1) =>
      let (frac, r2) :=
        match r1 with
        | c :: t =>
            if c =? 0x2E then
              match span_digits t with
              | ([], _) => ([], r1)
              | (fs, r) => (c :: fs, r)
              end
            else ([], r1)
        | [] => ([], r1)
        end in
      let (expo, r3) :=
        match r2 with
        | c :: t =>
            if (c =? 0x65) || (c =? 0x45) then
              let (sg, t') :=
                match t with
                | g :: u => if (g =? 0x2B) || (g =? 0x2D) then ([g], u) else ([], t)
                | [] => ([], t)
                end in
              match span_digits t' with
              | ([], _) => ([], r2)
              | (es, r) => (c :: sg ++ es, r)
              end
            else ([], r2)
        | [] => ([], r2)
        end in
      match frac, expo with
      | [], [] =>
          let v := int_of_digits ip in
          Some (JInt (match sign with [] => v | _ => (- v)%Z end), r3)
      | _, _ => Some (JFloat (sign ++ ip ++ frac ++ expo), r3)
      end
  end.

Fixpoint strip_prefix (p s : str) : option str :=
  match p, s with
  | [], _ => Some s
  | a :: p', b :: s' => if a =? b then strip_prefix p' s' else None
  | _ :: _, [] => None
  end.

Definition scan_literal (s : str) : option (JValue * str) :=
  match strip_prefix s!"null" s with Some r => Some (JNull, r) | None =>
  match strip_prefix s!"true" s with Some r => Some (JBool true, r) | None =>
  match strip_prefix s!"false" s with Some r => Some (JBool false, r) | None =>
  match scan_number s with Some x => Some x | None =>
  match strip_prefix s!"NaN" s with Some r => Some (JFloat s!"NaN", r) | None =>
  match strip_prefix s!"Infinity" s with Some r => Some (JFloat s!"Infinity", r) | None =>
  match strip_prefix s!"-Infinity" s with Some r => Some (JFloat s!"-Infinity", r) | None =>
  None end end end end end end end.

(** The scanner of a value.  The fuel bounds the nesting and the number
    of items; [2 * length s + 2] is enough for a text [s], since every
    recursive call but the one on the first item of an array or object
    has consumed a code point. *)
Fixpoint scan_once (fuel : nat) (s : str) {struct fuel} : option (JValue * str) :=
  match fuel with
  | O => None
  | S f =>
      match s with
      | [] => None
      | c :: t =>
          if c =? QUOTE then
            match scanstring t with
            | Some (x, r) => Some (JString x, r)
            | None => None
            end
          else if c =? 0x7B then
            match skip_ws t with
            | c2 :: t2 =>
                if c2 =? 0x7D then Some (JObject [], t2)
                else if c2 =? QUOTE then
                  match scan_members f t2 [] with
                  | Some (ms, r) => Some (JObject ms, r)
                  | None => None
                  end
                else None
            | [] => None
            end
          else if c =? 0x5B then
            match skip_ws t with
            | c2 :: t2 =>
                if c2 =? 0x5D then Some (JArray [], t2)
                else
                  match scan_items f (c2 :: t2) [] with
                  | Some (vs, r) => Some (JArray vs, r)
                  | None => None
                  end
            | [] => None
            end
          else scan_literal s
      end
  end

with scan_items (fuel : nat) (s : str) (acc : list JValue) {struct fuel}
  : option (list JValue * str) :=
  match fuel with
  | O => None
  | S f =>
      match scan_once f s with
      | None => None
      | Some (v, r) =>
          match skip_ws r with
          | c :: r' =>
              if c =? 0x5D then Some (rev (v :: acc), r')
              else if c =? 0x2C then scan_items f (skip_ws r') (v :: acc)
              else None
          | [] => None
          end
      end
  end

(** Entered after the opening quote of a key. *)
with scan_members (fuel : nat) (s : str) (acc : list (str * JValue)) {struct fuel}
  : option (list (str * JValue) * str) :=
  match fuel with
  | O => None
  | S f =>
      match scanstring s with
      | None => None
      | Some (key, r) =>
          match skip_ws r with
          | c :: r1 =>
              if c =? 0x3A then
                match scan_once f (skip_ws r1) with
                | None => None
                | Some (v, r2) =>
                    match skip_ws r2 with
                    | c2 :: r3 =>
                        if c2 =? 0x7D then Some (rev ((key, v) :: acc), r3)
                        else if c2 =? 0x2C then
                          match skip_ws r3 with
                          | c3 :: r4 =>
                              if c3 =? QUOTE then scan_members f r4 ((key, v) :: acc)
                              else None
                          | [] => None
                          end
                        else None
                    | [] => None
                    end
                end
              else None
          | [] => None
          end
      end
  end.

(** [json.loads(s)]; [None] is [JSONDecodeError]. *)
Definition loads (s : str) : option JValue :=
  match s with
  | c :: _ => if c =? 0xFEFF then None else
      match scan_once (2 * length s + 2) (skip_ws s) with
      | Some (v, r) => match skip_ws r with [] => Some v | _ :: _ => None end
      | None => None
      end
  | [] => None
  end.

(** The part of a float literal before its exponent. *)
Fixpoint mantissa (l : str) : str :=
  match l with
  | c :: t => if (c =? 0x65) || (c =? 0x45) then [] else c :: mantissa t
  | [] => []
  end.

(** Truth value of a decoded document, as [if value:] tests it.  A float
    literal is true unless the digits of its mantissa are all zero ([NaN]
    and the infinities are true; a literal that is not zero but rounds
    to [0.0] is outside the model). *)
Definition truthy (v : JValue) : bool :=
  match v with
  | JNull => false
  | JBool b => b
  | JInt z => negb (z =? 0)%Z
  | JFloat l =>
      existsb (fun c => (0x31 <=? c) && (c <=? 0x39) || (c =? 0x4E) || (c =? 0x49))
              (mantissa l)
  | JString s => match s with [] => false | _ => true end
  | JArray l => match l with [] => false | _ => true end
  | JObject l => match l with [] => false | _ => true end
  end.

(** What follows the escape of a high surrogate does not read as the
    escape of a low one. *)
Definition no_low_escape (R : str) : Prop :=
  forall a b c d t,
    R = BACKSLASH :: LETTER_u :: a :: b :: c :: d :: t ->
    exists u, hex4val a b c d = Some u /\ is_low u = false.

End Json.

Import Json.

(** ** Dates and times

    A UTC [datetime] is the number of microseconds since the epoch.  The
    calendar date is recovered by the usual civil-from-days computation. *)

Module Datetime.
Open Scope Z_scope.

Definition datetime := Z.

Definition MICROSECONDS_PER_DAY : Z := 86400 * 1000000.

(** [timedelta(hours=h)], in microseconds. *)
Definition timedelta_hours (h : Z) : Z := h * 3600 * 1000000.

(** Year, month and day of a day number counted from 1970-01-01. *)
Definition civil_from_days (days : Z) : Z * Z * Z :=
  let z := days + 719468 in
  let era := z / 146097 in
  let doe := z - era * 146097 in
  let yoe := (doe - doe / 1460 + doe / 36524 - doe / 146096) / 365 in
  let doy := doe - (365 * yoe + yoe / 4 - yoe / 100) in
  let mp := (5 * doy + 2) / 153 in
  let d := doy - (153 * mp + 2) / 5 + 1 in
  let m := if mp <? 10 then mp + 3 else mp - 9 in
  let y := yoe + era * 400 in
  (if m <=? 2 then y + 1 else y, m, d).

(** [dt.date()] as (year, month, day). *)
Definition date (dt : datetime) : Z * Z * Z :=
  civil_from_days (dt / MICROSECONDS_PER_DAY).

(** [dt.strftime(fmt)] for the directives [%Y], [%m] and [%d] (years of
    four digits); any other code point of the format is copied. *)
Fixpoint strftime (dt : datetime) (fmt : str) : str :=
  match fmt with
  | [] => []
  | c :: t =>
      match t with
      | k :: t' =>
          let '(y, m, d) := date dt in
          if (c =? 0x25)%N && (k =? 0x59)%N then zero_padded 4 (Z.to_N y) ++ strftime dt t'
          else if (c =? 0x25)%N && (k =? 0x6D)%N then zero_padded 2 (Z.to_N m) ++ strftime dt t'
          else if (c =? 0x25)%N && (k =? 0x64)%N then zero_padded 2 (Z.to_N d) ++ strftime dt t'
          else c :: strftime dt t
      | [] => [c]
      end
  end.

(** The floats of the interpreter are doubles; a double is modelled by
    the rational number it stands for, and an operation on floats by the
    exact operation followed by [round_double].  The exponent is not
    bounded: no [datetime] comes near the ends of the range of the
    doubles. *)

(** The binade of a positive ratio [n / d]: the [E] with
    [2^E <= n / d < 2^(E + 1)]. *)
Definition binade (n d : Z) : Z :=
  let E := Z.log2 n - Z.log2 d in
  if n * 2 ^ Z.max 0 (- E) <? d * 2 ^ Z.max 0 E then E - 1 else E.

(** The integer nearest to [num / den], the even one of two that are
    equally near. *)
Definition nearest_even (num den : Z) : Z :=
  let q := num / den in
  let r := num mod den in
  if (den <? 2 * r) || ((den =? 2 * r) && Z.odd q) then q + 1 else q.

(** The double nearest to a rational number: a mantissa of 53 bits,
    ties to the even mantissa. *)
Definition round_double (x : Q) : Q :=
  let n := Z.abs (Qnum x) in
  let d := Zpos (Qden x) in
  if n =? 0 then 0%Q
  else
    let e := binade n d - 52 in
    let m := nearest_even (n * 2 ^ Z.max 0 (- e)) (d * 2 ^ Z.max 0 e) in
    Qmake (Z.sgn (Qnum x) * m * 2 ^ Z.max 0 e) (Z.to_pos (2 ^ Z.max 0 (- e))).

(** [dt.timestamp()] of an aware [datetime]:
    [(dt - epoch).total_seconds()], the microseconds divided by [10**6],
    a float. *)
Definition timestamp (dt : datetime) : Q := round_double (Qmake dt 1000000).

(** [int(x)] on a number: truncation towards zero. *)
Definition int_of_Q (x : Q) : Z := Z.quot (Qnum x) (Zpos (Qden x)).

End Datetime.

Import Datetime.

(** ** Data model *)

(** The validated request body ([app/schemas/lead.py]). *)
Module LeadCreate.
Record t : Type := mk {
  nombre : str;
  correo : str;
  telefono : option str;
  intereses_servicios : list str;
  mensaje : option str
}.
End LeadCreate.

(** The ORM entity ([app/db/models.py]).  [id] is [None] until the row is
    flushed; the two [_json] attributes hold the text of the columns
    behind the list-valued properties; [external_task_id] holds whatever
    the ClickUp answer carried under the key [id] ([JNull] for [None]). *)
Module Lead.
Record t : Type := mk {
  id : option Z;
  created_at : datetime;
  updated_at : datetime;
  nombre : str;
  correo : str;
  telefono : option str;
  intereses_servicios_json : option str;
  mensaje : option str;
  dedupe_key : str;
  external_task_id : JValue;
  external_subtask_ids_json : option str;
  external_task_url : option str;
  status_api : option Z
}.

(** The getter shared by the two list-valued properties:
    [json.loads(text) if text else []], and [[]] on [JSONDecodeError]. *)
Definition load_list (column : option str) : JValue :=
  match column with
  | None => JArray []
  | Some [] => JArray []
  | Some text =>
      match loads text with
      | Some v => v
      | None => JArray []
      end
  end.

(** The setter: [json.dumps(value or [])]. *)
Definition dump_list (value : list str) : option str := Some (dumps value).

Definition intereses_servicios (self : t) : JValue :=
  load_list (intereses_servicios_json self).

Definition set_intereses_servicios (self : t) (value : list str) : t :=
  mk (id self) (created_at self) (updated_at self) (nombre self) (correo self)
     (telefono self) (dump_list value) (mensaje self) (dedupe_key self)
     (external_task_id self) (external_subtask_ids_json self)
     (external_task_url self) (status_api self).

Definition external_subtask_ids (self : t) : JValue :=
  load_list (external_subtask_ids_json self).

Definition set_external_subtask_ids (self : t) (value : list str) : t :=
  mk (id self) (created_at self) (updated_at self) (nombre self) (correo self)
     (telefono self) (intereses_servicios_json self) (mensaje self) (dedupe_key self)
     (external_task_id self) (dump_list value)
     (external_task_url self) (status_api self).

Definition set_external_task_id (self : t) (value : JValue) : t :=
  mk (id self) (created_at self) (updated_at self) (nombre self) (correo self)
     (telefono self) (intereses_servicios_json self) (mensaje self) (dedupe_key self)
     value (external_subtask_ids_json self)
     (external_task_url self) (status_api self).

Definition set_id (self : t) (value : Z) : t :=
  mk (Some value) (created_at self) (updated_at self) (nombre self) (correo self)
     (telefono self) (intereses_servicios_json self) (mensaje self) (dedupe_key self)
     (external_task_id self) (external_subtask_ids_json self)
     (external_task_url self) (status_api self).

Definition set_updated_at (self : t) (value : datetime) : t :=
  mk (id self) (created_at self) value (nombre self) (correo self)
     (telefono self) (intereses_servicios_json self) (mensaje self) (dedupe_key self)
     (external_task_id self) (external_subtask_ids_json self)
     (external_task_url self) (status_api self).

(** The embedding of a Python list of strings among the decoded
    documents. *)
Definition py_list (l : list str) : JValue := JArray (map JString l).
End Lead.

(** The configuration ([app/config.py]), as far as the core reads it. *)
Module Settings.
Record t : Type := mk {
  CLICKUP_TOKEN : str;
  CLICKUP_LIST_ID : str;
  CLICKUP_DEFAULT_STATUS : str;
  SUBTASKS : str
}.
End Settings.

(** ** Effects *)

Inductive Exn : Type :=
| ClickUpError (message : str)
| IntegrityError
| InvalidRequestError
| JSONDecodeError
| AttributeError
| TypeError.

(** The body of a task-creation request. *)
Record Payload : Type := mkPayload {
  p_name : str;
  p_description : option str;
  p_due_date : option Z;
  p_parent : option JValue;
  p_status : option str
}.

Record Request : Type := mkRequest {
  url : str;
  authorization : str;
  json : Payload
}.

(** What one POST comes to: an [httpx.HTTPError] with its message, or a
    response with its status code and what [resp.json()] gives ([None]
    when it raises). *)
Inductive Outcome : Type :=
| NetworkFailure (error : str)
| Response (status_code : Z) (body : option JValue).

(** The network trace: the POSTs in the order they were sent, each with
    what came back, and the pauses between them. *)
Inductive IOEvent : Type :=
| Posted (req : Request) (out : Outcome)
| Slept (seconds : Q).

(** The structured log: one constructor for each event name of the core. *)
Inductive LogEvent : Type :=
| lead_created (lead_id : option Z)
| lead_duplicate_returning_existing (lead_id : option Z)
| lead_duplicate_fallback_by_email (lead_id : option Z)
| tm_skipped
| tm_task_created (parent_id : JValue)
| tm_subtask_created (parent_id subtask_id : JValue) (title : str)
| tm_persist_ids_no_session (lead_id : option Z)
| tm_persisted_ids (lead_id : option Z) (parent_id : JValue) (count : nat)
| tm_error (error : str)
| tm_unexpected_error (error : Exn)
| tm_post_ok (url : str) (status : Z)
| tm_post_retryable_http_error (url : str) (status : Z) (attempt : Z)
| tm_post_http_error (url : str) (status : Z) (attempt : Z)
| tm_post_network_error (url : str) (attempt : Z) (error : str).

(** The SQLAlchemy session: the objects added and not yet flushed, and the
    primary keys of the persistent objects it holds. *)
Record Session : Type := mkSession {
  pending : list Lead.t;
  identity : list Z
}.

Record World : Type := mkWorld {
  leads : list Lead.t;
  session : Session;
  io : list IOEvent;
  log : list LogEvent
}.

(** What the code reads from outside: the settings, the behaviour of the
    network and of the ClickUp API (the outcome of the next POST, given
    the trace so far), the readings of the clock at the five places where
    one call reads it, the table as concurrent transactions leave it
    between a failed commit and the queries that follow, and the
    interpreter's [str()] of a float or a container. *)
Record Env : Type := mkEnv {
  settings : Settings.t;
  respond : list IOEvent -> Request -> Outcome;
  utcnow_key : datetime;
  now_created : datetime;
  now_updated : datetime;
  now_due : datetime;
  utcnow_onupdate : datetime;
  interfere : list Lead.t -> list Lead.t;
  repr : JValue -> str
}.

Inductive Result (A : Type) : Type :=
| Ok (value : A)
| Raise (e : Exn).
Arguments Ok {A} value.
Arguments Raise {A} e.

(** Computations over the world that may raise. *)
Definition M (A : Type) : Type := World -> Result A * World.

Definition ret {A} (a : A) : M A := fun w => (Ok a, w).

Definition raise {A} (e : Exn) : M A := fun w => (Raise e, w).

Definition bind {A B} (m : M A) (k : A -> M B) : M B :=
  fun w =>
    match m w with
    | (Ok a, w') => k a w'
    | (Raise e, w') => (Raise e, w')
    end.

(** [try: body except ...: handler]; a handler re-raises what its clauses
    do not name. *)
Definition try_except {A} (body : M A) (handler : Exn -> M A) : M A :=
  fun w =>
    match body w with
    | (Ok a, w') => (Ok a, w')
    | (Raise e, w') => handler e w'
    end.

Notation "x <- m ;; k" := (bind m (fun x => k))
  (at level 61, m at next level, right associativity).
Notation "m ;;; k" := (bind m (fun _ => k))
  (at level 61, right associativity).

Definition log_event (e : LogEvent) : M unit :=
  fun w => (Ok tt, mkWorld (leads w) (session w) (io w) (log w ++ [e])).

Definition io_event (e : IOEvent) : M unit :=
  fun w => (Ok tt, mkWorld (leads w) (session w) (io w ++ [e]) (log w)).

(** One [client.post(url, headers=..., json=...)], of a request that
    httpx can encode (see [Trace.sendable]): the call then raises nothing
    but an [httpx.HTTPError]. *)
Definition post (env : Env) (req : Request) : M Outcome :=
  fun w =>
    let out := respond env (io w) req in
    (Ok out, mkWorld (leads w) (session w) (io w ++ [Posted req out]) (log w)).

(** [time.sleep(seconds)]. *)
Definition sleep (seconds : Q) : M unit := io_event (Slept seconds).

(** ** The ClickUp client ([app/integrations/clickup_client.py]) *)

Module ClickUpClient.
Open Scope Z_scope.

Record t : Type := mk {
  token : str;
  list_id : str;
  default_status : option str;
  timeout : Q;
  max_retries : Z
}.

Definition BASE_URL : str := s!"https://api.clickup.com/api/v2".

Definition nonempty (s : str) : bool :=
  match s with [] => false | _ :: _ => true end.

(** [x or ""] on an optional string. *)
Definition or_empty (x : option str) : str :=
  match x with Some s => s | None => [] end.

(** [__init__]. *)
Definition init (token list_id : str) (default_status : option str)
           (timeout : Q) (max_retries : Z) : t :=
  mk (strip token) (strip list_id)
     (let s := strip (or_empty default_status) in if nonempty s then Some s else None)
     timeout max_retries.

Definition from_settings (s : Settings.t) : t :=
  init (Settings.CLICKUP_TOKEN s) (Settings.CLICKUP_LIST_ID s)
       (Some (Settings.CLICKUP_DEFAULT_STATUS s)) (10 # 1) 3.

Definition is_configured (self : t) : bool :=
  nonempty (token self) && nonempty (list_id self).

Definition backoffs : list Q := [1 # 2; 2 # 1; 5 # 1]%Q.

(** [backoffs[min(attempt - 1, len(backoffs) - 1)]]. *)
Definition backoff_delay (attempt : Z) : Q :=
  nth (Z.to_nat (Z.min (attempt - 1) (Z.of_nat (length backoffs) - 1))) backoffs 0%Q.

(** The pause after a failed attempt, when another attempt follows. *)
Definition backoff (self : t) (attempt : Z) : M unit :=
  if attempt <? max_retries self then sleep (backoff_delay attempt) else ret tt.

(** The message of the error raised after the loop. *)
Definition failure_message (self : t) (last_exc : option str) : str :=
  (s!"ClickUp POST failed after " ++ str_of_Z (max_retries self) ++ s!" attempts")
    ++ match last_exc with
       | Some e => s!": " ++ e
       | None => []
       end.

Definition is_success (status : Z) : bool := (200 <=? status) && (status <? 300).

Definition is_retryable_status (status : Z) : bool :=
  (status =? 429) || ((500 <=? status) && (status <? 600)).

(** The loop of [_post_with_retries]; [remaining] counts the attempts
    left in [range(attempt, max_retries + 1)].  Leaving the loop, by
    exhaustion or by [break], reaches the [raise] that follows it. *)
Fixpoint attempts (env : Env) (self : t) (req : Request)
         (remaining : nat) (attempt : Z) (last_exc : option str) : M JValue :=
  match remaining with
  | O => raise (ClickUpError (failure_message self last_exc))
  | S k =>
      out <- post env req ;;
      match out with
      | Response status body =>
          if is_success status then
            match body with
            | Some data => log_event (tm_post_ok (url req) status) ;;; ret data
            | None => raise JSONDecodeError
            end
          else if is_retryable_status status then
            log_event (tm_post_retryable_http_error (url req) status attempt) ;;;
            backoff self attempt ;;;
            attempts env self req k (attempt + 1) last_exc
          else
            log_event (tm_post_http_error (url req) status attempt) ;;;
            raise (ClickUpError (failure_message self last_exc))
      | NetworkFailure error =>
          log_event (tm_post_network_error (url req) attempt error) ;;;
          backoff self attempt ;;;
          attempts env self req k (attempt + 1) (Some error)
      end
  end.

Definition _post_with_retries (env : Env) (self : t) (path : str) (json : Payload)
  : M JValue :=
  let req := mkRequest (BASE_URL ++ path) (token self) json in
  attempts env self req (Z.to_nat (max_retries self)) 1 None.

(** [value if value else None] for an optional string argument. *)
Definition if_nonempty (x : option str) : option str :=
  match x with
  | Some s => if nonempty s then Some s else None
  | None => None
  end.

Definition skipped_result : JValue :=
  JObject [(s!"skipped", JBool true); (s!"reason", JString s!"missing_token_or_list_id")].

(** [create_task]; [parent] is [JNull] for [None]. *)
Definition create_task (env : Env) (self : t) (name : str) (description : option str)
           (due_date_ms : option Z) (parent : JValue) : M JValue :=
  if negb (is_configured self) then
    log_event tm_skipped ;;; ret skipped_result
  else
    let payload :=
      mkPayload name (if_nonempty description) due_date_ms
                (if truthy parent then Some parent else None)
                (if_nonempty (default_status self)) in
    let path := s!"/list/" ++ list_id self ++ s!"/task" in
    _post_with_retries env self path payload.

Definition create_subtask (env : Env) (self : t) (parent_task_id : JValue) (name : str)
           (description : option str) (due_date_ms : option Z) : M JValue :=
  create_task env self name description due_date_ms parent_task_id.

End ClickUpClient.

(** ** The store, as the session of one request sees it *)

Module Db.
Open Scope Z_scope.

Definition with_store (w : World) (rows : list Lead.t) (s : Session) : World :=
  mkWorld rows s (io w) (log w).

(** [db.add(obj)]. *)
Definition add (obj : Lead.t) : M unit :=
  fun w =>
    (Ok tt, with_store w (leads w)
              (mkSession (pending (session w) ++ [obj]) (identity (session w)))).

Definition key_taken (rows : list Lead.t) (key : str) : bool :=
  existsb (fun r => PyStr.eqb (Lead.dedupe_key r) key) rows.

(** The primary key given to a new row: one more than the largest in the
    table. *)
Definition next_id (rows : list Lead.t) : Z :=
  1 + fold_right (fun r acc => match Lead.id r with Some i => Z.max i acc | None => acc end)
                 0 rows.

(** The INSERTs of a flush, in the order the objects were added; [None]
    when one of them breaks the uniqueness of [dedupe_key].  The result
    holds the new table and the flushed objects with their keys. *)
Fixpoint flush (objs : list Lead.t) (rows : list Lead.t) (done : list Lead.t)
  : option (list Lead.t * list Lead.t) :=
  match objs with
  | [] => Some (rows, done)
  | o :: rest =>
      if key_taken rows (Lead.dedupe_key o) then None
      else
        let o' := Lead.set_id o (next_id rows) in
        flush rest (rows ++ [o']) (done ++ [o'])
  end.

Definition ids_of (objs : list Lead.t) : list Z :=
  flat_map (fun o => match Lead.id o with Some i => [i] | None => [] end) objs.

(** [db.commit()] with new objects pending: all are inserted, or none
    and [IntegrityError] is raised.  The flushed objects are returned. *)
Definition commit : M (list Lead.t) :=
  fun w =>
    match flush (pending (session w)) (leads w) [] with
    | Some (rows, done) =>
        (Ok done, with_store w rows (mkSession [] (identity (session w) ++ ids_of done)))
    | None => (Raise IntegrityError, w)
    end.

(** [db.rollback()]: the pending objects are expunged.  The statements
    that follow run in a new transaction, which sees the table as the
    other transactions have left it. *)
Definition rollback (env : Env) : M unit :=
  fun w =>
    (Ok tt, with_store w (interfere env (leads w))
              (mkSession [] (identity (session w)))).

Definition has_id (i : option Z) (r : Lead.t) : bool :=
  match i, Lead.id r with
  | Some a, Some b => a =? b
  | _, _ => false
  end.

(** [db.refresh(obj)]: the attributes are loaded from the row. *)
Definition refresh (obj : Lead.t) : M Lead.t :=
  fun w =>
    match find (has_id (Lead.id obj)) (leads w) with
    | Some row => (Ok row, w)
    | None => (Raise InvalidRequestError, w)
    end.

(** [select(Lead).where(Lead.dedupe_key == key).limit(1)], then
    [scalar_one_or_none()]. *)
Definition select_by_dedupe_key (key : str) : M (option Lead.t) :=
  fun w => (Ok (find (fun r => PyStr.eqb (Lead.dedupe_key r) key) (leads w)), w).

(** The first row of the largest [created_at] among [rows]. *)
Fixpoint latest (rows : list Lead.t) : option Lead.t :=
  match rows with
  | [] => None
  | r :: rest =>
      match latest rest with
      | Some r' => if Lead.created_at r <? Lead.created_at r' then Some r' else Some r
      | None => Some r
      end
  end.

(** [select(Lead).where(Lead.correo == correo)
      .order_by(Lead.created_at.desc()).limit(1)]. *)
Definition select_latest_by_correo (correo : str) : M (option Lead.t) :=
  fun w =>
    (Ok (latest (filter (fun r => PyStr.eqb (Lead.correo r) correo) (leads w))), w).

(** The session holds the object as a persistent one. *)
Definition attached (s : Session) (obj : Lead.t) : bool :=
  match Lead.id obj with
  | Some i => existsb (Z.eqb i) (identity s)
  | None => false
  end.

(** [object_session(obj)], as a truth value. *)
Definition object_session (obj : Lead.t) : M bool :=
  fun w => (Ok (attached (session w) obj), w).

(** [sess.add(obj); sess.commit()] for a persistent object whose
    attributes were assigned: the UPDATE of its row, which also stamps
    [updated_at] ([onupdate]).  The identifier assigned to
    [external_task_id] is one that the column stores and gives back as it
    is, a text or [None] (see [Trace.storable]). *)
Definition commit_update (env : Env) (obj : Lead.t) : M unit :=
  fun w =>
    let stamped := Lead.set_updated_at obj (utcnow_onupdate env) in
    (Ok tt, with_store w
              (map (fun r => if has_id (Lead.id obj) r then stamped else r) (leads w))
              (session w)).

End Db.

(** ** The lead service ([app/services/lead_service.py]) *)

Module LeadService.
Open Scope Z_scope.
Import ClickUpClient.

Definition _generate_dedupe_key (env : Env) (data : LeadCreate.t) : str :=
  let correo := lower (strip (LeadCreate.correo data)) in
  let nombre := strip (LeadCreate.nombre data) in
  let yyyymmdd := strftime (utcnow_key env) s!"%Y%m%d" in
  let raw := correo ++ s!"|" ++ yyyymmdd ++ s!"|" ++ nombre in
  Sha256.hexdigest (encode_utf8 raw).

(** [int(dt.timestamp() * 1000)]: the product is a float too. *)
Definition _epoch_ms (dt : datetime) : Z :=
  int_of_Q (round_double (timestamp dt * (1000 # 1))).

Definition _subtasks_from_env (env : Env) : list str :=
  let raw := strip (Settings.SUBTASKS (settings env)) in
  if nonempty raw then
    filter nonempty (map strip (split 0x3B raw))
  else
    [s!"Contactar lead (24h)"; s!"Enviar información"; s!"Proponer 3 horarios";
     s!"Agendar reunión inicial"].

(** [d.get(key)] on a decoded document: the value of the last member of
    that name, [None] without one, [AttributeError] on anything but an
    object. *)
Definition lookup (members : list (str * JValue)) (key : str) : JValue :=
  fold_left (fun acc kv => if PyStr.eqb (fst kv) key then snd kv else acc) members JNull.

Definition dict_get (d : JValue) (key : str) : M JValue :=
  match d with
  | JObject members => ret (lookup members key)
  | _ => raise AttributeError
  end.

(** [str(v)]. *)
Definition py_str (env : Env) (v : JValue) : str :=
  match v with
  | JString s => s
  | JInt z => str_of_Z z
  | JBool true => s!"True"
  | JBool false => s!"False"
  | JNull => s!"None"
  | _ => repr env v
  end.

(** The names of a decoded object, as the [dict] keeps them: once each,
    at the place of the first occurrence. *)
Fixpoint dict_keys (members : list (str * JValue)) (seen : list str) : list str :=
  match members with
  | [] => []
  | (k, _) :: rest =>
      if existsb (PyStr.eqb k) seen then dict_keys rest seen
      else k :: dict_keys rest (k :: seen)
  end.

Fixpoint all_strings (items : list JValue) : option (list str) :=
  match items with
  | [] => Some []
  | JString s :: rest =>
      match all_strings rest with
      | Some l => Some (s :: l)
      | None => None
      end
  | _ :: _ => None
  end.

(** [sep.join(v)] on a decoded document. *)
Definition join_value (sep : str) (v : JValue) : M str :=
  match v with
  | JArray items =>
      match all_strings items with
      | Some l => ret (join sep l)
      | None => raise TypeError
      end
  | JString s => ret (join sep (map (fun c => [c]) s))
  | JObject members => ret (join sep (dict_keys members []))
  | _ => raise TypeError
  end.

(** The loop over [enumerate(subtasks)], from index [idx] on; the result
    is [sub_ids] after the loop. *)
Fixpoint create_subtasks (env : Env) (client : ClickUpClient.t) (parent_id : JValue)
         (due_ms : option Z) (subtasks : list str) (idx : nat) (sub_ids : list str)
  : M (list str) :=
  match subtasks with
  | [] => ret sub_ids
  | title :: rest =>
      sub <- (match idx with
              | O => create_subtask env client parent_id title None due_ms
              | S _ => create_subtask env client parent_id title None None
              end) ;;
      sub_id <- dict_get sub s!"id" ;;
      let sid := if truthy sub_id then py_str env sub_id else [] in
      log_event (tm_subtask_created parent_id sub_id title) ;;;
      create_subtasks env client parent_id due_ms rest (S idx) (sub_ids ++ [sid])
  end.

(** The [try] block of [_maybe_create_clickup_items]. *)
Definition sync_body (env : Env) (client : ClickUpClient.t) (lead : Lead.t)
           (task_name descripcion : str) : M Lead.t :=
  parent <- create_task env client task_name (Some descripcion) None JNull ;;
  skipped <- dict_get parent s!"skipped" ;;
  if truthy skipped then
    log_event tm_skipped ;;; ret lead
  else
    parent_id <- dict_get parent s!"id" ;;
    log_event (tm_task_created parent_id) ;;;
    let subtasks := _subtasks_from_env env in
    let due_ms :=
      match subtasks with
      | [] => None
      | _ :: _ => Some (_epoch_ms (now_due env + timedelta_hours 24))
      end in
    sub_ids <- create_subtasks env client parent_id due_ms subtasks 0 [] ;;
    sess <- Db.object_session lead ;;
    if negb sess then
      log_event (tm_persist_ids_no_session (Lead.id lead)) ;;; ret lead
    else
      let lead := Lead.set_external_task_id lead parent_id in
      let lead := Lead.set_external_subtask_ids lead sub_ids in
      Db.commit_update env lead ;;;
      lead <- Db.refresh lead ;;
      log_event (tm_persisted_ids (Lead.id lead) parent_id (length sub_ids)) ;;;
      ret lead.

(** [x or '-'] on an optional string. *)
Definition or_dash (x : option str) : str :=
  match x with
  | Some (c :: s) => c :: s
  | _ => s!"-"
  end.

(** The text of the parent task. *)
Definition descripcion (lead : Lead.t) (intereses : str) : str :=
  s!"**Nombre:** " ++ Lead.nombre lead ++ [0x0A%N]
  ++ s!"**Correo:** " ++ Lead.correo lead ++ [0x0A%N]
  ++ s!"**Teléfono:** " ++ or_dash (Lead.telefono lead) ++ [0x0A%N]
  ++ s!"**Intereses:** " ++ intereses ++ [0x0A%N]
  ++ s!"**Mensaje:** " ++ or_dash (Lead.mensaje lead) ++ [0x0A%N].

Definition task_name (lead : Lead.t) : str := s!"Nuevo lead: " ++ Lead.nombre lead.

(** What the [except] clauses record. *)
Definition error_event (e : Exn) : LogEvent :=
  match e with
  | ClickUpError message => tm_error message
  | _ => tm_unexpected_error e
  end.

(** The function mutates the lead it is given and returns [None]; the
    result here is the lead as the caller finds it afterwards. *)
Definition _maybe_create_clickup_items (env : Env) (lead : Lead.t) (data : LeadCreate.t)
  : M Lead.t :=
  let client := from_settings (settings env) in
  if negb (is_configured client) then
    log_event tm_skipped ;;; ret lead
  else
    intereses <- (if truthy (Lead.intereses_servicios lead)
                  then join_value s!", " (Lead.intereses_servicios lead)
                  else ret s!"-") ;;
    try_except
      (sync_body env client lead (task_name lead) (descripcion lead intereses))
      (fun e =>
         match e with
         | ClickUpError message => log_event (tm_error message) ;;; ret lead
         | _ => log_event (tm_unexpected_error e) ;;; ret lead
         end).

(** The date text that enters the dedupe key, written out field by
    field: four digits of year, two of month, two of day. *)
Definition yyyymmdd (dt : datetime) : str :=
  let '(y, m, d) := date dt in
  zero_padded 4 (Z.to_N y) ++ zero_padded 2 (Z.to_N m) ++ zero_padded 2 (Z.to_N d).

(** A request body that passed the validation of [LeadCreate]: a name of
    at least one code point, and well-formed texts.  (The
    syntax of the address is checked by the validator of [EmailStr] and
    plays no part below.) *)
Definition valid_lead_input (data : LeadCreate.t) : Prop :=
  LeadCreate.nombre data <> []
  /\ wf (LeadCreate.nombre data) = true
  /\ wf (LeadCreate.correo data) = true
  /\ Forall (fun s => wf s = true) (LeadCreate.intereses_servicios data).

(** The object built before the insert is tried. *)
Definition new_lead (env : Env) (data : LeadCreate.t) : Lead.t :=
  let lead :=
    Lead.mk None (now_created env) (now_updated env)
            (LeadCreate.nombre data) (lower (LeadCreate.correo data))
            (LeadCreate.telefono data) None (LeadCreate.mensaje data)
            (_generate_dedupe_key env data) JNull None None None in
  Lead.set_intereses_servicios lead (LeadCreate.intereses_servicios data).

Definition create_or_get_lead (env : Env) (data : LeadCreate.t) : M (Lead.t * bool) :=
  let dedupe_key := _generate_dedupe_key env data in
  let lead := new_lead env data in
  Db.add lead ;;;
  r <- try_except
         (flushed <- Db.commit ;;
          lead <- Db.refresh (last flushed lead) ;;
          log_event (lead_created (Lead.id lead)) ;;;
          ret (lead, true))
         (fun e =>
            match e with
            | IntegrityError =>
                Db.rollback env ;;;
                existing <- Db.select_by_dedupe_key dedupe_key ;;
                match existing with
                | Some row =>
                    log_event (lead_duplicate_returning_existing (Lead.id row)) ;;;
                    ret (row, false)
                | None =>
                    fallback <- Db.select_latest_by_correo (lower (LeadCreate.correo data)) ;;
                    match fallback with
                    | Some row =>
                        log_event (lead_duplicate_fallback_by_email (Lead.id row)) ;;;
                        ret (row, false)
                    | None => raise e
                    end
                end
            | _ => raise e
            end) ;;
  match r with
  | (lead, true) =>
      lead <- _maybe_create_clickup_items env lead data ;;
      ret (lead, true)
  | (lead, false) => ret (lead, false)
  end.

End LeadService.

(** ** Observations on runs *)

Module Trace.
Import ClickUpClient.

Definition posts_of (tr : list IOEvent) : list (Request * Outcome) :=
  flat_map (fun e => match e with Posted r o => [(r, o)] | Slept _ => [] end) tr.

Definition outcomes_of (tr : list IOEvent) : list Outcome := map snd (posts_of tr).

Definition sleeps_of (tr : list IOEvent) : list Q :=
  flat_map (fun e => match e with Slept q => [q] | Posted _ _ => [] end) tr.


Definition is_2xx (o : Outcome) : bool :=
  match o with
  | NetworkFailure _ => false
  | Response status _ => is_success status
  end.







(** The attempt numbers [first], [first + 1], ... ([n] of them). *)
Fixpoint attempt_numbers (first : Z) (n : nat) : list Z :=
  match n with
  | O => []
  | S k => first :: attempt_numbers (first + 1)%Z k
  end.

(** The shape of the runs of the retry loop: the network trace and the
    result of [attempts] with [remaining] attempts left, the next one
    numbered [attempt]. *)
Inductive Run (self : ClickUpClient.t) (req : Request)
  : nat -> Z -> option str -> list IOEvent -> Result JValue -> Prop :=
| run_exhausted : forall attempt last_exc,
    Run self req 0 attempt last_exc []
        (Raise (ClickUpError (failure_message self last_exc)))
| run_success : forall k attempt last_exc status data,
    is_success status = true ->
    Run self req (S k) attempt last_exc [Posted req (Response status (Some data))] (Ok data)
| run_unreadable : forall k attempt last_exc status,
    is_success status = true ->
    Run self req (S k) attempt last_exc [Posted req (Response status None)]
        (Raise JSONDecodeError)
| run_abort : forall k attempt last_exc status body,
    is_success status = false ->
    is_retryable_status status = false ->
    Run self req (S k) attempt last_exc [Posted req (Response status body)]
        (Raise (ClickUpError (failure_message self last_exc)))
| run_retry_status : forall k attempt last_exc status body tr res,
    is_success status = false ->
    is_retryable_status status = true ->
    Run self req k (attempt + 1)%Z last_exc tr res ->
    Run self req (S k) attempt last_exc
        (Posted req (Response status body)
           :: (if (attempt <? max_retries self)%Z then [Slept (backoff_delay attempt)] else [])
           ++ tr) res
| run_retry_network : forall k attempt last_exc error tr res,
    Run self req k (attempt + 1)%Z (Some error) tr res ->
    Run self req (S k) attempt last_exc
        (Posted req (NetworkFailure error)
           :: (if (attempt <? max_retries self)%Z then [Slept (backoff_delay attempt)] else [])
           ++ tr) res.

(** The world after some network traffic and some logging. *)
Definition extend (w : World) (tr : list IOEvent) (lg : list LogEvent) : World :=
  mkWorld (leads w) (session w) (io w ++ tr) (log w ++ lg).

(** The tasks that a trace created: the bodies of the POSTs answered 2xx
    with a readable document, with what was answered, in order. *)
Definition successes (tr : list IOEvent) : list (Payload * JValue) :=
  flat_map (fun e =>
              match e with
              | Posted r (Response status (Some data)) =>
                  if is_success status then [(json r, data)] else []
              | _ => []
              end) tr.


(** The body of the request for the subtask of index [idx]. *)
Definition subtask_payload (self : ClickUpClient.t) (parent_id : JValue) (due_ms : option Z)
           (idx : nat) (title : str) : Payload :=
  mkPayload title None (match idx with O => due_ms | S _ => None end)
            (if truthy parent_id then Some parent_id else None)
            (if_nonempty (default_status self)).

Fixpoint subtask_payloads (self : ClickUpClient.t) (parent_id : JValue) (due_ms : option Z)
         (idx : nat) (titles : list str) : list Payload :=
  match titles with
  | [] => []
  | title :: rest =>
      subtask_payload self parent_id due_ms idx title
        :: subtask_payloads self parent_id due_ms (S idx) rest
  end.

(** [str(sub.get("id") or "")] on the members of an answer. *)
Definition subtask_id (env : Env) (members : list (str * JValue)) : str :=
  let v := LeadService.lookup members s!"id" in
  if truthy v then LeadService.py_str env v else [].

(** The due date of the first subtask. *)
Definition due_in_24h (env : Env) : Z :=
  LeadService._epoch_ms (now_due env + timedelta_hours 24)%Z.

(** The lead after the write-back of the identifiers. *)
Definition written_back (env : Env) (lead : Lead.t) (parent_id : JValue) (sub_ids : list str)
  : Lead.t :=
  Lead.set_updated_at
    (Lead.set_external_subtask_ids (Lead.set_external_task_id lead parent_id) sub_ids)
    (utcnow_onupdate env).

(** The UPDATE of the write-back on a table. *)
Definition update_row (lead : Lead.t) (new : Lead.t) (rows : list Lead.t) : list Lead.t :=
  map (fun r => if Db.has_id (Lead.id lead) r then new else r) rows.

(** The due date handed to the loop over the subtasks. *)
Definition due_of (env : Env) (titles : list str) : option Z :=
  match titles with
  | [] => None
  | _ :: _ => Some (due_in_24h env)
  end.

(** The tasks created by a sync that went all the way: the parent, then
    one subtask for each title, in order. *)
Definition created_tasks (env : Env) (self : ClickUpClient.t) (name description : str)
           (parent : list (str * JValue)) (bodies : list (list (str * JValue)))
  : list (Payload * JValue) :=
  let titles := LeadService._subtasks_from_env env in
  (mkPayload name (if_nonempty (Some description)) None None
             (if_nonempty (default_status self)), JObject parent)
    :: combine (subtask_payloads self (LeadService.lookup parent s!"id")
                                 (due_of env titles) 0 titles)
               (map JObject bodies).

(** The last event of the log. *)
Definition ended_with (w : World) (e : LogEvent) : Prop :=
  exists lg, log w = lg ++ [e].

(** The interests of the lead were written by the setter, from
    well-formed texts. *)
Definition interests_written (lead : Lead.t) (l : list str) : Prop :=
  Forall (fun s => wf s = true) l
  /\ Lead.intereses_servicios_json lead = Lead.dump_list l.

(** The calls into httpx and into the driver of SQLite can fail before
    anything is sent or stored: a header or a body that cannot be
    encoded, an identifier that is not a text.  [post] and
    [Db.commit_update] leave these failures out; the predicates below say
    when there are none. *)

(** [s.encode("utf-8")] does not raise: no code point is a surrogate. *)
Definition utf8_ok (s : str) : bool :=
  forallb (fun c => (c <? 0x110000) && negb (is_high c || is_low c))%N s.

(** A letter or a digit of ASCII, an underscore or a hyphen. *)
Definition word_char (c : N) : bool :=
  (((0x30 <=? c) && (c <=? 0x39)) || ((0x41 <=? c) && (c <=? 0x5A))
   || ((0x61 <=? c) && (c <=? 0x7A)) || (c =? 0x5F) || (c =? 0x2D))%N.

(** The token makes a header and the list id a URL: both are made of
    [word_char]s; the status, which goes into the body, can be encoded. *)
Definition sendable (self : ClickUpClient.t) : Prop :=
  forallb word_char (token self) = true
  /\ forallb word_char (list_id self) = true
  /\ utf8_ok (or_empty (default_status self)) = true.

(** An identifier that a body can carry and that the column
    [external_task_id] stores and gives back as it is: [None] or a text
    that can be encoded. *)
Definition storable (v : JValue) : Prop :=
  v = JNull \/ exists s, v = JString s /\ utf8_ok s = true.







(** The text of the interests in the description of the task. *)
Definition interests_text (l : list str) : str :=
  match l with
  | [] => s!"-"
  | _ :: _ => join s!", " l
  end.

(** The row of a new lead in a table [rows], and the world after its
    insert. *)
Definition inserted (env : Env) (data : LeadCreate.t) (rows : list Lead.t) : Lead.t :=
  Lead.set_id (LeadService.new_lead env data) (Db.next_id rows).

Definition after_insert (env : Env) (data : LeadCreate.t) (w : World) : World :=
  mkWorld (leads w ++ [inserted env data (leads w)])
          (mkSession [] (identity (session w) ++ [Db.next_id (leads w)]))
          (io w)
          (log w ++ [lead_created (Some (Db.next_id (leads w)))]).

(** The world after one more event in the log. *)
Definition logged (w : World) (e : LogEvent) : World :=
  mkWorld (leads w) (session w) (io w) (log w ++ [e]).

(** The world after the rollback that follows a refused insert. *)
Definition after_rollback (env : Env) (w : World) : World :=
  mkWorld (interfere env (leads w)) (mkSession [] (identity (session w))) (io w) (log w).

End Trace.

(** ** Sample inputs

    The concrete settings, environments and payloads at which the
    statements below are instantiated. *)

Module Samples.
Import ClickUpClient Trace.

Definition settings0 : Settings.t :=
  Settings.mk s!"pk_token" s!"901" s!"Open" s!"Llamar; Enviar propuesta".

Definition unconfigured : Settings.t :=
  Settings.mk s!"" s!"901" s!"Open" s!"Llamar; Enviar propuesta".

Definition client0 : ClickUpClient.t := from_settings settings0.

(** An API that answers the POSTs of a run from a script, then with
    [otherwise]. *)
Definition scripted (script : list Outcome) (otherwise : Outcome)
  : list IOEvent -> Request -> Outcome :=
  fun tr _ => nth (length (posts_of tr)) script otherwise.

(** 2025-11-04 10:00:00 UTC. *)
Definition t0 : datetime := (1762250400 * 1000000)%Z.

Definition env_with (st : Settings.t) (script : list Outcome) (otherwise : Outcome) : Env :=
  mkEnv st (scripted script otherwise) t0 (t0 + 1) (t0 + 2) (t0 + 900000) (t0 + 950000)
        (fun rows => rows) (fun _ => s!"<repr>").

Definition task (id : str) : Outcome :=
  Response 200 (Some (JObject [(s!"id", JString id)])).

Definition empty_world : World := mkWorld [] (mkSession [] []) [] [].

Definition jose : LeadCreate.t :=
  LeadCreate.mk s!"Jose Guerrero" s!"jose@ejemplo.com" (Some s!"+593 3131313")
                [s!"diseño"; s!"riego"] (Some s!"Siembra de palmeras").

(** The same person, on the same day, with other details. *)
Definition jose_again : LeadCreate.t :=
  LeadCreate.mk s!"  Jose Guerrero " s!" Jose@Ejemplo.COM" None
                [s!"mantenimiento"] (Some s!"Otro mensaje").

(** An API that creates every task at the first attempt; the first
    submission of [jose] through it; and the same day, a little later. *)
Definition env_first : Env := env_with settings0 [] (task s!"86c1").

Definition env_later : Env :=
  mkEnv settings0 (scripted [] (task s!"86c2")) (t0 + 3600000000) (t0 + 3600000001)
        (t0 + 3600000002) (t0 + 3600900000) (t0 + 3600950000)
        (fun rows => rows) (fun _ => s!"<repr>").

(** An API that is down. *)
Definition env_down : Env := env_with settings0 [] (Response 503 None).

Definition first_run : Result (Lead.t * bool) * World :=
  LeadService.create_or_get_lead env_first jose empty_world.

Definition w_first : World := snd first_run.

Definition row_first : Lead.t :=
  match fst first_run with
  | Ok (row, _) => row
  | Raise _ => LeadService.new_lead env_first jose
  end.

End Samples.

(** ** Observations on texts, requests and tables

    What the statements about the rest of the code are written with. *)

Module Shape.
Import ClickUpClient Trace.
Open Scope N_scope.

(** A text of whitespace only (the empty text included). *)
Definition blank (s : str) : bool := forallb isspace s.

(** The network trace of a call that got the outcomes [outs], the first
    of them at attempt [attempt]: the request once for each outcome, the
    pause of the attempt between two consecutive ones. *)
Fixpoint paced (req : Request) (attempt : Z) (outs : list Outcome) : list IOEvent :=
  match outs with
  | [] => []
  | o :: rest =>
      Posted req o ::
      match rest with
      | [] => []
      | _ :: _ => Slept (backoff_delay attempt) :: paced req (attempt + 1)%Z rest
      end
  end.

(** The request of [create_task]. *)
Definition task_request (self : ClickUpClient.t) (name : str) (description : option str)
           (due_date_ms : option Z) (parent : JValue) : Request :=
  mkRequest (BASE_URL ++ s!"/list/" ++ list_id self ++ s!"/task") (token self)
            (mkPayload name (if_nonempty description) due_date_ms
                       (if truthy parent then Some parent else None)
                       (if_nonempty (default_status self))).

Definition total (qs : list Q) : Q := fold_right Qplus 0%Q qs.

(** The first code point of the text, when it has one, is not
    whitespace. *)
Definition edge_ok (s : str) : Prop :=
  match s with [] => True | c :: _ => isspace c = false end.

(** What the result of a run says about the answers it got. *)
Definition explains (res : Result JValue) (outs : list Outcome) : Prop :=
  match res with
  | Ok data =>
      exists pre status,
        outs = pre ++ [Response status (Some data)]
        /\ is_success status = true
        /\ Forall (fun o => is_2xx o = false) pre
  | Raise JSONDecodeError =>
      exists pre status,
        outs = pre ++ [Response status None]
        /\ is_success status = true
        /\ Forall (fun o => is_2xx o = false) pre
  | Raise (ClickUpError _) => Forall (fun o => is_2xx o = false) outs
  | Raise _ => False
  end.

(** A title as the sync uses it: not empty, without whitespace at its
    ends, without the separator of the setting. *)
Definition clean_title (t : str) : Prop :=
  t <> [] /\ strip t = t /\ ~ In 0x3B t.

(** The titles used when the setting is blank. *)
Definition DEFAULT_SUBTASKS : list str :=
  [s!"Contactar lead (24h)"; s!"Enviar información"; s!"Proponer 3 horarios";
   s!"Agendar reunión inicial"].

(** The environment with another text in the setting [SUBTASKS]. *)
Definition with_subtasks (env : Env) (text : str) : Env :=
  mkEnv (Settings.mk (Settings.CLICKUP_TOKEN (settings env))
                     (Settings.CLICKUP_LIST_ID (settings env))
                     (Settings.CLICKUP_DEFAULT_STATUS (settings env)) text)
        (respond env) (utcnow_key env) (now_created env) (now_updated env) (now_due env)
        (utcnow_onupdate env) (interfere env) (repr env).

(** A code point of printable ASCII. *)
Definition printable (c : N) : Prop := 0x20 <= c <= 0x7E.

(** The uniqueness constraints of the table: no two rows of the same
    dedupe key, every row with a primary key, no two rows of the same
    one. *)
Definition well_keyed (rows : list Lead.t) : Prop :=
  NoDup (map Lead.dedupe_key rows)
  /\ NoDup (map Lead.id rows)
  /\ Forall (fun r => Lead.id r <> None) rows.

(** The request goes to the task URL of the client's list, under the
    client's token. *)
Definition to_list (self : ClickUpClient.t) (req : Request) : Prop :=
  url req = BASE_URL ++ s!"/list/" ++ list_id self ++ s!"/task"
  /\ authorization req = token self.

(** Whatever the world it starts from, the computation only adds to the
    network trace, at most [n] POSTs, each of a request that satisfies
    [P]. *)
Definition sends {A} (n : nat) (P : Request -> Prop) (m : M A) : Prop :=
  forall w, exists tr,
    io (snd (m w)) = io w ++ tr
    /\ Forall (fun p => P (fst p)) (posts_of tr)
    /\ (length (posts_of tr) <= n)%nat.

End Shape.

(** ** The webhook ([app/api/routers/webhook.py]) *)

Module Webhook.
Import ClickUpClient LeadService.
Open Scope Z_scope.

(** The response model [LeadResponse] ([app/schemas/lead.py]). *)
Record LeadResponse : Type := mkLeadResponse {
  id : Z;
  nombre : str;
  correo : str;
  telefono : option str;
  intereses_servicios : list str;
  mensaje : option str;
  created_at : datetime;
  updated_at : datetime
}.

(** What the router reads besides the environment of the service: the
    shared secret of the settings, and the validator behind [EmailStr],
    which gives the normalised address or refuses the text. *)
Record Config : Type := mkConfig {
  FORM_SHARED_SECRET : str;
  validate_email : str -> option str
}.

(** The events of the router in the structured log (the timing is left
    out). *)
Inductive Event : Type :=
| webhook_received (has_secret : bool)
| webhook_unauthorized
| webhook_payload_normalized (correo : str) (intereses : list str)
| lead_persisted (lead_id : option Z) (status_api : Z)
| lead_existing (lead_id : option Z) (status_api : Z).

(** What a request comes to when the handler does not return: the
    [HTTPException] it raises, the [ValidationError] of a model, or an
    exception of the service. *)
Inductive Failure : Type :=
| HTTPException (status_code : Z) (detail : str)
| ValidationError
| Unhandled (e : Exn).

(** [bool(x)] on an optional string. *)
Definition has_text (x : option str) : bool :=
  match x with
  | Some (_ :: _) => true
  | _ => false
  end.

(** [x.strip() if x else None]. *)
Definition strip_or_none (x : option str) : option str :=
  if has_text x then option_map strip x else None.

(** [x != secret] on the optional header. *)
Definition differs (x : option str) (secret : str) : bool :=
  match x with
  | Some s => negb (PyStr.eqb s secret)
  | None => true
  end.

(** [LeadCreate(...)]: the name has at least one code point, the
    address passes the validator. *)
Definition new_LeadCreate (cfg : Config) (nombre correo : str) (telefono : option str)
           (intereses_servicios : list str) (mensaje : option str) : option LeadCreate.t :=
  if nonempty nombre then
    match validate_email cfg correo with
    | Some address =>
        Some (LeadCreate.mk nombre address telefono intereses_servicios mensaje)
    | None => None
    end
  else None.

(** [LeadResponse.model_validate(lead_obj)], from the attributes of the
    entity: an integer [id], an address that passes the validator, a
    list of strings behind the property of the interests. *)
Definition model_validate (cfg : Config) (lead : Lead.t) : option LeadResponse :=
  match Lead.id lead, validate_email cfg (Lead.correo lead), Lead.intereses_servicios lead with
  | Some i, Some address, JArray items =>
      match all_strings items with
      | Some intereses =>
          Some (mkLeadResponse i (Lead.nombre lead) address (Lead.telefono lead) intereses
                               (Lead.mensaje lead) (Lead.created_at lead)
                               (Lead.updated_at lead))
      | None => None
      end
  | _, _, _ => None
  end.

(** The session of [get_db]: a new one for each request, closed when
    the request is over. *)
Definition SessionLocal (w : World) : World :=
  mkWorld (leads w) (mkSession [] []) (io w) (log w).

Definition close (w : World) : World :=
  mkWorld (leads w) (mkSession [] []) (io w) (log w).

Definition HTTP_401_UNAUTHORIZED : Z := 401.
Definition HTTP_201_CREATED : Z := 201.
Definition HTTP_200_OK : Z := 200.

(** The body of [receive_webhook]: the result, the world and the events
    of the router after it. *)
Definition handle (cfg : Config) (env : Env) (payload : LeadCreate.t)
           (x_form_secret : option str) (db : World) (events : list Event)
  : (Failure + Z * LeadResponse) * World * list Event :=
  let events := events ++ [webhook_received (has_text x_form_secret)] in
  if negb (nonempty (FORM_SHARED_SECRET cfg))
     || differs x_form_secret (FORM_SHARED_SECRET cfg)
  then
    (inl (HTTPException HTTP_401_UNAUTHORIZED s!"Unauthorized"), db,
     events ++ [webhook_unauthorized])
  else
    match new_LeadCreate cfg
            (strip (LeadCreate.nombre payload))
            (lower (strip (LeadCreate.correo payload)))
            (strip_or_none (LeadCreate.telefono payload))
            (map strip (LeadCreate.intereses_servicios payload))
            (strip_or_none (LeadCreate.mensaje payload)) with
    | None => (inl ValidationError, db, events)
    | Some normalized =>
        match create_or_get_lead env normalized db with
        | (Raise e, db) => (inl (Unhandled e), db, events)
        | (Ok (lead_obj, created), db) =>
            let events :=
              events ++ [webhook_payload_normalized
                           (LeadCreate.correo normalized)
                           (LeadCreate.intereses_servicios normalized)] in
            match model_validate cfg lead_obj with
            | None => (inl ValidationError, db, events)
            | Some resp =>
                if created then
                  (inr (HTTP_201_CREATED, resp), db,
                   events ++ [lead_persisted (Lead.id lead_obj) HTTP_201_CREATED])
                else
                  (inr (HTTP_200_OK, resp), db,
                   events ++ [lead_existing (Lead.id lead_obj) HTTP_200_OK])
            end
        end
    end.

(** One request to [POST /api/form/webhook], with the session that
    [get_db] opens for it and closes after it. *)
Definition receive_webhook (cfg : Config) (env : Env) (payload : LeadCreate.t)
           (x_form_secret : option str) (w : World) (events : list Event)
  : (Failure + Z * LeadResponse) * World * list Event :=
  let '(result, db, events) := handle cfg env payload x_form_secret (SessionLocal w) events in
  (result, close db, events).

(** The request carries the secret of the settings, and there is one. *)
Definition authorised (cfg : Config) (x_form_secret : option str) : Prop :=
  FORM_SHARED_SECRET cfg <> [] /\ x_form_secret = Some (FORM_SHARED_SECRET cfg).

(** The body as the handler passes it to the service. *)
Definition normalized (cfg : Config) (payload : LeadCreate.t) : option LeadCreate.t :=
  new_LeadCreate cfg
    (strip (LeadCreate.nombre payload))
    (lower (strip (LeadCreate.correo payload)))
    (strip_or_none (LeadCreate.telefono payload))
    (map strip (LeadCreate.intereses_servicios payload))
    (strip_or_none (LeadCreate.mensaje payload)).

End Webhook.

(** ** The startup migrations ([app/db/migrations.py])

    The database is modelled by what the migrations read and change: the
    name of the backend and, for each table, the names of its columns in
    order.  SQLite compares the names of tables and columns without
    regard to the case of ASCII letters. *)

Module Migrations.
Open Scope N_scope.

(** The two statements that the module sends to the driver:
    [PRAGMA table_info('<table>')] and
    [ALTER TABLE <table> ADD COLUMN <coldef_sql>]. *)
Inductive Statement : Type :=
| TableInfo (table : str)
| AddColumn (table coldef_sql : str).

Inductive Error : Type :=
| OperationalError (message : str).

Inductive Event : Type :=
| db_column_added (table column : str)
| db_migration_skipped (reason : str) (backend : option str)
| db_migration_done (table : str)
| db_migration_error (error : Error).

Record State : Type := mkState {
  backend : str;
  tables : list (str * list str);
  statements : list Statement;
  events : list Event
}.

(** The failures of the driver that do not come from the schema (a
    locked file, a lost connection): the message of the error of the next
    statement, if it is to fail, given the statements so far. *)
Definition Driver : Type := list Statement -> Statement -> option str.

Definition same_name (a b : str) : bool := PyStr.eqb (lower a) (lower b).

(** The columns of a table; none when there is no such table. *)
Definition columns_of (tbls : list (str * list str)) (table : str) : list str :=
  match find (fun t => same_name (fst t) table) tbls with
  | Some (_, cols) => cols
  | None => []
  end.

(** The name of the column in a column definition: its first word. *)
Fixpoint column_name (coldef_sql : str) : str :=
  match coldef_sql with
  | [] => []
  | c :: t => if c =? 0x20 then [] else c :: column_name t
  end.

(** [ALTER TABLE ... ADD COLUMN] on the schema: the column is appended
    to the table; the statement is refused when there is no such table or
    when the table has a column of that name. *)
Fixpoint add_column (tbls : list (str * list str)) (table column : str)
  : option (list (str * list str)) :=
  match tbls with
  | [] => None
  | (name, cols) :: rest =>
      if same_name name table then
        if existsb (same_name column) cols then None
        else Some ((name, cols ++ [column]) :: rest)
      else
        match add_column rest table column with
        | Some rest' => Some ((name, cols) :: rest')
        | None => None
        end
  end.

Definition info (e : Event) (s : State) : State :=
  mkState (backend s) (tables s) (statements s) (events s ++ [e]).

(** [conn.exec_driver_sql(...)]: the rows of a [PRAGMA table_info] are
    given by the names of the columns. *)
Definition exec_driver_sql (drv : Driver) (st : Statement) (s : State)
  : (Error + list str) * State :=
  let s' := mkState (backend s) (tables s) (statements s ++ [st]) (events s) in
  match drv (statements s) st with
  | Some message => (inl (OperationalError message), s')
  | None =>
      match st with
      | TableInfo table => (inr (columns_of (tables s) table), s')
      | AddColumn table coldef_sql =>
          match add_column (tables s) table (column_name coldef_sql) with
          | Some tbls =>
              (inr [], mkState (backend s) tbls (statements s ++ [st]) (events s))
          | None => (inl (OperationalError s!"no such table or duplicate column name"), s')
          end
      end
  end.

Definition and_then {A B} (m : State -> (Error + A) * State)
           (k : A -> State -> (Error + B) * State) : State -> (Error + B) * State :=
  fun s =>
    match m s with
    | (inr a, s') => k a s'
    | (inl e, s') => (inl e, s')
    end.

Definition _table_columns (drv : Driver) (table : str) : State -> (Error + list str) * State :=
  exec_driver_sql drv (TableInfo table).

Definition _add_column_sqlite (drv : Driver) (table coldef_sql : str)
  : State -> (Error + unit) * State :=
  and_then (exec_driver_sql drv (AddColumn table coldef_sql))
           (fun _ s => (inr tt, info (db_column_added table coldef_sql) s)).

Definition has (name : str) (cols : list str) : bool := existsb (PyStr.eqb name) cols.

(** The [try] block of [run_startup_migrations]. *)
Definition migrate_leads (drv : Driver) : State -> (Error + unit) * State :=
  and_then (_table_columns drv s!"leads") (fun cols =>
    match cols with
    | [] => fun s => (inr tt, info (db_migration_skipped s!"leads_table_missing" None) s)
    | _ :: _ =>
        and_then (if has s!"external_task_id" cols then fun s => (inr tt, s)
                  else _add_column_sqlite drv s!"leads" s!"external_task_id VARCHAR(64)")
          (fun _ =>
        and_then (if has s!"external_subtask_ids" cols then fun s => (inr tt, s)
                  else _add_column_sqlite drv s!"leads" s!"external_subtask_ids TEXT")
          (fun _ s => (inr tt, info (db_migration_done s!"leads") s)))
    end).

Definition run_startup_migrations (drv : Driver) (s : State) : (Error + unit) * State :=
  if negb (PyStr.eqb (backend s) s!"sqlite") then
    (inr tt, info (db_migration_skipped s!"non_sqlite_backend" (Some (backend s))) s)
  else
    match migrate_leads drv s with
    | (inr tt, s') => (inr tt, s')
    | (inl e, s') => (inr tt, info (db_migration_error e) s')
    end.

(** One table after the migrations, against the same table before: the
    same name, the same columns in the same order, then possibly new
    ones out of [added]. *)
Definition grown (added : list str) (before after : str * list str) : Prop :=
  fst after = fst before
  /\ exists extra, snd after = snd before ++ extra /\ incl extra added.

(** The last event of the log. *)
Definition ended_with (s : State) (e : Event) : Prop :=
  exists evs, events s = evs ++ [e].

(** A driver that fails only for the schema. *)
Definition sound : Driver := fun _ _ => None.

(** The two columns of the ClickUp identifiers. *)
Definition NEW_COLUMNS : list str := [s!"external_task_id"; s!"external_subtask_ids"].

(** The columns that the migration finds missing in [cols]. *)
Definition missing (cols : list str) : list str :=
  filter (fun n => negb (has n cols)) NEW_COLUMNS.

(** What one step of the migration does to the state. *)
Definition step_ok (s s' : State) : Prop :=
  backend s' = backend s
  /\ Forall2 (grown NEW_COLUMNS) (tables s) (tables s')
  /\ exists evs, events s' = events s ++ evs.

End Migrations.

(** ** More sample inputs *)

Module Scenarios.
Import ClickUpClient Trace Samples.
Open Scope N_scope.




(** Another person. *)
Definition maria : LeadCreate.t :=
  LeadCreate.mk s!"Maria Paz" s!"maria@ejemplo.com" None [s!"poda"] None.

(** A webhook whose secret is set, with a validator that accepts every
    address as it is. *)
Definition cfg0 : Webhook.Config := Webhook.mkConfig s!"s3cret" (fun s => Some s).

(** A form filled in with whitespace around the fields. *)
Definition form : LeadCreate.t :=
  LeadCreate.mk s!" Jose Guerrero " s!"Jose@Ejemplo.com " (Some s!"  ")
                [s!" riego "; s!"diseño"] None.

(** A database of the first release: the table of the leads without the
    two columns of the ClickUp identifiers. *)
Definition old_schema : Migrations.State :=
  Migrations.mkState s!"sqlite"
    [(s!"leads", [s!"id"; s!"nombre"; s!"correo"; s!"dedupe_key"])] [] [].

End Scenarios.

(** * Properties *)

Import Trace.

Ltac run_monad :=
  unfold bind, ret, raise, try_except, log_event, io_event, sleep, post;
  cbn [fst snd leads session io log].

(** Boolean comparisons on [N] turned into propositions, for [lia]. *)
Ltac nbool :=
  repeat (rewrite andb_true_iff in * || rewrite orb_true_iff in *
          || rewrite andb_false_iff in * || rewrite orb_false_iff in *
          || rewrite N.leb_le in * || rewrite N.leb_gt in *
          || rewrite N.ltb_lt in * || rewrite N.ltb_ge in *
          || rewrite N.eqb_eq in * || rewrite N.eqb_neq in *).

(** Equality of two worlds, up to the bracketing of the traces. *)
Ltac world_eq :=
  unfold extend, logged; cbn [leads session io log];
  rewrite <- ?app_assoc, ?app_nil_r; cbn [app]; reflexivity.

(** A statement about each item of a list written out. *)
Ltac each_item := repeat apply Forall_cons; try apply Forall_nil.

Section Worlds.

Lemma extend_nil (w : World) : extend w [] [] = w.
Proof. destruct w; unfold extend; cbn. now rewrite !app_nil_r. Qed.

Lemma extend_extend (w : World) tr1 lg1 tr2 lg2 :
  extend (extend w tr1 lg1) tr2 lg2 = extend w (tr1 ++ tr2) (lg1 ++ lg2).
Proof. unfold extend; cbn. now rewrite !app_assoc. Qed.

End Worlds.

(** ** The retry loop *)

Section RetryLoop.
Import ClickUpClient.
Variable env : Env.
Variable self : ClickUpClient.t.
Variable req : Request.


Lemma attempts_run (remaining : nat) :
  forall attempt last_exc w,
  exists tr lg res,
    attempts env self req remaining attempt last_exc w = (res, extend w tr lg)
    /\ Run self req remaining attempt last_exc tr res.
Proof.
  induction remaining as [|k IH]; intros attempt last_exc w.
  - exists [], [], (Raise (ClickUpError (failure_message self last_exc))).
    split; [cbn; unfold raise; now rewrite extend_nil | constructor].
  - cbn [attempts]. unfold backoff. run_monad.
    destruct (respond env (io w) req) as [error | status body] eqn:Hout.
    + pose proof (run_retry_network self req k attempt last_exc error) as R.
      destruct (attempt <? max_retries self) eqn:Hlt; run_monad;
        match goal with
        | |- context [attempts env self req _ ?a ?l ?W] =>
            destruct (IH a l W) as (tr & lg & res & Hrun & Hshape); rewrite Hrun
        end;
        (eexists _, _, res; split;
         [ unfold extend; cbn [leads session io log];
           rewrite <- ?app_assoc; reflexivity
         | apply R, Hshape ]).
    + destruct (is_success status) eqn:Hs.
      * destruct body as [data |]; run_monad.
        -- exists [Posted req (Response status (Some data))],
             [tm_post_ok (url req) status], (Ok data).
           split; [reflexivity | now constructor].
        -- exists [Posted req (Response status None)], [], (Raise JSONDecodeError).
           split; [unfold extend; cbn; now rewrite app_nil_r | now constructor].
      * destruct (is_retryable_status status) eqn:Hr.
        -- pose proof (run_retry_status self req k attempt last_exc status body) as R.
           destruct (attempt <? max_retries self) eqn:Hlt; run_monad;
             match goal with
             | |- context [attempts env self req _ ?a ?l ?W] =>
                 destruct (IH a l W) as (tr & lg & res & Hrun & Hshape); rewrite Hrun
             end;
             (eexists _, _, res; split;
              [ unfold extend; cbn [leads session io log];
                rewrite <- ?app_assoc; reflexivity
              | apply R; auto ]).
        -- run_monad.
           exists [Posted req (Response status body)],
             [tm_post_http_error (url req) status attempt],
             (Raise (ClickUpError (failure_message self last_exc))).
           split; [reflexivity | now constructor].
Qed.


Lemma outcomes_retry r o (b : bool) q tr :
  outcomes_of (Posted r o :: (if b then [Slept q] else []) ++ tr) = o :: outcomes_of tr.
Proof. now destruct b. Qed.

Lemma sleeps_retry r o (b : bool) q tr :
  sleeps_of (Posted r o :: (if b then [Slept q] else []) ++ tr)
  = (if b then [q] else []) ++ sleeps_of tr.
Proof. now destruct b. Qed.

Lemma run_posts_le remaining attempt last_exc tr res :
  Run self req remaining attempt last_exc tr res ->
  (length (outcomes_of tr) <= remaining)%nat.
Proof.
  induction 1; rewrite ?outcomes_retry; cbn [outcomes_of posts_of flat_map map app length];
    lia.
Qed.

Lemma run_no_post remaining attempt last_exc tr res :
  Run self req remaining attempt last_exc tr res ->
  outcomes_of tr = [] -> remaining = O.
Proof. induction 1; rewrite ?outcomes_retry; cbn; congruence. Qed.




Lemma run_sleeps remaining attempt last_exc tr res :
  Run self req remaining attempt last_exc tr res ->
  Z.of_nat remaining = Z.max 0 (max_retries self - attempt + 1) ->
  sleeps_of tr
  = map backoff_delay (attempt_numbers attempt (length (outcomes_of tr) - 1)).
Proof.
  induction 1; intros Hb; rewrite ?outcomes_retry, ?sleeps_retry; try reflexivity.
  - cbn [length]. rewrite Nat.sub_succ, Nat.sub_0_r.
    destruct (outcomes_of tr) as [|o outs] eqn:E.
    + pose proof (run_no_post _ _ _ _ _ H1 E) as ->.
      replace (attempt <? max_retries self) with false by (symmetry; lia).
      specialize (IHRun ltac:(lia)). rewrite IHRun. reflexivity.
    + pose proof (run_posts_le _ _ _ _ _ H1) as Hle. rewrite E in Hle. cbn in Hle.
      replace (attempt <? max_retries self) with true by (symmetry; lia).
      specialize (IHRun ltac:(lia)). rewrite IHRun.
      cbn [length]. now rewrite Nat.sub_succ, Nat.sub_0_r.
  - cbn [length]. rewrite Nat.sub_succ, Nat.sub_0_r.
    destruct (outcomes_of tr) as [|o outs] eqn:E.
    + pose proof (run_no_post _ _ _ _ _ H E) as ->.
      replace (attempt <? max_retries self) with false by (symmetry; lia).
      specialize (IHRun ltac:(lia)). rewrite IHRun. reflexivity.
    + pose proof (run_posts_le _ _ _ _ _ H) as Hle. rewrite E in Hle. cbn in Hle.
      replace (attempt <? max_retries self) with true by (symmetry; lia).
      specialize (IHRun ltac:(lia)). rewrite IHRun.
      cbn [length]. now rewrite Nat.sub_succ, Nat.sub_0_r.
Qed.

End RetryLoop.

(** ** The client *)

Section Client.
Import ClickUpClient.



Lemma nonempty_iff (s : str) : nonempty s = true <-> s <> [].
Proof. destruct s; cbn; split; congruence. Qed.

Lemma is_configured_iff (self : t) :
  is_configured self = true <-> token self <> [] /\ list_id self <> [].
Proof. unfold is_configured. now rewrite andb_true_iff, !nonempty_iff. Qed.

(** A configured client's [create_task] is one run of the retry loop. *)
Lemma create_task_run env self name description due parent w :
  is_configured self = true ->
  exists req tr lg res,
    create_task env self name description due parent w = (res, extend w tr lg)
    /\ Run self req (Z.to_nat (max_retries self)) 1 None tr res
    /\ json req = mkPayload name (if_nonempty description) due
                    (if truthy parent then Some parent else None)
                    (if_nonempty (default_status self)).
Proof.
  intros Hc. unfold create_task, _post_with_retries. rewrite Hc. cbn [negb].
  match goal with
  | |- context [attempts env self ?r ?n ?a ?l w] =>
      destruct (attempts_run env self r n a l w) as (tr & lg & res & Hrun & Hshape);
      exists r, tr, lg, res
  end.
  now repeat split.
Qed.

End Client.

Section ClientFailures.
Import ClickUpClient Samples.








(** C7.  The client is configured exactly when its token and its list id
    are both non-empty (as [__init__] keeps them, stripped).  On a client
    whose token or list id is empty, [create_task] returns the sentinel
    dictionary, whose [skipped] entry is true, and leaves the network
    trace as it was: no POST is sent, and nothing but the log changes. *)
Theorem C7_unconfigured_is_skipped (self : ClickUpClient.t) :
  (is_configured self = true <-> token self <> [] /\ list_id self <> [])
  /\ forall env name description due parent w,
      token self = [] \/ list_id self = [] ->
      create_task env self name description due parent w
      = (Ok skipped_result, extend w [] [tm_skipped])
      /\ io (extend w [] [tm_skipped]) = io w
      /\ fst (LeadService.dict_get skipped_result s!"skipped" w) = Ok (JBool true).
Proof.
  split; [apply is_configured_iff |].
  intros env name description due parent w Hempty.
  assert (is_configured self = false) as Hc.
  { unfold is_configured. destruct Hempty as [-> | ->]; cbn; [reflexivity |].
    now rewrite andb_false_r. }
  unfold create_task. rewrite Hc. cbn [negb]. run_monad.
  split; [| split].
  - unfold extend. now rewrite app_nil_r.
  - unfold extend. cbn. now rewrite app_nil_r.
  - reflexivity.
Qed.

Lemma C7_unconfigured_is_skipped_witness :
  (token (from_settings unconfigured) = [] \/ list_id (from_settings unconfigured) = [])
  /\ create_task (env_with unconfigured [] (task s!"t1")) (from_settings unconfigured)
                 s!"Nuevo lead: Jose" (Some s!"**Nombre:** Jose") None JNull empty_world
     = (Ok skipped_result, extend empty_world [] [tm_skipped])
  /\ io (extend empty_world [] [tm_skipped]) = io empty_world.
Proof.
  assert (token (from_settings unconfigured) = []
          \/ list_id (from_settings unconfigured) = []) as H by (left; reflexivity).
  split; [exact H |].
  destruct (proj2 (C7_unconfigured_is_skipped (from_settings unconfigured))
                  (env_with unconfigured [] (task s!"t1")) s!"Nuevo lead: Jose"
                  (Some s!"**Nombre:** Jose") None JNull empty_world H) as (H1 & H2 & _).
  split; [exact H1 | exact H2].
Defined.


(** The scenario of the specification: two HTTP 500, then HTTP 200. *)
Example retry_scenario :
  let run := create_task
               (env_with settings0 [Response 500 None; Response 500 None] (task s!"t1"))
               client0 s!"Nuevo lead: Jose" None None JNull empty_world in
  fst run = Ok (JObject [(s!"id", JString s!"t1")])
  /\ length (posts_of (io (snd run))) = 3%nat
  /\ sleeps_of (io (snd run)) = [(1 # 2)%Q; (2 # 1)%Q].
Proof. vm_compute. repeat split. Qed.

End ClientFailures.

(** ** The codec of the list-valued columns *)

Section Codec.
Open Scope N_scope.

Lemma hexval_hex_digit (d : N) : d < 16 -> hexval (hex_digit d) = Some d.
Proof.
  intros Hd.
  assert (d = 0 \/ d = 1 \/ d = 2 \/ d = 3 \/ d = 4 \/ d = 5 \/ d = 6 \/ d = 7 \/ d = 8
          \/ d = 9 \/ d = 10 \/ d = 11 \/ d = 12 \/ d = 13 \/ d = 14 \/ d = 15) as H by lia.
  repeat (destruct H as [-> | H]; [reflexivity |]). now subst.
Qed.

Lemma hex4_sum (n : N) :
  ((n / 4096 * 16 + (n / 256) mod 16) * 16 + (n / 16) mod 16) * 16 + n mod 16 = n.
Proof.
  zify. Z.to_euclidean_division_equations. lia.
Qed.

Lemma hex4val_hex4 (n : N) :
  n < 0x10000 ->
  hex4val (hex_digit (n / 4096)) (hex_digit ((n / 256) mod 16))
          (hex_digit ((n / 16) mod 16)) (hex_digit (n mod 16)) = Some n.
Proof.
  intros Hn. unfold hex4val.
  rewrite !hexval_hex_digit.
  - f_equal. apply hex4_sum.
  - apply N.mod_lt; lia.
  - apply N.mod_lt; lia.
  - apply N.mod_lt; lia.
  - apply N.Div0.div_lt_upper_bound; lia.
Qed.

Lemma lor_disjoint (a b k : N) : b < 2 ^ k -> N.lor (a * 2 ^ k) b = a * 2 ^ k + b.
Proof.
  intros Hb.
  assert (N.land (a * 2 ^ k) b = 0) as Hl.
  { apply N.bits_inj. intros i. rewrite N.land_spec, N.bits_0.
    destruct (N.lt_ge_cases i k) as [Hi | Hi].
    - now rewrite N.mul_pow2_bits_low.
    - destruct (N.eq_dec b 0) as [-> | Hb0]; [now rewrite N.bits_0, andb_false_r |].
      rewrite (N.bits_above_log2 b i), andb_false_r; [reflexivity |].
      apply N.log2_lt_pow2 in Hb; lia. }
  now rewrite N.add_nocarry_lxor, N.lxor_lor.
Qed.

Lemma high_low (v : N) :
  v < 0x100000 ->
  N.lor 0xD800 (N.land (N.shiftr v 10) 0x3FF) = 0xD800 + v / 1024
  /\ N.lor 0xDC00 (N.land v 0x3FF) = 0xDC00 + v mod 1024.
Proof.
  intros Hv.
  change 0x3FF with (N.ones 10). rewrite !N.land_ones, N.shiftr_div_pow2.
  change (2 ^ 10) with 1024.
  assert (v / 1024 < 1024) as Hh by (apply N.Div0.div_lt_upper_bound; lia).
  rewrite (N.mod_small (v / 1024)) by exact Hh.
  split.
  - change 0xD800 with (54 * 2 ^ 10). apply lor_disjoint. exact Hh.
  - change 0xDC00 with (55 * 2 ^ 10). apply lor_disjoint. apply N.mod_lt. lia.
Qed.

Lemma surrogates_roundtrip (v : N) :
  v < 0x100000 ->
  let hi := N.lor 0xD800 (N.land (N.shiftr v 10) 0x3FF) in
  let lo := N.lor 0xDC00 (N.land v 0x3FF) in
  hi < 0x10000 /\ lo < 0x10000 /\ is_high hi = true /\ is_low lo = true
  /\ join_surrogates hi lo = 0x10000 + v.
Proof.
  intros Hv hi lo. destruct (high_low v Hv) as [Hhi Hlo].
  subst hi lo. rewrite Hhi, Hlo.
  assert (v / 1024 < 1024) as Hh by (apply N.Div0.div_lt_upper_bound; lia).
  assert (v mod 1024 < 1024) as Hl by (apply N.mod_lt; lia).
  unfold is_high, is_low, join_surrogates.
  clear Hhi Hlo.
  remember (v / 1024) as h. remember (v mod 1024) as l.
  repeat split; try (nbool; lia).
  replace (0xD800 + h - 0xD800) with h by lia.
  replace (0xDC00 + l - 0xDC00) with l by lia. subst h l.
  rewrite N.shiftl_mul_pow2, lor_disjoint by exact Hl.
  change (2 ^ 10) with 1024. f_equal.
  rewrite (N.div_mod v 1024) at 3 by lia. lia.
Qed.

Lemma scanstring_plain (c : N) (t : str) :
  c <> QUOTE -> c <> BACKSLASH -> 0x20 <= c ->
  scanstring (c :: t) = push c (scanstring t).
Proof.
  intros H1 H2 H3. cbn [scanstring].
  apply N.eqb_neq in H1, H2. rewrite H1, H2.
  replace (c <? 0x20) with false by (symmetry; apply N.ltb_ge; exact H3).
  reflexivity.
Qed.

Lemma scanstring_short (e ch : N) (t : str) :
  e <> LETTER_u -> unescape e = Some ch ->
  scanstring (BACKSLASH :: e :: t) = push ch (scanstring t).
Proof.
  intros H1 H2. cbn [scanstring].
  apply N.eqb_neq in H1. rewrite H1, H2. reflexivity.
Qed.

Lemma scanstring_u4 (n : N) (t : str) :
  n < 0x10000 -> is_high n = false ->
  scanstring (BACKSLASH :: LETTER_u :: hex4 n ++ t) = push n (scanstring t).
Proof.
  intros H1 H2. unfold hex4. cbn [scanstring app].
  change (BACKSLASH =? QUOTE) with false. change (BACKSLASH =? BACKSLASH) with true.
  change (LETTER_u =? LETTER_u) with true. cbv iota.
  rewrite (hex4val_hex4 n H1), H2. reflexivity.
Qed.

Lemma scanstring_pair (v : N) (t : str) :
  v < 0x100000 ->
  scanstring ((BACKSLASH :: LETTER_u :: hex4 (N.lor 0xD800 (N.land (N.shiftr v 10) 0x3FF)))
                ++ (BACKSLASH :: LETTER_u :: hex4 (N.lor 0xDC00 (N.land v 0x3FF))) ++ t)
  = push (0x10000 + v) (scanstring t).
Proof.
  intros Hv. destruct (surrogates_roundtrip v Hv) as (H1 & H2 & H3 & H4 & H5).
  unfold hex4. cbn [scanstring app].
  change (BACKSLASH =? QUOTE) with false. change (BACKSLASH =? BACKSLASH) with true.
  change (LETTER_u =? LETTER_u) with true. cbv iota. cbn [andb].
  rewrite (hex4val_hex4 _ H1), H3, (hex4val_hex4 _ H2), H4, H5. reflexivity.
Qed.

Lemma scanstring_u4_high (n : N) (R : str) :
  n < 0x10000 -> no_low_escape R ->
  scanstring (BACKSLASH :: LETTER_u :: hex4 n ++ R) = push n (scanstring R).
Proof.
  intros Hn HR. unfold hex4. cbn [scanstring app].
  change (BACKSLASH =? QUOTE) with false. change (BACKSLASH =? BACKSLASH) with true.
  change (LETTER_u =? LETTER_u) with true. cbv iota.
  rewrite (hex4val_hex4 n Hn).
  destruct (is_high n); [| reflexivity].
  destruct R as [|x1 [|x2 [|x3 [|x4 [|x5 [|x6 t]]]]]]; try reflexivity.
  destruct ((x1 =? BACKSLASH) && (x2 =? LETTER_u)) eqn:E; [| reflexivity].
  apply andb_true_iff in E as [E1 E2]. apply N.eqb_eq in E1, E2. subst x1 x2.
  destruct (HR x3 x4 x5 x6 t eq_refl) as (u & -> & ->). reflexivity.
Qed.

(** One escaped code point is read back as itself. *)
Lemma scanstring_escape_cp (c : N) (R : str) :
  c < 0x110000 -> (is_high c = true -> no_low_escape R) ->
  scanstring (escape_cp c ++ R) = push c (scanstring R).
Proof.
  intros Hc Hhigh. unfold escape_cp.
  destruct (c =? QUOTE) eqn:E1.
  { apply N.eqb_eq in E1 as ->. now apply scanstring_short. }
  destruct (c =? BACKSLASH) eqn:E2.
  { apply N.eqb_eq in E2 as ->. now apply scanstring_short. }
  destruct (c =? 0x0A) eqn:E3.
  { apply N.eqb_eq in E3 as ->. now apply scanstring_short. }
  destruct (c =? 0x0D) eqn:E4.
  { apply N.eqb_eq in E4 as ->. now apply scanstring_short. }
  destruct (c =? 0x09) eqn:E5.
  { apply N.eqb_eq in E5 as ->. now apply scanstring_short. }
  destruct (c =? 0x0C) eqn:E6.
  { apply N.eqb_eq in E6 as ->. now apply scanstring_short. }
  destruct (c =? 0x08) eqn:E7.
  { apply N.eqb_eq in E7 as ->. now apply scanstring_short. }
  destruct ((0x20 <=? c) && (c <=? 0x7E)) eqn:E8.
  { nbool. apply scanstring_plain; tauto. }
  destruct (c <? 0x10000) eqn:E9.
  { apply N.ltb_lt in E9. destruct (is_high c) eqn:E10.
    - apply scanstring_u4_high; auto.
    - now apply scanstring_u4. }
  nbool.
  replace c with (0x10000 + (c - 0x10000)) at 3 by lia.
  apply scanstring_pair. lia.
Qed.

(** The escape of a code point that is not a low surrogate does not
    read as the escape of one. *)
Lemma escape_no_low (c : N) (R : str) :
  c < 0x110000 -> is_low c = false -> no_low_escape (escape_cp c ++ R).
Proof.
  intros Hc Hlow a b c' d t. unfold escape_cp.
  destruct (c =? QUOTE); [discriminate |].
  destruct (c =? BACKSLASH) eqn:E2; [discriminate |].
  destruct (c =? 0x0A); [discriminate |].
  destruct (c =? 0x0D); [discriminate |].
  destruct (c =? 0x09); [discriminate |].
  destruct (c =? 0x0C); [discriminate |].
  destruct (c =? 0x08); [discriminate |].
  destruct ((0x20 <=? c) && (c <=? 0x7E)).
  { intros [= -> _]. now rewrite N.eqb_refl in E2. }
  destruct (c <? 0x10000) eqn:E9.
  - apply N.ltb_lt in E9. unfold hex4. intros [= <- <- <- <- _].
    exists c. split; [now apply hex4val_hex4 | exact Hlow].
  - apply N.ltb_ge in E9. cbv zeta.
    destruct (surrogates_roundtrip (c - 0x10000)) as (H1 & _ & H3 & _); [lia |].
    remember (N.lor 0xD800 (N.land (N.shiftr (c - 0x10000) 10) 0x3FF)) as hi.
    unfold hex4. cbn [app]. intros [= <- <- <- <- _].
    exists hi. split; [now apply hex4val_hex4 |].
    unfold is_high, is_low in *. nbool. lia.
Qed.

Lemma scanstring_escaped (s rest : str) :
  wf s = true ->
  scanstring (flat_map escape_cp s ++ QUOTE :: rest) = Some (s, rest).
Proof.
  induction s as [|c s IH]; intros Hwf.
  - reflexivity.
  - cbn [wf] in Hwf. apply andb_true_iff in Hwf as [Hwf Hs].
    apply andb_true_iff in Hwf as [Hc Hpair]. apply N.ltb_lt in Hc.
    cbn [flat_map]. rewrite <- app_assoc, scanstring_escape_cp.
    + now rewrite (IH Hs).
    + exact Hc.
    + intros Hhigh. rewrite Hhigh in Hpair. cbn [andb] in Hpair.
      destruct s as [|c' s]; [intros a b x d t; discriminate |].
      cbn [flat_map]. rewrite <- app_assoc. apply escape_no_low.
      * cbn [wf] in Hs. apply andb_true_iff in Hs as [Hs _].
        apply andb_true_iff in Hs as [Hs _]. now apply N.ltb_lt in Hs.
      * now apply negb_true_iff in Hpair.
Qed.

Lemma scan_once_string (fuel : nat) (s rest : str) :
  wf s = true ->
  scan_once (S fuel) (encode_string s ++ rest) = Some (JString s, rest).
Proof.
  intros Hwf. unfold encode_string. cbn [app scan_once].
  change (QUOTE =? QUOTE) with true. cbv iota.
  rewrite <- app_assoc. change ([QUOTE] ++ rest) with (QUOTE :: rest).
  now rewrite (scanstring_escaped s rest Hwf).
Qed.

Lemma scan_items_step (fuel : nat) (s : str) (acc : list JValue) :
  scan_items (S fuel) s acc
  = match scan_once fuel s with
    | None => None
    | Some (v, r) =>
        match skip_ws r with
        | c :: r' =>
            if c =? 0x5D then Some (rev (v :: acc), r')
            else if c =? 0x2C then scan_items fuel (skip_ws r') (v :: acc)
            else None
        | [] => None
        end
    end.
Proof. reflexivity. Qed.

Lemma skip_ws_joined (l : list str) (rest : str) :
  l <> [] ->
  skip_ws (join SEPARATOR (map encode_string l) ++ rest)
  = join SEPARATOR (map encode_string l) ++ rest.
Proof. destruct l as [|s [|s' l]]; [congruence | reflexivity | reflexivity]. Qed.

(** The items of a non-empty array written by [dumps] are read back in
    order. *)
Lemma scan_items_dumped (l : list str) :
  Forall (fun s => wf s = true) l -> l <> [] ->
  forall fuel acc rest,
    (length l < fuel)%nat ->
    scan_items fuel (join SEPARATOR (map encode_string l) ++ 0x5D :: rest) acc
    = Some (rev acc ++ map JString l, rest).
Proof.
  induction 1 as [|s l Hs Hl IH]; intros Hne fuel acc rest Hfuel; [congruence |].
  destruct fuel as [|fuel]; [cbn in Hfuel; lia |].
  destruct fuel as [|fuel]; [cbn in Hfuel; lia |].
  rewrite scan_items_step.
  destruct l as [|s' l].
  - cbn [map join]. rewrite (scan_once_string fuel s _ Hs).
    reflexivity.
  - change (join SEPARATOR (map encode_string (s :: s' :: l)))
      with (encode_string s ++ SEPARATOR ++ join SEPARATOR (map encode_string (s' :: l))).
    rewrite <- !app_assoc, (scan_once_string fuel s _ Hs).
    remember (join SEPARATOR (map encode_string (s' :: l)) ++ 0x5D :: rest) as R.
    change (skip_ws (SEPARATOR ++ R)) with (0x2C :: 0x20 :: R). cbv iota.
    change (0x2C =? 0x5D) with false. change (0x2C =? 0x2C) with true. cbv iota.
    change (skip_ws (0x20 :: R)) with (skip_ws R). subst R.
    rewrite skip_ws_joined by congruence.
    rewrite IH; [| congruence | cbn in *; lia].
    cbn [rev map]. now rewrite <- app_assoc.
Qed.

Lemma dumps_unfold (l : list str) :
  dumps l = 0x5B :: join SEPARATOR (map encode_string l) ++ [0x5D].
Proof. reflexivity. Qed.

Lemma join_length (l : list str) :
  (length l <= length (join SEPARATOR (map encode_string l) ++ [0x5D%N]))%nat.
Proof.
  induction l as [|s l IH]; [cbn; lia |].
  destruct l as [|s' l].
  - cbn. lia.
  - change (join SEPARATOR (map encode_string (s :: s' :: l)))
      with (encode_string s ++ SEPARATOR ++ join SEPARATOR (map encode_string (s' :: l))).
    rewrite <- !app_assoc. unfold encode_string at 1.
    cbn [app length] in *. rewrite !length_app in *. cbn [length] in *. lia.
Qed.

(** [json.loads(json.dumps(l)) == l]. *)
Lemma loads_dumps (l : list str) :
  Forall (fun s => wf s = true) l ->
  loads (dumps l) = Some (JArray (map JString l)).
Proof.
  intros Hwf. rewrite dumps_unfold. unfold loads.
  change (0x5B =? 0xFEFF) with false. cbv iota.
  set (text := 0x5B :: join SEPARATOR (map encode_string l) ++ [0x5D]).
  replace (2 * length text + 2)%nat with (S (S (2 * length text))) by lia.
  subst text. cbn [skip_ws]. change (is_ws 0x5B) with false. cbv iota.
  cbn [scan_once].
  change (0x5B =? QUOTE) with false. change (0x5B =? 0x7B) with false.
  change (0x5B =? 0x5B) with true. cbv iota.
  destruct l as [|s l]; [reflexivity |].
  assert (skip_ws (join SEPARATOR (map encode_string (s :: l)) ++ [0x5D])
          = QUOTE :: tl (join SEPARATOR (map encode_string (s :: l)) ++ [0x5D])) as E.
  { destruct l; reflexivity. }
  rewrite E. change (QUOTE =? 0x5D) with false. cbv iota.
  assert (QUOTE :: tl (join SEPARATOR (map encode_string (s :: l)) ++ [0x5D])
          = join SEPARATOR (map encode_string (s :: l)) ++ [0x5D]) as ->.
  { destruct l; reflexivity. }
  rewrite (scan_items_dumped (s :: l) Hwf); [reflexivity | congruence |].
  pose proof (join_length (s :: l)). cbn [length] in *. lia.
Qed.

Lemma load_list_dump_list (l : list str) :
  Forall (fun s => wf s = true) l ->
  Lead.load_list (Lead.dump_list l) = Lead.py_list l.
Proof.
  intros Hwf. unfold Lead.load_list, Lead.dump_list.
  rewrite (loads_dumps l Hwf). now rewrite dumps_unfold.
Qed.

(** C9.  A list of interests (well-formed texts; the empty list
    included) written through the setter of [intereses_servicios]
    is read back by the getter as the same list, in the same order.  The
    getter reads an absent column, an empty text and a text that is not
    JSON as the empty list. *)
Theorem C9_interests_roundtrip (lead : Lead.t) (l : list str) :
  Forall (fun s => wf s = true) l ->
  Lead.intereses_servicios (Lead.set_intereses_servicios lead l) = Lead.py_list l
  /\ Lead.load_list None = Lead.py_list []
  /\ Lead.load_list (Some []) = Lead.py_list []
  /\ (forall text, loads text = None -> Lead.load_list (Some text) = Lead.py_list []).
Proof.
  intros Hwf. repeat split.
  - unfold Lead.intereses_servicios, Lead.set_intereses_servicios.
    cbn [Lead.intereses_servicios_json]. now apply load_list_dump_list.
  - intros text Hbad. unfold Lead.load_list. rewrite Hbad. now destruct text.
Qed.
End Codec.

Section CodecExamples.
Import Samples.

Lemma C9_interests_roundtrip_witness :
  Forall (fun s => wf s = true) [s!"diseño"; s!"riego"; [0x1F600%N; 0x22%N; 0x0A%N]]
  /\ Lead.intereses_servicios
       (Lead.set_intereses_servicios
          (Lead.mk None t0 t0 s!"Jose" s!"jose@ejemplo.com" None None None s!"k" JNull
                   None None None)
          [s!"diseño"; s!"riego"; [0x1F600%N; 0x22%N; 0x0A%N]])
     = Lead.py_list [s!"diseño"; s!"riego"; [0x1F600%N; 0x22%N; 0x0A%N]].
Proof.
  assert (Forall (fun s => wf s = true)
                 [s!"diseño"; s!"riego"; [0x1F600%N; 0x22%N; 0x0A%N]]) as H
      by (repeat constructor).
  split; [exact H |].
  exact (proj1 (C9_interests_roundtrip _ _ H)).
Defined.

(** The text stored for the interests of the test suite, as
    [json.dumps] writes it. *)
Example dumps_interests :
  dumps [s!"diseño"; s!"riego"]
  = [0x5B; 0x22]%N ++ s!"dise\u00f1o" ++ [0x22]%N ++ s!", "
      ++ [0x22]%N ++ s!"riego" ++ [0x22; 0x5D]%N.
Proof. reflexivity. Qed.

(** What is not JSON, and what is not there, reads as the empty list;
    a text that is JSON of another shape is read as what it holds. *)
Example load_list_examples :
  Lead.load_list (Some s!"[1, 2") = JArray []
  /\ Lead.load_list (Some s!"not json") = JArray []
  /\ Lead.load_list (Some s!"") = JArray []
  /\ Lead.load_list None = JArray []
  /\ Lead.load_list (Some s!"{}") = JObject [].
Proof. repeat split. Qed.

(** A lone surrogate is read back as it is; a high surrogate followed
    by a low one, which the hypothesis on the texts excludes, is read
    back joined. *)
Example surrogate_pair_is_joined :
  loads (dumps [[0xD83D%N; 0x41%N; 0xDE00%N]])
  = Some (JArray [JString [0xD83D%N; 0x41%N; 0xDE00%N]])
  /\ loads (dumps [[0xD83D%N; 0xDE00%N]]) = Some (JArray [JString [0x1F600%N]]).
Proof. split; reflexivity. Qed.

End CodecExamples.

(** ** The digest *)

Section Digest.
Import Sha256.
Open Scope N_scope.







Lemma Forall_flat_map {A B} (P : B -> Prop) (f : A -> list B) (l : list A) :
  (forall x, Forall P (f x)) -> Forall P (flat_map f l).
Proof.
  intros Hf. induction l as [|x l IH]; [constructor |].
  cbn. apply Forall_app. auto.
Qed.



End Digest.

(** ** The dedupe key *)

Section DedupeKey.
Import LeadService Samples.

Lemma strftime_Ymd (dt : datetime) : strftime dt s!"%Y%m%d" = yyyymmdd dt.
Proof.
  unfold yyyymmdd. change (s!"%Y%m%d") with [0x25; 0x59; 0x25; 0x6D; 0x25; 0x64]%N.
  cbn [strftime]. destruct (date dt) as [[y m] d].
  change (strftime dt []) with (@nil N). cbn [N.eqb Pos.eqb andb].
  now rewrite app_nil_r.
Qed.

Lemma generate_dedupe_key_unfold (env : Env) (data : LeadCreate.t) :
  _generate_dedupe_key env data
  = Sha256.hexdigest
      (encode_utf8
         (lower (strip (LeadCreate.correo data)) ++ s!"|"
            ++ yyyymmdd (utcnow_key env) ++ s!"|"
            ++ strip (LeadCreate.nombre data))).
Proof. unfold _generate_dedupe_key. now rewrite strftime_Ymd. Qed.



(** The key of a sample request, as [hashlib] computes it for
    ["jose@ejemplo.com|20251104|Jose Guerrero"]. *)
Example dedupe_key_sample :
  _generate_dedupe_key (env_with settings0 [] (task s!"t")) jose_again
  = s!"47f251ba1e507c11d3cbdc9dad4aa5cbf58ea2b711e274609a4157b973bad053".
Proof. vm_compute. reflexivity. Qed.

(** Two clock readings of one UTC day give one date text. *)
Lemma yyyymmdd_same_day (a b : datetime) : date a = date b -> yyyymmdd a = yyyymmdd b.
Proof. unfold yyyymmdd. now intros ->. Qed.

Lemma dedupe_key_same (env1 env2 : Env) (d1 d2 : LeadCreate.t) :
  lower (strip (LeadCreate.correo d1)) = lower (strip (LeadCreate.correo d2)) ->
  strip (LeadCreate.nombre d1) = strip (LeadCreate.nombre d2) ->
  date (utcnow_key env1) = date (utcnow_key env2) ->
  _generate_dedupe_key env1 d1 = _generate_dedupe_key env2 d2.
Proof.
  intros Hc Hn Hd. rewrite !generate_dedupe_key_unfold.
  now rewrite Hc, Hn, (yyyymmdd_same_day _ _ Hd).
Qed.

End DedupeKey.

(** ** The store *)

Section Store.
Import LeadService.

Lemma str_eqb_eq (a b : str) : PyStr.eqb a b = true <-> a = b.
Proof. unfold PyStr.eqb. destruct (list_eq_dec N.eq_dec a b); split; congruence. Qed.

Lemma str_eqb_refl (a : str) : PyStr.eqb a a = true.
Proof. now apply str_eqb_eq. Qed.

Lemma key_taken_iff (rows : list Lead.t) (key : str) :
  Db.key_taken rows key = true <-> exists r, In r rows /\ Lead.dedupe_key r = key.
Proof.
  unfold Db.key_taken. rewrite existsb_exists.
  split; intros (r & Hin & Hk); exists r; split; auto; now apply str_eqb_eq.
Qed.


(** Every primary key in the table is below the next one. *)
Lemma next_id_above (rows : list Lead.t) (r : Lead.t) (i : Z) :
  In r rows -> Lead.id r = Some i -> i < Db.next_id rows.
Proof.
  unfold Db.next_id. induction rows as [|a rows IH]; intros Hin Hid; [contradiction |].
  cbn [fold_right]. destruct Hin as [-> | Hin].
  - rewrite Hid. lia.
  - specialize (IH Hin Hid). destruct (Lead.id a); lia.
Qed.

Lemma next_id_fresh (rows : list Lead.t) :
  forall r, In r rows -> Db.has_id (Some (Db.next_id rows)) r = false.
Proof.
  intros r Hin. unfold Db.has_id. destruct (Lead.id r) as [i|] eqn:E; [| reflexivity].
  pose proof (next_id_above rows r i Hin E). lia.
Qed.

Lemma find_none_all {A} (f : A -> bool) (l : list A) :
  (forall x, In x l -> f x = false) -> find f l = None.
Proof.
  induction l as [|a l IH]; intros H; [reflexivity |].
  cbn. rewrite (H a (or_introl eq_refl)). apply IH. intros x Hx. apply H. now right.
Qed.

Lemma find_app_none {A} (f : A -> bool) (l l' : list A) :
  find f l = None -> find f (l ++ l') = find f l'.
Proof.
  induction l as [|a l IH]; [reflexivity |]. cbn.
  destruct (f a); [discriminate | exact IH].
Qed.

Lemma map_nothing {A} (f : A -> bool) (x : A) (l : list A) :
  (forall y, In y l -> f y = false) -> map (fun y => if f y then x else y) l = l.
Proof.
  induction l as [|a l IH]; intros H; [reflexivity |].
  cbn. rewrite (H a (or_introl eq_refl)). f_equal. apply IH. intros y Hy. apply H. now right.
Qed.

(** The insert of a lead whose key is free: the row is appended under a
    fresh primary key, and [refresh] finds it. *)
Lemma insert_new (env : Env) (data : LeadCreate.t) (w : World) :
  pending (session w) = [] ->
  Db.key_taken (leads w) (_generate_dedupe_key env data) = false ->
  create_or_get_lead env data w
  = bind (_maybe_create_clickup_items env (inserted env data (leads w)) data)
         (fun lead => ret (lead, true)) (after_insert env data w).
Proof.
  intros Hp Hk. unfold create_or_get_lead.
  unfold bind at 1. unfold Db.add at 1. cbn [fst snd].
  unfold bind at 1. unfold try_except at 1. unfold bind at 1.
  unfold Db.commit at 1. unfold Db.with_store. cbn [leads session pending identity io log].
  rewrite Hp. cbn [app Db.flush].
  change (Lead.dedupe_key (new_lead env data)) with (_generate_dedupe_key env data).
  rewrite Hk. cbn [app last Db.ids_of flat_map].
  change (Lead.set_id (new_lead env data) (Db.next_id (leads w)))
    with (inserted env data (leads w)).
  change (Lead.id (inserted env data (leads w))) with (Some (Db.next_id (leads w))).
  cbv iota. cbn [app].
  unfold bind at 1. unfold Db.refresh at 1. cbn [leads].
  rewrite find_app_none by (apply find_none_all, next_id_fresh).
  cbn [find]. unfold Db.has_id at 1.
  change (Lead.id (inserted env data (leads w))) with (Some (Db.next_id (leads w))).
  cbv beta iota. rewrite Z.eqb_refl. cbv iota.
  run_monad. unfold after_insert. reflexivity.
Qed.

(** The insert of a lead whose key is taken: the rollback, then the two
    queries on the table as it is then. *)
Lemma insert_refused (env : Env) (data : LeadCreate.t) (w : World) :
  pending (session w) = [] ->
  Db.key_taken (leads w) (_generate_dedupe_key env data) = true ->
  create_or_get_lead env data w
  = let w1 := after_rollback env w in
    match find (fun r => PyStr.eqb (Lead.dedupe_key r) (_generate_dedupe_key env data))
               (leads w1) with
    | Some row =>
        (Ok (row, false), logged w1 (lead_duplicate_returning_existing (Lead.id row)))
    | None =>
        match Db.latest (filter (fun r => PyStr.eqb (Lead.correo r)
                                                   (lower (LeadCreate.correo data)))
                                (leads w1)) with
        | Some row =>
            (Ok (row, false), logged w1 (lead_duplicate_fallback_by_email (Lead.id row)))
        | None => (Raise IntegrityError, w1)
        end
    end.
Proof.
  intros Hp Hk. unfold create_or_get_lead.
  unfold bind at 1. unfold Db.add at 1. cbn [fst snd].
  unfold bind at 1. unfold try_except at 1. unfold bind at 1.
  unfold Db.commit at 1. unfold Db.with_store. cbn [leads session pending identity io log].
  rewrite Hp. cbn [app Db.flush].
  change (Lead.dedupe_key (new_lead env data)) with (_generate_dedupe_key env data).
  rewrite Hk. cbv beta iota.
  unfold Db.rollback, Db.select_by_dedupe_key, Db.select_latest_by_correo, Db.with_store.
  run_monad. cbn [identity pending].
  unfold after_rollback, logged. cbn [leads session io log].
  destruct (find _ (interfere env (leads w))) as [row|]; [reflexivity |].
  destruct (Db.latest _) as [row|]; reflexivity.
Qed.

Lemma latest_spec (rows : list Lead.t) :
  match Db.latest rows with
  | Some r => In r rows /\ forall x, In x rows -> Lead.created_at x <= Lead.created_at r
  | None => rows = []
  end.
Proof.
  induction rows as [|a rows IH]; [reflexivity |].
  cbn [Db.latest]. destruct (Db.latest rows) as [r|].
  - destruct IH as [Hin Hmax].
    destruct (Lead.created_at a <? Lead.created_at r) eqn:E.
    + split; [now right |]. intros x [<- | Hx]; [lia | now apply Hmax].
    + split; [now left |]. intros x [<- | Hx]; [lia |].
      specialize (Hmax x Hx). lia.
  - subst rows. split; [now left |]. intros x [<- | []]. lia.
Qed.
End Store.

(** ** Conflicts *)

Section Conflicts.
Import LeadService Samples.

(** C3.  When the insert is refused for the uniqueness of [dedupe_key],
    the session is rolled back (nothing stays pending, and the table is
    as the other transactions left it).  Then: when the table holds a row
    of that key, the call returns such a row with [False]; otherwise,
    when it holds rows of the lower-cased address, the call returns one
    of them of the latest [created_at], with [False]; otherwise the
    [IntegrityError] reaches the caller. *)
Theorem C3_conflict_resolution (env : Env) (data : LeadCreate.t) (w : World) :
  pending (session w) = [] ->
  Db.key_taken (leads w) (_generate_dedupe_key env data) = true ->
  let key := _generate_dedupe_key env data in
  let correo := lower (LeadCreate.correo data) in
  let run := create_or_get_lead env data w in
  let rows := interfere env (leads w) in
  leads (snd run) = rows
  /\ pending (session (snd run)) = []
  /\ ((exists r, In r rows /\ Lead.dedupe_key r = key) ->
      exists row, fst run = Ok (row, false) /\ In row rows /\ Lead.dedupe_key row = key)
  /\ ((forall r, In r rows -> Lead.dedupe_key r <> key) ->
      (exists r, In r rows /\ Lead.correo r = correo) ->
      exists row, fst run = Ok (row, false) /\ In row rows /\ Lead.correo row = correo
                  /\ forall r, In r rows -> Lead.correo r = correo ->
                                Lead.created_at r <= Lead.created_at row)
  /\ ((forall r, In r rows -> Lead.dedupe_key r <> key) ->
      (forall r, In r rows -> Lead.correo r <> correo) ->
      fst run = Raise IntegrityError).
Proof.
  intros Hp Hk key correo run rows. subst run.
  rewrite (insert_refused env data w Hp Hk). cbv zeta.
  unfold after_rollback. cbn [leads]. fold key correo rows.
  destruct (find (fun r => PyStr.eqb (Lead.dedupe_key r) key) rows) as [row|] eqn:Ef.
  - apply find_some in Ef as [Hin Hkey]. apply str_eqb_eq in Hkey.
    cbn [fst snd leads session pending logged]. repeat split.
    + intros _. now exists row.
    + intros Hno. exfalso. now apply (Hno row).
    + intros Hno. exfalso. now apply (Hno row).
  - assert (forall r, In r rows -> Lead.dedupe_key r <> key) as Hnone.
    { intros r Hin Heq. apply (find_none _ _ Ef) in Hin.
      apply str_eqb_eq in Heq. congruence. }
    pose proof (latest_spec (filter (fun r => PyStr.eqb (Lead.correo r) correo) rows)) as Hl.
    destruct (Db.latest _) as [row|].
    + destruct Hl as [Hin Hmax]. apply filter_In in Hin as [Hin Hc].
      apply str_eqb_eq in Hc.
      cbn [fst snd leads session pending logged]. repeat split.
      * intros (r & Hr & Hrk). exfalso. now apply (Hnone r).
      * intros _ _. exists row. repeat split; auto.
        intros r Hr Hrc. apply Hmax. apply filter_In. split; [exact Hr |].
        now apply str_eqb_eq.
      * intros _ Hno. exfalso. now apply (Hno row).
    + cbn [fst snd leads session pending]. repeat split.
      * intros (r & Hr & Hrk). exfalso. now apply (Hnone r).
      * intros _ (r & Hr & Hrc). exfalso.
        assert (In r (filter (fun r => PyStr.eqb (Lead.correo r) correo) rows)) as Hin
            by (apply filter_In; split; [exact Hr | now apply str_eqb_eq]).
        rewrite Hl in Hin. contradiction.
Qed.

Lemma C3_conflict_resolution_witness :
  pending (session w_first) = []
  /\ Db.key_taken (leads w_first) (_generate_dedupe_key env_later jose_again) = true
  /\ leads (snd (create_or_get_lead env_later jose_again w_first)) = leads w_first
  /\ exists row,
      fst (create_or_get_lead env_later jose_again w_first) = Ok (row, false)
      /\ In row (leads w_first)
      /\ Lead.dedupe_key row = _generate_dedupe_key env_later jose_again.
Proof.
  assert (pending (session w_first) = []) as Hp by (vm_compute; reflexivity).
  assert (Db.key_taken (leads w_first) (_generate_dedupe_key env_later jose_again) = true)
    as Hk by (vm_compute; reflexivity).
  destruct (C3_conflict_resolution env_later jose_again w_first Hp Hk)
    as (H1 & _ & H3 & _).
  split; [exact Hp | split; [exact Hk | split; [exact H1 |]]].
  apply H3. apply key_taken_iff. exact Hk.
Defined.

(** A call that returns [False] found the key taken. *)
Lemma duplicate_key_taken (env : Env) (data : LeadCreate.t) (w : World)
      (row : Lead.t) (w' : World) :
  pending (session w) = [] ->
  create_or_get_lead env data w = (Ok (row, false), w') ->
  Db.key_taken (leads w) (_generate_dedupe_key env data) = true.
Proof.
  intros Hp Hrun.
  destruct (Db.key_taken (leads w) (_generate_dedupe_key env data)) eqn:Hk; [reflexivity |].
  rewrite (insert_new env data w Hp Hk) in Hrun. unfold bind, ret in Hrun.
  destruct (_maybe_create_clickup_items _ _ _ _) as [[l | e] w1]; discriminate.
Qed.

(** C10.  A call that resolves a duplicate (it returns [False]) inserts
    no row and modifies none: the table is as the other transactions left
    it, nothing is pending in the session, no request went out.  The
    record returned is a row of that table, as it is stored there; the
    telephone, the interests and the message of the request play no part:
    with any others, the call returns the same record and leaves the same
    world. *)
Theorem C10_duplicate_changes_nothing (env : Env) (data : LeadCreate.t) (w : World)
        (row : Lead.t) (w' : World) :
  pending (session w) = [] ->
  create_or_get_lead env data w = (Ok (row, false), w') ->
  leads w' = interfere env (leads w)
  /\ In row (leads w')
  /\ pending (session w') = []
  /\ io w' = io w
  /\ forall telefono intereses mensaje,
      create_or_get_lead env
        (LeadCreate.mk (LeadCreate.nombre data) (LeadCreate.correo data)
                       telefono intereses mensaje) w
      = (Ok (row, false), w').
Proof.
  intros Hp Hrun.
  pose proof (duplicate_key_taken env data w row w' Hp Hrun) as Hk.
  assert (forall telefono intereses mensaje,
             create_or_get_lead env
               (LeadCreate.mk (LeadCreate.nombre data) (LeadCreate.correo data)
                              telefono intereses mensaje) w
             = create_or_get_lead env data w) as Hsame.
  { intros telefono intereses mensaje.
    rewrite (insert_refused env data w Hp Hk).
    exact (insert_refused env (LeadCreate.mk (LeadCreate.nombre data) (LeadCreate.correo data)
                                             telefono intereses mensaje) w Hp Hk). }
  rewrite (insert_refused env data w Hp Hk) in Hrun. cbv zeta in Hrun.
  unfold after_rollback in Hrun. cbn [leads] in Hrun.
  destruct (find _ (interfere env (leads w))) as [r|] eqn:Ef.
  - injection Hrun as <- <-. destruct (find_some _ _ Ef) as [Hin _].
    repeat split; auto. intros. rewrite Hsame, (insert_refused env data w Hp Hk).
    cbv zeta. unfold after_rollback. cbn [leads]. now rewrite Ef.
  - pose proof (latest_spec (filter (fun r => PyStr.eqb (Lead.correo r)
                                                       (lower (LeadCreate.correo data)))
                                    (interfere env (leads w)))) as Hl.
    destruct (Db.latest _) as [r|] eqn:El; [| discriminate].
    injection Hrun as <- <-. destruct Hl as [Hin _]. apply filter_In in Hin as [Hin _].
    repeat split; auto. intros. rewrite Hsame, (insert_refused env data w Hp Hk).
    cbv zeta. unfold after_rollback. cbn [leads]. now rewrite Ef, El.
Qed.

Lemma C10_duplicate_changes_nothing_witness :
  pending (session w_first) = []
  /\ create_or_get_lead env_later jose_again w_first
     = (Ok (row_first, false),
        logged w_first (lead_duplicate_returning_existing (Lead.id row_first)))
  /\ leads (logged w_first (lead_duplicate_returning_existing (Lead.id row_first)))
     = leads w_first
  /\ In row_first (leads w_first)
  /\ Lead.telefono row_first = LeadCreate.telefono jose
  /\ Lead.mensaje row_first = LeadCreate.mensaje jose.
Proof.
  assert (pending (session w_first) = []) as Hp by (vm_compute; reflexivity).
  assert (create_or_get_lead env_later jose_again w_first
          = (Ok (row_first, false),
             logged w_first (lead_duplicate_returning_existing (Lead.id row_first)))) as Hrun
      by (vm_compute; reflexivity).
  destruct (C10_duplicate_changes_nothing env_later jose_again w_first _ _ Hp Hrun)
    as (H1 & H2 & _).
  split; [exact Hp | split; [exact Hrun | split; [exact H1 | split; [exact H2 |]]]].
  split; vm_compute; reflexivity.
Defined.
End Conflicts.

(** ** The synchronisation *)

Section Sync.
Import ClickUpClient LeadService.
Variable env : Env.

Lemma successes_app (tr1 tr2 : list IOEvent) :
  successes (tr1 ++ tr2) = successes tr1 ++ successes tr2.
Proof. unfold successes. now rewrite flat_map_app. Qed.

Lemma successes_retry r o (b : bool) q tr :
  is_2xx o = false ->
  successes (Posted r o :: (if b then [Slept q] else []) ++ tr) = successes tr.
Proof.
  intros Ho. destruct b; cbn;
    (destruct o as [e | status [data |]]; [reflexivity | | reflexivity]);
    cbn in Ho; now rewrite Ho.
Qed.

(** A call that returns has created one task, by its last POST; a call
    that raises has created none. *)
Lemma run_successes self req remaining attempt last_exc tr res :
  Run self req remaining attempt last_exc tr res ->
  successes tr = match res with
                 | Ok data => [(json req, data)]
                 | Raise _ => []
                 end.
Proof.
  induction 1.
  - reflexivity.
  - cbn. now rewrite H.
  - reflexivity.
  - cbn. destruct body; [now rewrite H | reflexivity].
  - rewrite successes_retry; [exact IHRun | exact H].
  - rewrite successes_retry; [exact IHRun | reflexivity].
Qed.

Lemma create_task_call self name description due parent w :
  is_configured self = true ->
  exists tr lg res,
    create_task env self name description due parent w = (res, extend w tr lg)
    /\ successes tr = match res with
                      | Ok data =>
                          [(mkPayload name (if_nonempty description) due
                                      (if truthy parent then Some parent else None)
                                      (if_nonempty (default_status self)), data)]
                      | Raise _ => []
                      end.
Proof.
  intros Hc.
  destruct (create_task_run env self name description due parent w Hc)
    as (req & tr & lg & res & Hrun & Hshape & Hjson).
  exists tr, lg, res. split; [exact Hrun |].
  rewrite (run_successes _ _ _ _ _ _ _ Hshape). now rewrite Hjson.
Qed.

(** The loop over the subtasks touches the network trace and the log
    only; when it returns, it has created one subtask for each title, in
    order, and collected their identifiers in that order. *)
Lemma create_subtasks_run self parent_id due :
  is_configured self = true ->
  forall titles idx sub_ids w,
  exists tr lg res,
    create_subtasks env self parent_id due titles idx sub_ids w = (res, extend w tr lg)
    /\ forall ids, res = Ok ids ->
       exists bodies,
         length bodies = length titles
         /\ successes tr
            = combine (subtask_payloads self parent_id due idx titles) (map JObject bodies)
         /\ ids = sub_ids ++ map (subtask_id env) bodies.
Proof.
  intros Hc. induction titles as [|title rest IH]; intros idx sub_ids w.
  - exists [], [], (Ok sub_ids). split; [cbn; unfold ret; now rewrite extend_nil |].
    intros ids [= <-]. exists []. repeat split. now rewrite app_nil_r.
  - cbn [create_subtasks].
    assert ((match idx with
             | O => create_subtask env self parent_id title None due
             | S _ => create_subtask env self parent_id title None None
             end)
            = create_task env self title None
                          (match idx with O => due | S _ => None end) parent_id) as ->
        by (now destruct idx).
    destruct (create_task_call self title None
                               (match idx with O => due | S _ => None end) parent_id w Hc)
      as (tr1 & lg1 & res1 & Hrun1 & Hs1).
    unfold bind at 1. rewrite Hrun1.
    destruct res1 as [sub | e].
    + destruct sub as [ | | | | | | members];
        try (exists tr1, lg1, (Raise AttributeError); split;
             [reflexivity | intros ids; discriminate]).
      unfold dict_get. unfold bind at 1. unfold ret at 1.
      unfold bind at 1. unfold log_event at 1. cbn [leads session io log extend].
      destruct (IH (S idx)
                   (sub_ids ++ [if truthy (lookup members s!"id")
                                then py_str env (lookup members s!"id") else []])
                   (extend w tr1 (lg1 ++ [tm_subtask_created parent_id
                                            (lookup members s!"id") title])))
        as (tr2 & lg2 & res & Hrun2 & Hok).
      exists (tr1 ++ tr2), ((lg1 ++ [tm_subtask_created parent_id
                                       (lookup members s!"id") title]) ++ lg2), res.
      split.
      * rewrite <- extend_extend, <- Hrun2. unfold extend. cbn [leads session io log].
        now rewrite <- app_assoc.
      * intros ids Hids. destruct (Hok ids Hids) as (bodies & Hlen & Hsucc & Hcollect).
        exists (members :: bodies). repeat split.
        -- cbn. now rewrite Hlen.
        -- rewrite successes_app, Hs1, Hsucc. reflexivity.
        -- rewrite Hcollect, <- app_assoc. reflexivity.
    + exists tr1, lg1, (Raise e). split; [reflexivity | intros ids; discriminate].
Qed.

(** The row of the lead after the UPDATE, and the table when no row is
    the lead's. *)
Lemma update_row_find (lead new : Lead.t) (rows : list Lead.t) :
  Lead.id new = Lead.id lead ->
  match find (Db.has_id (Lead.id lead)) (update_row lead new rows) with
  | Some row => row = new
  | None => update_row lead new rows = rows
  end.
Proof.
  intros Hid. unfold update_row. induction rows as [|r rows IH]; [reflexivity |].
  cbn [map find]. destruct (Db.has_id (Lead.id lead) r) eqn:E.
  - assert (Db.has_id (Lead.id lead) new = true) as ->; [| reflexivity].
    unfold Db.has_id in *. rewrite Hid.
    destruct (Lead.id lead); [| discriminate]. apply Z.eqb_refl.
  - rewrite E. destruct (find _ _); [exact IH | now rewrite IH].
Qed.


(** The ways the [try] block can end. *)
Lemma sync_body_cases self lead name description w :
  is_configured self = true ->
  exists tr lg rows res,
    sync_body env self lead name description w
    = (res, mkWorld rows (session w) (io w ++ tr) (log w ++ lg))
    /\ ((exists e, res = Raise e /\ rows = leads w)
        \/ (res = Ok lead /\ rows = leads w /\ exists lg0, lg = lg0 ++ [tm_skipped])
        \/ (exists parent bodies lg0,
               successes tr = created_tasks env self name description parent bodies
               /\ length bodies = length (_subtasks_from_env env)
               /\ truthy (lookup parent s!"skipped") = false
               /\ ((Db.attached (session w) lead = false
                    /\ res = Ok lead /\ rows = leads w
                    /\ lg = lg0 ++ [tm_persist_ids_no_session (Lead.id lead)])
                   \/ (Db.attached (session w) lead = true
                       /\ res = Ok (written_back env lead (lookup parent s!"id")
                                                 (map (subtask_id env) bodies))
                       /\ rows = update_row lead
                                            (written_back env lead (lookup parent s!"id")
                                                          (map (subtask_id env) bodies))
                                            (leads w)
                       /\ lg = lg0 ++ [tm_persisted_ids
                                         (Lead.id lead) (lookup parent s!"id")
                                         (length (map (subtask_id env) bodies))])))).
Proof.
  intros Hc. unfold sync_body.
  destruct (create_task_call self name (Some description) None JNull w Hc)
    as (tr0 & lg0 & res0 & Hrun0 & Hs0).
  unfold bind at 1. rewrite Hrun0.
  destruct res0 as [parent | e];
    [| exists tr0, lg0, (leads w), (Raise e); split; [reflexivity | left; eauto]].
  destruct parent as [ | | | | | | parent];
    try (exists tr0, lg0, (leads w), (Raise AttributeError);
         split; [reflexivity | left; eauto]).
  unfold dict_get at 1. unfold bind at 1. unfold ret at 1.
  destruct (truthy (lookup parent s!"skipped")) eqn:Hskip.
  { exists tr0, (lg0 ++ [tm_skipped]), (leads w), (Ok lead). split.
    - run_monad. world_eq.
    - right; left. eauto. }
  unfold dict_get at 1. unfold bind at 1. unfold ret at 1.
  unfold bind at 1. unfold log_event at 1. cbn [leads session io log extend].
  set (pid := lookup parent s!"id").
  set (titles := _subtasks_from_env env).
  change (match titles with
          | [] => None
          | _ :: _ => Some (_epoch_ms (now_due env + timedelta_hours 24))
          end) with (due_of env titles).
  unfold bind at 1.
  match goal with
  | |- context [create_subtasks env self pid ?d titles 0%nat [] ?W] =>
      destruct (create_subtasks_run self pid d Hc titles 0%nat [] W)
        as (tr2 & lg2 & res2 & Hrun2 & Hok)
  end.
  rewrite Hrun2.
  destruct res2 as [ids | e].
  2:{ exists (tr0 ++ tr2), ((lg0 ++ [tm_task_created pid]) ++ lg2), (leads w), (Raise e).
      split; [world_eq | left; eauto]. }
  destruct (Hok ids eq_refl) as (bodies & Hlen & Hsucc & Hids). cbn [app] in Hids.
  assert (successes (tr0 ++ tr2) = created_tasks env self name description parent bodies)
    as Hcreated.
  { rewrite successes_app, Hs0, Hsucc. reflexivity. }
  unfold bind at 1. unfold Db.object_session at 1. cbn [extend session].
  destruct (Db.attached (session w) lead) eqn:Hatt; cbn [negb].
  - (* the write-back *)
    unfold bind at 1. unfold Db.commit_update at 1. unfold Db.with_store.
    cbn [leads session io log extend].
    change (Lead.id (Lead.set_external_subtask_ids
                       (Lead.set_external_task_id lead pid) ids))
      with (Lead.id lead).
    change (Lead.set_updated_at
              (Lead.set_external_subtask_ids (Lead.set_external_task_id lead pid) ids)
              (utcnow_onupdate env))
      with (written_back env lead pid ids).
    fold (update_row lead (written_back env lead pid ids) (leads w)).
    unfold bind at 1. unfold Db.refresh at 1. cbn [leads].
    change (Lead.id (Lead.set_external_subtask_ids
                       (Lead.set_external_task_id lead pid) ids))
      with (Lead.id lead).
    pose proof (update_row_find lead (written_back env lead pid ids) (leads w) eq_refl)
      as Hfind.
    destruct (find _ _) as [row |].
    + subst row.
      exists (tr0 ++ tr2),
        (((lg0 ++ [tm_task_created pid]) ++ lg2)
           ++ [tm_persisted_ids (Lead.id lead) pid (length ids)]),
        (update_row lead (written_back env lead pid ids) (leads w)),
        (Ok (written_back env lead pid ids)).
      split; [run_monad; world_eq |].
      right; right. exists parent, bodies, ((lg0 ++ [tm_task_created pid]) ++ lg2).
      subst ids. repeat split; auto.
    + exists (tr0 ++ tr2), ((lg0 ++ [tm_task_created pid]) ++ lg2),
        (leads w), (Raise InvalidRequestError).
      split; [rewrite Hfind; world_eq | left; eauto].
  - exists (tr0 ++ tr2),
      (((lg0 ++ [tm_task_created pid]) ++ lg2)
         ++ [tm_persist_ids_no_session (Lead.id lead)]),
      (leads w), (Ok lead).
    split; [run_monad; world_eq |].
    right; right. exists parent, bodies, ((lg0 ++ [tm_task_created pid]) ++ lg2).
    repeat split; auto.
Qed.


Lemma all_strings_map (l : list str) : all_strings (map JString l) = Some l.
Proof. induction l as [|s l IH]; [reflexivity |]. cbn. now rewrite IH. Qed.

(** The interests of a lead written by the setter are read as the list
    that was written, so that the text of the description is built
    without an error. *)
Lemma sync_interests (lead : Lead.t) (l : list str) :
  interests_written lead l ->
  (if truthy (Lead.intereses_servicios lead)
   then join_value s!", " (Lead.intereses_servicios lead)
   else ret s!"-")
  = ret (interests_text l).
Proof.
  intros [Hwf Hjson]. unfold Lead.intereses_servicios. rewrite Hjson.
  rewrite (load_list_dump_list l Hwf). unfold Lead.py_list.
  destruct l as [|s l]; [reflexivity |].
  cbn [map truthy]. unfold join_value.
  change (JString s :: map JString l) with (map JString (s :: l)).
  now rewrite all_strings_map.
Qed.

(** The ways a synchronisation can end: it returns in every case. *)
Lemma sync_cases (lead : Lead.t) (data : LeadCreate.t) (w : World) (l : list str) :
  interests_written lead l ->
  let self := from_settings (settings env) in
  let name := task_name lead in
  let description := descripcion lead (interests_text l) in
  exists tr lg rows lead',
    _maybe_create_clickup_items env lead data w
    = (Ok lead', mkWorld rows (session w) (io w ++ tr) (log w ++ lg))
    /\ ((lead' = lead /\ rows = leads w
         /\ exists lg0 e, lg = lg0 ++ [e] /\ (e = tm_skipped \/ exists x, e = error_event x))
        \/ (exists parent bodies lg0,
               successes tr = created_tasks env self name description parent bodies
               /\ length bodies = length (_subtasks_from_env env)
               /\ truthy (lookup parent s!"skipped") = false
               /\ ((Db.attached (session w) lead = false
                    /\ lead' = lead /\ rows = leads w
                    /\ lg = lg0 ++ [tm_persist_ids_no_session (Lead.id lead)])
                   \/ (Db.attached (session w) lead = true
                       /\ lead' = written_back env lead (lookup parent s!"id")
                                                (map (subtask_id env) bodies)
                       /\ rows = update_row lead lead' (leads w)
                       /\ lg = lg0 ++ [tm_persisted_ids
                                         (Lead.id lead) (lookup parent s!"id")
                                         (length (map (subtask_id env) bodies))])))).
Proof.
  intros Hw self name description. unfold _maybe_create_clickup_items.
  fold self. destruct (is_configured self) eqn:Hc; cbn [negb].
  2:{ exists [], [tm_skipped], (leads w), lead. split; [run_monad; world_eq |].
      left. repeat split. exists [], tm_skipped. auto. }
  rewrite (sync_interests lead l Hw). unfold bind at 1. unfold ret at 1.
  fold name description. unfold try_except.
  destruct (sync_body_cases self lead name description w Hc)
    as (tr & lg & rows & res & Hrun & Hcases).
  rewrite Hrun.
  destruct Hcases as [(e & -> & ->) | [(-> & -> & lg0 & ->) | Hdone]].
  - exists tr, (lg ++ [error_event e]), (leads w), lead. split.
    + destruct e; run_monad; world_eq.
    + left. repeat split. exists lg, (error_event e). eauto.
  - exists tr, (lg0 ++ [tm_skipped]), (leads w), lead. split; [reflexivity |].
    left. repeat split. exists lg0, tm_skipped. auto.
  - destruct Hdone as (parent & bodies & lg0 & Hs & Hlen & Hskip & Hend).
    destruct Hend as [(Hatt & -> & -> & ->) | (Hatt & -> & -> & ->)].
    + exists tr, (lg0 ++ [tm_persist_ids_no_session (Lead.id lead)]), (leads w), lead.
      split; [reflexivity |]. right. exists parent, bodies, lg0.
      repeat split; auto.
    + eexists tr, _, _, _. split; [reflexivity |]. right. exists parent, bodies, lg0.
      repeat split; auto.
Qed.

(** C4.  The synchronisation of a lead whose interests were written by
    the service returns, whatever the client and the API do: it never
    raises.  When the [try] block fails (the [ClickUpError] of the client
    after its retries, an answer that cannot be read or is not an object,
    or anything else that is raised there), the failure is recorded as
    the last event of the log and the lead is as it was. *)
Theorem C4_sync_never_raises (lead : Lead.t) (data : LeadCreate.t) (w : World)
        (l : list str) :
  interests_written lead l ->
  let self := from_settings (settings env) in
  exists lead' w',
    _maybe_create_clickup_items env lead data w = (Ok lead', w')
    /\ forall e w1,
        is_configured self = true ->
        sync_body env self lead (task_name lead) (descripcion lead (interests_text l)) w
        = (Raise e, w1) ->
        lead' = lead /\ w' = logged w1 (error_event e).
Proof.
  intros Hw self. unfold _maybe_create_clickup_items. fold self.
  destruct (is_configured self) eqn:Hc; cbn [negb].
  2:{ eexists _, _. split; [run_monad; reflexivity | discriminate]. }
  rewrite (sync_interests lead l Hw). unfold bind at 1. unfold ret at 1.
  unfold try_except.
  destruct (sync_body env self lead (task_name lead)
                      (descripcion lead (interests_text l)) w) as [[lead1 | e] w1] eqn:E.
  - eexists _, _. split; [reflexivity | intros; discriminate].
  - exists lead, (logged w1 (error_event e)). split.
    + destruct e; reflexivity.
    + intros e' w1' _ [= <- <-]. auto.
Qed.

End Sync.

(** ** The floats of the due date *)

Section Doubles.
Import LeadService.
Open Scope Z_scope.





End Doubles.

(** ** The answers that a run hears *)

Section Answers.
Import ClickUpClient LeadService.
Open Scope N_scope.
Variable env : Env.




















End Answers.

(** ** The write-back *)

Section WriteBack.
Import ClickUpClient LeadService Samples.











(** The first subtask of the sample run is due a day after the clock
    reading, in epoch milliseconds; the identifiers are written in order
    and read back as a list. *)
Example sample_write_back :
  map (fun p => p_due_date (fst p)) (successes (io w_first))
  = [None; Some 1762336800900; None]
  /\ Lead.external_task_id row_first = JString s!"86c1"
  /\ Lead.external_subtask_ids row_first = Lead.py_list [s!"86c1"; s!"86c1"]
  /\ leads w_first = [row_first].
Proof. vm_compute. repeat split. Qed.

(** An answer without identifier is collected as the empty text, an
    identifier as its text. *)
Example subtask_id_examples (env : Env) :
  subtask_id env [] = []
  /\ subtask_id env [(s!"id", JNull)] = []
  /\ subtask_id env [(s!"name", JString s!"Llamar"); (s!"id", JString s!"86c9")] = s!"86c9"
  /\ subtask_id env [(s!"id", JInt 4711)] = s!"4711".
Proof. repeat split. Qed.

End WriteBack.

(** ** Idempotence *)

Section Idempotence.
Import ClickUpClient LeadService Samples.

(** The UPDATE of the row just inserted touches no older row. *)
Lemma update_inserted (env : Env) (data : LeadCreate.t) (rows : list Lead.t)
      (new : Lead.t) :
  update_row (inserted env data rows) new (rows ++ [inserted env data rows])
  = rows ++ [new].
Proof.
  unfold update_row. rewrite map_app.
  change (Lead.id (inserted env data rows)) with (Some (Db.next_id rows)).
  rewrite (map_nothing _ new rows (next_id_fresh rows)).
  cbn [map].
  assert (Db.has_id (Some (Db.next_id rows)) (inserted env data rows) = true) as ->
      by (unfold Db.has_id;
          change (Lead.id (inserted env data rows)) with (Some (Db.next_id rows));
          apply Z.eqb_refl).
  reflexivity.
Qed.




(** The scenario of the test suite: the same request twice. *)
Example same_request_twice :
  let first := create_or_get_lead env_first jose empty_world in
  let second := create_or_get_lead env_later jose (snd first) in
  (exists r, fst first = Ok (r, true) /\ fst second = Ok (r, false))
  /\ length (leads (snd second)) = 1%nat.
Proof.
  cbv zeta. split; [| vm_compute; reflexivity].
  exists row_first. split; vm_compute; reflexivity.
Qed.

End Idempotence.

Section SyncExamples.
Import ClickUpClient LeadService Samples.

Lemma C4_sync_never_raises_witness :
  interests_written (inserted env_down jose []) (LeadCreate.intereses_servicios jose)
  /\ exists lead' w',
      _maybe_create_clickup_items env_down (inserted env_down jose []) jose
                                  (after_insert env_down jose empty_world)
      = (Ok lead', w')
      /\ lead' = inserted env_down jose []
      /\ ended_with w' (tm_error s!"ClickUp POST failed after 3 attempts").
Proof.
  assert (interests_written (inserted env_down jose [])
                            (LeadCreate.intereses_servicios jose)) as Hw
      by (split; [repeat constructor | reflexivity]).
  split; [exact Hw |].
  destruct (C4_sync_never_raises env_down (inserted env_down jose []) jose
                                 (after_insert env_down jose empty_world) _ Hw)
    as (lead' & w' & Hrun & Hfail).
  exists lead', w'. split; [exact Hrun |].
  destruct (Hfail (ClickUpError s!"ClickUp POST failed after 3 attempts")
                  (snd (sync_body env_down (from_settings (settings env_down))
                                  (inserted env_down jose [])
                                  (task_name (inserted env_down jose []))
                                  (descripcion (inserted env_down jose [])
                                     (interests_text (LeadCreate.intereses_servicios jose)))
                                  (after_insert env_down jose empty_world))))
    as [Hlead Hworld]; [reflexivity | vm_compute; reflexivity |].
  split; [exact Hlead |]. rewrite Hworld. eexists. reflexivity.
Defined.

(** With the API down, the lead is stored all the same, and the caller
    sees no error. *)
Example api_down :
  let run := create_or_get_lead env_down jose empty_world in
  fst run = Ok (inserted env_down jose [], true)
  /\ leads (snd run) = [inserted env_down jose []]
  /\ length (posts_of (io (snd run))) = 3%nat.
Proof. vm_compute. repeat split. Qed.

(** An answer that is not an object is swallowed as an unexpected
    error. *)
Example unexpected_shape :
  let env := env_with settings0 [] (Response 200 (Some (JArray []))) in
  let run := create_or_get_lead env jose empty_world in
  fst run = Ok (inserted env jose [], true)
  /\ ended_with (snd run) (tm_unexpected_error AttributeError).
Proof.
  cbv zeta. split; [vm_compute; reflexivity |].
  match goal with
  | |- ended_with ?w _ => exists (removelast (log w))
  end.
  vm_compute. reflexivity.
Qed.

End SyncExamples.

(** ** Test vectors *)

Section TestVectors.

Example sha256_abc :
  Sha256.hexdigest (encode_utf8 s!"abc")
  = s!"ba7816bf8f01cfea414140de5dae2223b00361a396177a9cb410ff61f20015ad".
Proof. vm_compute. reflexivity. Qed.

Example sha256_empty :
  Sha256.hexdigest []
  = s!"e3b0c44298fc1c149afbf4c8996fb92427ae41e4649b934ca495991b7852b855".
Proof. vm_compute. reflexivity. Qed.

Example sha256_two_blocks :
  Sha256.hexdigest (encode_utf8 s!"abcdbcdecdefdefgefghfghighijhijkijkljklmklmnlmnomnopnopq")
  = s!"248d6a61d20638b8e5c026930c3e6039a33ce45964ff2167f6ecedd419db06c1".
Proof. vm_compute. reflexivity. Qed.

Example dates :
  date 0 = (1970, 1, 1)
  /\ date (951782400 * 1000000) = (2000, 2, 29)
  /\ date (951868800 * 1000000 - 1) = (2000, 2, 29)
  /\ date Samples.t0 = (2025, 11, 4)
  /\ LeadService.yyyymmdd Samples.t0 = s!"20251104".
Proof. vm_compute. repeat split. Qed.

Example subtasks_from_settings :
  LeadService._subtasks_from_env Samples.env_first = [s!"Llamar"; s!"Enviar propuesta"]
  /\ LeadService._subtasks_from_env
       (Samples.env_with (Settings.mk s!"t" s!"1" s!"" s!"  ") [] (Samples.task s!"x"))
     = [s!"Contactar lead (24h)"; s!"Enviar información"; s!"Proponer 3 horarios";
        s!"Agendar reunión inicial"]
  /\ LeadService._subtasks_from_env
       (Samples.env_with (Settings.mk s!"t" s!"1" s!"" s!" a ;; b; ") [] (Samples.task s!"x"))
     = [s!"a"; s!"b"].
Proof. vm_compute. repeat split. Qed.

End TestVectors.

(** * The rest of the code *)

(** ** Whitespace *)

Section Texts.
Import ClickUpClient LeadService Samples Shape Scenarios.
Open Scope N_scope.

Lemma lstrip_blank (s : str) : lstrip s = [] <-> blank s = true.
Proof.
  induction s as [|c s IH]; [easy |]. cbn.
  destruct (isspace c); [exact IH | easy].
Qed.

Lemma lstrip_head (s : str) :
  match lstrip s with [] => True | c :: _ => isspace c = false end.
Proof.
  induction s as [|c s IH]; [exact I |]. cbn.
  destruct (isspace c) eqn:E; [exact IH | exact E].
Qed.

Lemma lstrip_fixed (s : str) :
  match s with [] => True | c :: _ => isspace c = false end -> lstrip s = s.
Proof. destruct s as [|c s]; [easy |]. cbn. now intros ->. Qed.

Lemma blank_app (a b : str) : blank (a ++ b) = blank a && blank b.
Proof. apply forallb_app. Qed.

Lemma blank_rev (s : str) : blank (rev s) = blank s.
Proof.
  induction s as [|c s IH]; [reflexivity |].
  cbn [rev]. rewrite blank_app, IH. cbn. rewrite andb_true_r. apply andb_comm.
Qed.

Lemma lstrip_suffix (s : str) : exists p, s = p ++ lstrip s /\ blank p = true.
Proof.
  induction s as [|c s (p & Hp & Hb)]; [now exists [] |]. cbn.
  destruct (isspace c) eqn:E.
  - exists (c :: p). split; [cbn; now f_equal |]. unfold blank in *. cbn. now rewrite E.
  - now exists [].
Qed.

Lemma lstrip_not_blank (s : str) : blank s = false -> blank (lstrip s) = false.
Proof.
  intros H. destruct (lstrip_suffix s) as (p & Hp & Hb).
  rewrite Hp, blank_app, Hb in H. exact H.
Qed.

(** [strip] gives the empty text exactly on the texts of whitespace. *)
Lemma strip_blank (s : str) : strip s = [] <-> blank s = true.
Proof.
  unfold strip, rstrip. split.
  - intros H. apply (f_equal (@rev N)) in H. rewrite rev_involutive in H. cbn in H.
    apply lstrip_blank in H. rewrite blank_rev in H.
    destruct (blank s) eqn:E; [reflexivity |].
    apply lstrip_not_blank in E. congruence.
  - intros H. apply lstrip_blank in H. now rewrite H.
Qed.

End Texts.

(** ** The traffic of the client *)

Section ClientShape.
Import ClickUpClient LeadService Samples Shape Scenarios.
Open Scope N_scope.
Import ClickUpClient.

Lemma outcomes_paced req attempt outs : outcomes_of (paced req attempt outs) = outs.
Proof.
  revert attempt. induction outs as [|o rest IH]; intros attempt; [reflexivity |].
  cbn [paced]. destruct rest as [|o' rest']; [reflexivity |].
  change (outcomes_of (Posted req o :: Slept (backoff_delay attempt)
                         :: paced req (attempt + 1)%Z (o' :: rest')))
    with (o :: outcomes_of (paced req (attempt + 1)%Z (o' :: rest'))).
  now rewrite IH.
Qed.

Lemma run_paced self req remaining attempt last_exc tr res :
  Run self req remaining attempt last_exc tr res ->
  Z.of_nat remaining = Z.max 0 (max_retries self - attempt + 1) ->
  tr = paced req attempt (outcomes_of tr).
Proof.
  induction 1; intros Hb; try reflexivity.
  - rewrite outcomes_retry. cbn [paced].
    destruct (outcomes_of tr) as [|o outs] eqn:E.
    + pose proof (run_no_post _ _ _ _ _ _ _ H1 E) as ->.
      replace (attempt <? max_retries self)%Z with false by (symmetry; lia).
      specialize (IHRun ltac:(lia)). rewrite IHRun. reflexivity.
    + pose proof (run_posts_le _ _ _ _ _ _ _ H1) as Hle. rewrite E in Hle. cbn in Hle.
      replace (attempt <? max_retries self)%Z with true by (symmetry; lia).
      specialize (IHRun ltac:(lia)). cbn [app]. now rewrite <- IHRun.
  - rewrite outcomes_retry. cbn [paced].
    destruct (outcomes_of tr) as [|o outs] eqn:E.
    + pose proof (run_no_post _ _ _ _ _ _ _ H E) as ->.
      replace (attempt <? max_retries self)%Z with false by (symmetry; lia).
      specialize (IHRun ltac:(lia)). rewrite IHRun. reflexivity.
    + pose proof (run_posts_le _ _ _ _ _ _ _ H) as Hle. rewrite E in Hle. cbn in Hle.
      replace (attempt <? max_retries self)%Z with true by (symmetry; lia).
      specialize (IHRun ltac:(lia)). cbn [app]. now rewrite <- IHRun.
Qed.

(** A configured client's [create_task] is one run of the retry loop on
    the request of the task. *)
Lemma create_task_request env self name description due parent w :
  is_configured self = true ->
  exists tr lg res,
    create_task env self name description due parent w = (res, extend w tr lg)
    /\ Run self (task_request self name description due parent)
           (Z.to_nat (max_retries self)) 1 None tr res.
Proof.
  intros Hc. unfold create_task, _post_with_retries. rewrite Hc. cbn [negb].
  fold (task_request self name description due parent).
  apply attempts_run.
Qed.

Lemma if_nonempty_filled (x : option str) : if_nonempty x <> Some [].
Proof. destruct x as [[|c s]|]; cbn; congruence. Qed.

End ClientShape.

Section ClientEdges.
Import ClickUpClient LeadService Samples Shape Scenarios.
Open Scope N_scope.
Import ClickUpClient.
Open Scope Z_scope.

(** X1.  The client counts a token or a list id of whitespace only as
    missing: it is configured exactly when both hold a code point that is
    not whitespace.  A default status of whitespace only is no status. *)
Theorem configured_iff_credentials (token list_id : str) (default_status : option str)
        (timeout : Q) (max_retries : Z) :
  let self := init token list_id default_status timeout max_retries in
  (is_configured self = true <-> blank token = false /\ blank list_id = false)
  /\ ClickUpClient.default_status self
     = (if blank (or_empty default_status) then None
        else Some (strip (or_empty default_status))).
Proof.
  cbv zeta. split.
  - rewrite is_configured_iff. cbn [ClickUpClient.token ClickUpClient.list_id init].
    rewrite !strip_blank. now destruct (blank token), (blank list_id).
  - cbn [ClickUpClient.default_status init].
    destruct (blank (or_empty default_status)) eqn:E.
    + apply strip_blank in E. now rewrite E.
    + destruct (strip (or_empty default_status)) eqn:Es; [| reflexivity].
      apply strip_blank in Es. congruence.
Qed.

(** X2.  The whole network traffic of one [create_task] on a configured
    client: the same request (the task URL of the list, the token as
    authorisation, the same body) once for each attempt, the backoff
    pause between two consecutive attempts, and no pause before the first
    or after the last.  The body never carries an empty description or an
    empty status. *)
Theorem create_task_trace env self name description due parent w :
  is_configured self = true ->
  let req := task_request self name description due parent in
  exists outs lg res,
    create_task env self name description due parent w
    = (res, extend w (paced req 1 outs) lg)
    /\ outcomes_of (paced req 1 outs) = outs
    /\ (length outs <= Z.to_nat (max_retries self))%nat
    /\ p_description (json req) <> Some []
    /\ p_status (json req) <> Some [].
Proof.
  intros Hc req.
  destruct (create_task_request env self name description due parent w Hc)
    as (tr & lg & res & Hrun & Hshape).
  exists (outcomes_of tr), lg, res. fold req in Hshape.
  rewrite <- (run_paced self req _ _ _ _ _ Hshape) by lia.
  repeat split.
  - exact Hrun.
  - now apply (run_posts_le self req _ _ _ _ _ Hshape).
  - apply if_nonempty_filled.
  - apply if_nonempty_filled.
Qed.

Lemma create_task_trace_witness :
  is_configured client0 = true
  /\ exists outs lg res,
      create_task (env_with settings0 [Response 500 None; NetworkFailure s!"reset"]
                            (task s!"t1"))
                  client0 s!"Nuevo lead: Jose" (Some []) None JNull empty_world
      = (res, extend empty_world
                (paced (task_request client0 s!"Nuevo lead: Jose" (Some []) None JNull) 1 outs)
                lg)
      /\ (length outs <= 3)%nat.
Proof.
  split; [reflexivity |].
  destruct (create_task_trace
              (env_with settings0 [Response 500 None; NetworkFailure s!"reset"] (task s!"t1"))
              client0 s!"Nuevo lead: Jose" (Some []) None JNull empty_world eq_refl)
    as (outs & lg & res & H1 & _ & H3 & _).
  exists outs, lg, res. split; [exact H1 | exact H3].
Defined.

(** X3.  A client built with [max_retries] of zero or less never reaches the
    network: [create_task] raises the integration error at once, and its
    message names that number as the attempts made. *)
Theorem no_attempt_without_retries env self name description due parent w :
  is_configured self = true ->
  max_retries self <= 0 ->
  create_task env self name description due parent w
  = (Raise (ClickUpError (s!"ClickUp POST failed after " ++ str_of_Z (max_retries self)
                            ++ s!" attempts")), w).
Proof.
  intros Hc Hm. unfold create_task, _post_with_retries. rewrite Hc. cbn [negb].
  replace (Z.to_nat (max_retries self)) with 0%nat by lia.
  cbn [attempts]. unfold raise, failure_message. now rewrite app_nil_r.
Qed.

Lemma no_attempt_without_retries_witness :
  let self := init s!"pk_token" s!"901" None (10 # 1) 0 in
  is_configured self = true
  /\ max_retries self <= 0
  /\ create_task env_first self s!"Nuevo lead: Jose" None None JNull empty_world
     = (Raise (ClickUpError s!"ClickUp POST failed after 0 attempts"), empty_world).
Proof.
  cbv zeta. split; [reflexivity |]. split; [cbn; lia |].
  apply (no_attempt_without_retries env_first (init s!"pk_token" s!"901" None (10 # 1) 0)
           s!"Nuevo lead: Jose" None None JNull empty_world); [reflexivity | cbn; lia].
Defined.

End ClientEdges.

Section ClientOutcomes.
Import ClickUpClient LeadService Samples Shape Scenarios.
Open Scope N_scope.
Import ClickUpClient.
Open Scope Z_scope.

Lemma explains_retry res o outs :
  is_2xx o = false -> explains res outs -> explains res (o :: outs).
Proof.
  intros Ho. destruct res as [data | []]; cbn; try easy.
  - intros (pre & status & -> & Hs & Hall). exists (o :: pre), status. now repeat split; auto.
  - intros Hall. now constructor.
  - intros (pre & status & -> & Hs & Hall). exists (o :: pre), status. now repeat split; auto.
Qed.

Lemma run_explains self req remaining attempt last_exc tr res :
  Run self req remaining attempt last_exc tr res -> explains res (outcomes_of tr).
Proof.
  induction 1; rewrite ?outcomes_retry.
  - constructor.
  - exists [], status. now repeat split.
  - exists [], status. now repeat split.
  - cbn. constructor; [exact H | constructor].
  - apply explains_retry; [exact H | exact IHRun].
  - apply explains_retry; [reflexivity | exact IHRun].
Qed.

(** X4.  Take a [create_task] whose request can be encoded: a token and a
    list id of letters, digits, underscores and hyphens, texts without
    surrogates, a parent that is [None] or such a text.  If it returns,
    it got exactly one 2xx answer, the last one, and returns its body; if
    it raises [ClickUpError], it got no 2xx answer at all; the only
    other error it raises is that of a 2xx answer whose body cannot be
    decoded, which ends the call without another attempt. *)
Theorem create_task_outcome env self name description due parent w :
  is_configured self = true ->
  sendable self ->
  utf8_ok name = true ->
  utf8_ok (or_empty description) = true ->
  storable parent ->
  exists tr lg res,
    create_task env self name description due parent w = (res, extend w tr lg)
    /\ explains res (outcomes_of tr).
Proof.
  intros Hc _ _ _ _.
  destruct (create_task_request env self name description due parent w Hc)
    as (tr & lg & res & Hrun & Hshape).
  exists tr, lg, res. split; [exact Hrun |].
  now apply (run_explains _ _ _ _ _ _ _ Hshape).
Qed.

Lemma create_task_outcome_witness :
  is_configured client0 = true
  /\ sendable client0
  /\ utf8_ok s!"Nuevo lead: Jose" = true
  /\ storable JNull
  /\ exists tr lg res,
      create_task (env_with settings0 [Response 503 None] (Response 201 None))
                  client0 s!"Nuevo lead: Jose" None None JNull empty_world
      = (res, extend empty_world tr lg)
      /\ explains res (outcomes_of tr).
Proof.
  assert (sendable client0) as Hs by (repeat split; vm_compute; reflexivity).
  assert (utf8_ok s!"Nuevo lead: Jose" = true) as Hn by (vm_compute; reflexivity).
  assert (storable JNull) as Hp by (now left).
  split; [reflexivity |]. split; [exact Hs |]. split; [exact Hn |]. split; [exact Hp |].
  apply (create_task_outcome
           (env_with settings0 [Response 503 None] (Response 201 None))
           client0 s!"Nuevo lead: Jose" None None JNull empty_world);
    [reflexivity | exact Hs | exact Hn | reflexivity | exact Hp].
Defined.

(** A 2xx answer without a readable body is not retried. *)
Example unreadable_answer :
  let run := create_task (env_with settings0 [Response 503 None] (Response 201 None))
                         client0 s!"Nuevo lead: Jose" None None JNull empty_world in
  fst run = Raise JSONDecodeError
  /\ outcomes_of (io (snd run)) = [Response 503 None; Response 201 None].
Proof. vm_compute. split; reflexivity. Qed.

(** X5.  The client of the settings pauses at most twice in one call, for 0.5
    s and then 2 s: a call never sleeps more than 2.5 s in all. *)
Theorem pauses_bounded env (s : Settings.t) name description due parent w :
  is_configured (from_settings s) = true ->
  exists tr lg res,
    create_task env (from_settings s) name description due parent w = (res, extend w tr lg)
    /\ (sleeps_of tr = [] \/ sleeps_of tr = [1 # 2] \/ sleeps_of tr = [1 # 2; 2 # 1])%Q
    /\ (total (sleeps_of tr) <= 5 # 2)%Q.
Proof.
  intros Hc.
  destruct (create_task_request env (from_settings s) name description due parent w Hc)
    as (tr & lg & res & Hrun & Hshape).
  exists tr, lg, res. split; [exact Hrun |].
  pose proof (run_posts_le _ _ _ _ _ _ _ Hshape) as Hle.
  pose proof (run_sleeps _ _ _ _ _ _ _ Hshape) as Hs.
  change (max_retries (from_settings s)) with 3 in *.
  specialize (Hs ltac:(lia)). change (Z.to_nat 3) with 3%nat in Hle.
  rewrite Hs.
  destruct (length (outcomes_of tr)) as [|[|[|[|n]]]]; try lia; cbn;
    (split; [tauto | vm_compute; discriminate]).
Qed.

Lemma pauses_bounded_witness :
  is_configured (from_settings settings0) = true
  /\ exists tr lg res,
      create_task env_down (from_settings settings0) s!"Nuevo lead: Jose" None None JNull
                  empty_world
      = (res, extend empty_world tr lg)
      /\ (total (sleeps_of tr) <= 5 # 2)%Q.
Proof.
  split; [reflexivity |].
  destruct (pauses_bounded env_down settings0 s!"Nuevo lead: Jose" None None JNull
                           empty_world eq_refl) as (tr & lg & res & H1 & _ & H3).
  exists tr, lg, res. split; [exact H1 | exact H3].
Defined.

End ClientOutcomes.

(** ** Trimming, splitting and joining *)

Section Trimming.
Import ClickUpClient LeadService Samples Shape Scenarios.
Open Scope N_scope.

Lemma rstrip_prefix (s : str) : exists p, s = rstrip s ++ p /\ blank p = true.
Proof.
  unfold rstrip. destruct (lstrip_suffix (rev s)) as (p & Hp & Hb).
  exists (rev p). split; [| now rewrite blank_rev].
  rewrite <- (rev_involutive s) at 1. rewrite Hp at 1. apply rev_app_distr.
Qed.

(** What [strip] removes is whitespace at the two ends. *)
Lemma strip_middle (s : str) :
  exists p q, s = p ++ strip s ++ q /\ blank p = true /\ blank q = true.
Proof.
  destruct (lstrip_suffix s) as (p & Hp & Hbp).
  destruct (rstrip_prefix (lstrip s)) as (q & Hq & Hbq).
  exists p, q. unfold strip. now rewrite <- Hq.
Qed.

Lemma strip_fixed (s : str) : edge_ok s -> edge_ok (rev s) -> strip s = s.
Proof.
  intros H1 H2. unfold strip, rstrip.
  rewrite (lstrip_fixed s H1), (lstrip_fixed (rev s) H2). apply rev_involutive.
Qed.

Lemma strip_edges (s : str) : edge_ok (strip s) /\ edge_ok (rev (strip s)).
Proof.
  unfold strip, rstrip. rewrite rev_involutive. split.
  - destruct (lstrip_suffix (rev (lstrip s))) as (p & Hp & Hb).
    apply (f_equal (@rev N)) in Hp. rewrite rev_involutive, rev_app_distr in Hp.
    pose proof (lstrip_head s) as Hh. rewrite Hp in Hh.
    destruct (rev (lstrip (rev (lstrip s)))); [exact I | exact Hh].
  - apply lstrip_head.
Qed.

Lemma strip_strip (s : str) : strip (strip s) = strip s.
Proof. destruct (strip_edges s). now apply strip_fixed. Qed.

Lemma fixed_edges (s : str) : strip s = s -> edge_ok s /\ edge_ok (rev s).
Proof. intros H. rewrite <- H. apply strip_edges. Qed.

Lemma strip_app (a b : str) :
  a <> [] -> b <> [] -> strip a = a -> strip b = b -> strip (a ++ b) = a ++ b.
Proof.
  intros Ha Hb Sa Sb.
  destruct (fixed_edges a Sa) as [Ea _]. destruct (fixed_edges b Sb) as [_ Eb].
  apply strip_fixed.
  - destruct a; [contradiction | exact Ea].
  - rewrite rev_app_distr. destruct (rev b) eqn:E; [| exact Eb].
    apply (f_equal (@rev N)) in E. rewrite rev_involutive in E. contradiction.
Qed.

Lemma strip_In (s : str) (c : N) : In c (strip s) -> In c s.
Proof.
  intros H. destruct (strip_middle s) as (p & q & Hs & _). rewrite Hs.
  apply in_or_app. right. apply in_or_app. now left.
Qed.

Lemma isspace_lower (c : N) : isspace (lower_cp c) = isspace c.
Proof.
  unfold lower_cp. destruct ((0x41 <=? c) && (c <=? 0x5A)) eqn:E; [| reflexivity].
  destruct (isspace c) eqn:E1, (isspace (c + 32)) eqn:E2; try reflexivity;
    exfalso; unfold isspace in *; nbool; lia.
Qed.

Lemma lstrip_lower (s : str) : lstrip (lower s) = lower (lstrip s).
Proof.
  induction s as [|c s IH]; [reflexivity |].
  cbn. rewrite isspace_lower. now destruct (isspace c).
Qed.

Lemma strip_lower (s : str) : strip (lower s) = lower (strip s).
Proof.
  assert (forall x, rev (lower x) = lower (rev x)) as R
      by (intros x; unfold lower; now rewrite map_rev).
  unfold strip, rstrip. now rewrite lstrip_lower, R, lstrip_lower, R.
Qed.

Lemma lower_lower (s : str) : lower (lower s) = lower s.
Proof.
  unfold lower. rewrite map_map. apply map_ext. intros c. unfold lower_cp.
  destruct ((0x41 <=? c) && (c <=? 0x5A)) eqn:E; [| now rewrite E].
  replace ((0x41 <=? c + 32) && (c + 32 <=? 0x5A)) with false; [reflexivity |].
  symmetry. nbool. lia.
Qed.

(** *** Splitting and joining *)

Lemma split_cons (sep : N) (s : str) : split sep s <> [].
Proof.
  induction s as [|c s IH]; [discriminate |]. cbn.
  destruct (c =? sep); [discriminate |]. now destruct (split sep s).
Qed.

Lemma split_no_sep (sep : N) (s : str) : Forall (fun p => ~ In sep p) (split sep s).
Proof.
  induction s as [|c s IH]; [repeat constructor; auto |]. cbn.
  destruct (c =? sep) eqn:E.
  - constructor; [auto | exact IH].
  - destruct (split sep s) as [|p ps]; [repeat constructor; intros [H | []] |].
    + subst. now rewrite N.eqb_refl in E.
    + inversion IH as [|? ? Hp Hps]; subst. constructor; [| exact Hps].
      intros [H | H]; [subst; now rewrite N.eqb_refl in E | now apply Hp].
Qed.

Lemma split_part (sep : N) (p : str) :
  ~ In sep p -> split sep p = [p].
Proof.
  induction p as [|c p IH]; [reflexivity |]. intros H. cbn.
  destruct (c =? sep) eqn:E; [apply N.eqb_eq in E; subst; exfalso; apply H; now left |].
  rewrite IH; [reflexivity |]. intros Hin. apply H. now right.
Qed.

Lemma split_app (sep : N) (p rest : str) :
  ~ In sep p -> split sep (p ++ sep :: rest) = p :: split sep rest.
Proof.
  induction p as [|c p IH]; intros H.
  - cbn. now rewrite N.eqb_refl.
  - cbn. destruct (c =? sep) eqn:E;
      [apply N.eqb_eq in E; subst; exfalso; apply H; now left |].
    rewrite IH; [reflexivity |]. intros Hin. apply H. now right.
Qed.

(** Joining parts that do not hold the separator, then splitting, gives
    the parts back. *)
Lemma split_join (sep : N) (parts : list str) :
  parts <> [] -> Forall (fun p => ~ In sep p) parts ->
  split sep (join [sep] parts) = parts.
Proof.
  induction parts as [|p rest IH]; [congruence |]. intros _ Hall.
  inversion Hall as [|? ? Hp Hrest]; subst.
  destruct rest as [|q rest]; [now apply split_part |].
  change (join [sep] (p :: q :: rest)) with (p ++ sep :: join [sep] (q :: rest)).
  rewrite split_app by exact Hp. f_equal. apply IH; [discriminate | exact Hrest].
Qed.

Lemma Forall_join {P : N -> Prop} (sep : str) (parts : list str) :
  Forall P sep -> Forall (Forall P) parts -> Forall P (join sep parts).
Proof.
  intros Hsep. induction parts as [|p rest IH]; intros Hall; [constructor |].
  inversion Hall as [|? ? Hp Hrest]; subst.
  destruct rest as [|q rest]; [exact Hp |].
  change (join sep (p :: q :: rest)) with (p ++ sep ++ join sep (q :: rest)).
  apply Forall_app. split; [exact Hp |]. apply Forall_app. split; [exact Hsep |].
  now apply IH.
Qed.

End Trimming.

(** ** The titles of the subtasks *)

Section Subtasks.
Import ClickUpClient LeadService Samples Shape Scenarios.
Open Scope N_scope.

Lemma filter_clean (l : list str) :
  Forall (fun t => t <> []) l -> filter nonempty l = l.
Proof.
  induction 1 as [|t l Ht _ IH]; [reflexivity |]. cbn.
  destruct t; [contradiction |]. cbn. now rewrite IH.
Qed.

Lemma join_clean (titles : list str) :
  titles <> [] -> Forall clean_title titles ->
  join [0x3B] titles <> [] /\ strip (join [0x3B] titles) = join [0x3B] titles.
Proof.
  induction titles as [|t rest IH]; [congruence |]. intros _ Hall.
  inversion Hall as [|? ? (Hne & Hs & _) Hrest]; subst.
  destruct rest as [|q rest]; [now split |].
  change (join [0x3B] (t :: q :: rest)) with (t ++ [0x3B] ++ join [0x3B] (q :: rest)).
  destruct (IH ltac:(discriminate) Hrest) as [Hne' Hs'].
  split; [destruct t; [contradiction | discriminate] |].
  apply strip_app; auto.
  - discriminate.
  - apply strip_app; auto. discriminate.
Qed.

(** X6.  The titles of the subtasks are never empty, carry no whitespace at
    their ends and no semicolon, whatever the setting holds; a setting of
    whitespace only gives the four default titles, and one of separators
    and whitespace only gives no title at all. *)
Theorem subtasks_are_clean (env : Env) :
  Forall clean_title (_subtasks_from_env env)
  /\ (blank (Settings.SUBTASKS (settings env)) = true ->
      _subtasks_from_env env = DEFAULT_SUBTASKS)
  /\ (blank (Settings.SUBTASKS (settings env)) = false ->
      _subtasks_from_env env
      = filter nonempty (map strip (split 0x3B (strip (Settings.SUBTASKS (settings env))))))
  /\ (blank (Settings.SUBTASKS (settings env)) = false ->
      Forall (fun c => c = 0x3B \/ isspace c = true) (Settings.SUBTASKS (settings env)) ->
      _subtasks_from_env env = []).
Proof.
  unfold _subtasks_from_env.
  set (raw := strip (Settings.SUBTASKS (settings env))).
  assert (nonempty raw = negb (blank (Settings.SUBTASKS (settings env)))) as Hraw.
  { destruct (blank _) eqn:E.
    - apply strip_blank in E. subst raw. now rewrite E.
    - destruct raw eqn:Er; [| reflexivity]. apply strip_blank in Er. congruence. }
  rewrite Hraw. repeat split.
  - destruct (blank _); cbn [negb].
    + repeat constructor; try discriminate;
        intros H; cbn in H; repeat (destruct H as [H | H]; [discriminate |]); exact H.
    + apply Forall_forall. intros t Ht. apply filter_In in Ht as [Ht Hne].
      apply in_map_iff in Ht as (p & <- & Hp). repeat split.
      * now apply nonempty_iff.
      * apply strip_strip.
      * intros Hin. apply strip_In in Hin.
        pose proof (split_no_sep 0x3B raw) as Hall. rewrite Forall_forall in Hall.
        now apply (Hall p).
  - now intros ->.
  - now intros ->.
  - intros -> Hall. cbn [negb].
    assert (Forall (fun c => c = 0x3B \/ isspace c = true) raw) as Hraw'.
    { destruct (strip_middle (Settings.SUBTASKS (settings env))) as (p & q & Hs & _).
      rewrite Hs in Hall. apply Forall_app in Hall as [_ Hall].
      now apply Forall_app in Hall as [Hall _]. }
    clear Hraw Hall. induction raw as [|c raw IH]; [reflexivity |].
    inversion Hraw' as [|? ? Hc Hrest]; subst. specialize (IH Hrest).
    cbn [split]. destruct (c =? 0x3B) eqn:E; [exact IH |].
    destruct Hc as [-> | Hc]; [discriminate |].
    destruct (split 0x3B raw) as [|p ps] eqn:Es; [now destruct (split_cons 0x3B raw) |].
    cbn [map filter] in *.
    assert (strip (c :: p) = strip p) as ->.
    { unfold strip. cbn [lstrip]. now rewrite Hc. }
    exact IH.
Qed.

Lemma subtasks_are_clean_witness :
  let env := with_subtasks env_first s!" ; ;" in
  blank (Settings.SUBTASKS (settings env)) = false
  /\ Forall (fun c => c = 0x3B \/ isspace c = true) (Settings.SUBTASKS (settings env))
  /\ _subtasks_from_env env = [].
Proof.
  cbv zeta.
  assert (Forall (fun c => c = 0x3B \/ isspace c = true)
                 (Settings.SUBTASKS (settings (with_subtasks env_first s!" ; ;")))) as Hall
      by (repeat (constructor; [first [now left | now right] |]); constructor).
  split; [reflexivity |]. split; [exact Hall |].
  apply (proj2 (proj2 (proj2 (subtasks_are_clean (with_subtasks env_first s!" ; ;")))));
    [reflexivity | exact Hall].
Defined.

(** X7.  Titles written to the setting with semicolons between them are the
    titles the sync uses, in that order. *)
Theorem subtasks_round_trip (env : Env) (titles : list str) :
  titles <> [] ->
  Forall clean_title titles ->
  _subtasks_from_env (with_subtasks env (join [0x3B] titles)) = titles.
Proof.
  intros Hne Hall. unfold _subtasks_from_env. cbn [settings with_subtasks Settings.SUBTASKS].
  destruct (join_clean titles Hne Hall) as [Hj Hs]. rewrite Hs.
  destruct (join [0x3B] titles) eqn:E; [contradiction |]. cbn [nonempty]. rewrite <- E.
  rewrite split_join; [| exact Hne |].
  - rewrite (map_ext_in strip (fun t => t)), map_id.
    + apply filter_clean. eapply Forall_impl; [| exact Hall]. now intros t (H & _).
    + intros t Ht. rewrite Forall_forall in Hall. now destruct (Hall t Ht) as (_ & H & _).
  - eapply Forall_impl; [| exact Hall]. now intros t (_ & _ & H).
Qed.

Lemma subtasks_round_trip_witness :
  [s!"Llamar hoy"; s!"Enviar propuesta"] <> []
  /\ Forall clean_title [s!"Llamar hoy"; s!"Enviar propuesta"]
  /\ _subtasks_from_env (with_subtasks env_first s!"Llamar hoy;Enviar propuesta")
     = [s!"Llamar hoy"; s!"Enviar propuesta"].
Proof.
  assert (Forall clean_title [s!"Llamar hoy"; s!"Enviar propuesta"]) as Hall.
  { repeat constructor; try discriminate;
      intros H; cbn in H; repeat (destruct H as [H | H]; [discriminate |]); exact H. }
  split; [discriminate |]. split; [exact Hall |].
  apply (subtasks_round_trip env_first [s!"Llamar hoy"; s!"Enviar propuesta"]);
    [discriminate | exact Hall].
Defined.

End Subtasks.

(** ** The texts of the list-valued columns *)

Section Columns.
Import ClickUpClient LeadService Samples Shape Scenarios.
Open Scope N_scope.

Lemma hex_digit_printable (d : N) : d < 16 -> printable (Json.hex_digit d).
Proof. unfold Json.hex_digit, printable. destruct (d <? 10) eqn:E; nbool; lia. Qed.

Lemma hex4_printable (n : N) : n < 0x10000 -> Forall printable (hex4 n).
Proof.
  intros Hn. unfold hex4.
  each_item; apply hex_digit_printable; try (apply N.mod_lt; lia).
  apply N.Div0.div_lt_upper_bound. lia.
Qed.

Lemma surrogate_below (base x : N) :
  base < 0x10000 -> N.lor base (N.land x 0x3FF) < 0x10000.
Proof.
  intros Hb.
  assert (N.land x 0x3FF < 0x10000) as Hx.
  { change 0x3FF with (N.ones 10). rewrite N.land_ones.
    pose proof (N.mod_lt x (2 ^ 10) ltac:(discriminate)). change (2 ^ 10) with 1024 in *. lia. }
  destruct (N.eq_dec (N.lor base (N.land x 0x3FF)) 0) as [-> | Hz]; [lia |].
  change 0x10000 with (2 ^ 16). apply N.log2_lt_pow2; [lia |].
  rewrite N.log2_lor.
  apply N.max_lub_lt.
  - destruct (N.eq_dec base 0) as [-> | Hb0]; [cbn; lia |].
    apply N.log2_lt_pow2; [lia | exact Hb].
  - destruct (N.eq_dec (N.land x 0x3FF) 0) as [-> | Hx0]; [cbn; lia |].
    apply N.log2_lt_pow2; [lia | exact Hx].
Qed.

Lemma u_escape_printable (n : N) :
  n < 0x10000 -> Forall printable (BACKSLASH :: LETTER_u :: hex4 n).
Proof.
  intros Hn. apply Forall_cons; [unfold printable, BACKSLASH; lia |].
  apply Forall_cons; [unfold printable, LETTER_u; lia |]. now apply hex4_printable.
Qed.

Lemma escape_cp_printable (c : N) : Forall printable (escape_cp c).
Proof.
  unfold escape_cp.
  repeat match goal with
         | |- Forall _ (if ?b then _ else _) => destruct b eqn:?
         end;
    try (each_item; unfold printable, QUOTE, BACKSLASH, LETTER_u; cbn; lia).
  - each_item. unfold printable. nbool. lia.
  - apply u_escape_printable. nbool. lia.
  - cbv zeta. apply Forall_app. split; apply u_escape_printable, surrogate_below; lia.
Qed.

Lemma encode_string_printable (s : str) : Forall printable (encode_string s).
Proof.
  unfold encode_string. constructor; [unfold printable, QUOTE, BACKSLASH, LETTER_u; cbn; lia |].
  apply Forall_app. split.
  - apply Forall_flat_map. apply escape_cp_printable.
  - each_item. unfold printable, QUOTE; lia.
Qed.

Lemma dumps_printable (l : list str) : Forall printable (dumps l).
Proof.
  unfold dumps. apply Forall_app. split; [each_item; unfold printable; cbn; lia |].
  apply Forall_app. split; [| each_item; unfold printable; cbn; lia].
  apply Forall_join.
  - each_item; unfold printable; cbn; lia.
  - apply Forall_forall. intros e He. apply in_map_iff in He as (s & <- & _).
    apply encode_string_printable.
Qed.

(** X8.  Whatever the strings hold, the text that a setter of the lead
    stores is not empty and is made of printable ASCII only. *)
Theorem stored_text_is_ascii (lead : Lead.t) (l : list str) :
  exists text,
    Lead.intereses_servicios_json (Lead.set_intereses_servicios lead l) = Some text
    /\ Lead.external_subtask_ids_json (Lead.set_external_subtask_ids lead l) = Some text
    /\ text <> []
    /\ Forall printable text.
Proof.
  exists (dumps l). repeat split.
  - discriminate.
  - apply dumps_printable.
Qed.

(** X9.  The identifiers of the subtasks written through the setter are read
    back by the getter as the same list; and each of the two list-valued
    properties is untouched by the setter of the other. *)
Theorem subtask_ids_roundtrip (lead : Lead.t) (l : list str) :
  Forall (fun s => wf s = true) l ->
  Lead.external_subtask_ids (Lead.set_external_subtask_ids lead l) = Lead.py_list l
  /\ Lead.intereses_servicios (Lead.set_external_subtask_ids lead l)
     = Lead.intereses_servicios lead
  /\ Lead.external_subtask_ids (Lead.set_intereses_servicios lead l)
     = Lead.external_subtask_ids lead.
Proof.
  intros Hwf. repeat split. apply (load_list_dump_list l Hwf).
Qed.

Lemma subtask_ids_roundtrip_witness :
  Forall (fun s => wf s = true) [s!"86c1"; s!""]
  /\ Lead.external_subtask_ids
       (Lead.set_external_subtask_ids (inserted env_first jose []) [s!"86c1"; s!""])
     = Lead.py_list [s!"86c1"; s!""].
Proof.
  assert (Forall (fun s => wf s = true) [s!"86c1"; s!""]) as H by (repeat constructor).
  split; [exact H |].
  apply (subtask_ids_roundtrip (inserted env_first jose []) [s!"86c1"; s!""] H).
Defined.

End Columns.

(** ** The service *)

Section Service.
Import ClickUpClient LeadService Samples Shape Scenarios.
Open Scope N_scope.
Open Scope Z_scope.

(** The creation of a lead whose key is free: the row appended to the
    table is the lead that the call returns, as inserted or as the
    write-back of the identifiers left it. *)
Lemma created_row (env : Env) (data : LeadCreate.t) (w : World) :
  Forall (fun s => wf s = true) (LeadCreate.intereses_servicios data) ->
  pending (session w) = [] ->
  Db.key_taken (leads w) (_generate_dedupe_key env data) = false ->
  exists row w1,
    create_or_get_lead env data w = (Ok (row, true), w1)
    /\ leads w1 = leads w ++ [row]
    /\ pending (session w1) = []
    /\ (row = inserted env data (leads w)
        \/ exists parent_id sub_ids,
             row = written_back env (inserted env data (leads w)) parent_id sub_ids).
Proof.
  intros Hwf Hp Hk. rewrite (insert_new env data w Hp Hk).
  set (row := inserted env data (leads w)).
  assert (interests_written row (LeadCreate.intereses_servicios data)) as Hw
      by (split; [exact Hwf | reflexivity]).
  destruct (sync_cases env row data (after_insert env data w) _ Hw)
    as (tr & lg & rows & lead' & Hrun & Hcases).
  unfold bind. rewrite Hrun. unfold ret.
  eexists lead', _. split; [reflexivity |]. cbn [leads session pending after_insert].
  destruct Hcases as [(-> & -> & _) | (parent & bodies & lg0 & _ & _ & _ & Hend)].
  - repeat split. now left.
  - destruct Hend as [(_ & -> & -> & _) | (_ & -> & -> & _)].
    + repeat split. now left.
    + cbn [leads after_insert]. subst row. rewrite update_inserted. repeat split.
      right. eauto.
Qed.

Lemma key_taken_find (rows : list Lead.t) (key : str) :
  Db.key_taken rows key = true ->
  exists row, find (fun r => PyStr.eqb (Lead.dedupe_key r) key) rows = Some row
              /\ In row rows /\ Lead.dedupe_key row = key.
Proof.
  intros H. destruct (find _ rows) as [row|] eqn:E.
  - exists row. destruct (find_some _ _ E) as [Hin Hk]. apply str_eqb_eq in Hk. auto.
  - apply key_taken_iff in H as (r & Hin & Hk).
    apply (find_none _ _ E) in Hin. rewrite Hk, str_eqb_refl in Hin. discriminate.
Qed.





Lemma next_id_not_in (rows : list Lead.t) : ~ In (Some (Db.next_id rows)) (map Lead.id rows).
Proof.
  intros H. apply in_map_iff in H as (r & Hid & Hin).
  pose proof (next_id_above rows r _ Hin Hid). lia.
Qed.

Lemma NoDup_snoc {A} (l : list A) (x : A) : NoDup l -> ~ In x l -> NoDup (l ++ [x]).
Proof.
  intros Hl Hx. apply (NoDup_Add (a := x) (l := l)).
  - rewrite <- (app_nil_r l) at 1. apply Add_app.
  - now split.
Qed.

(** X12.  [create_or_get_lead] keeps the uniqueness constraints of the table:
    when the dedupe keys and the primary keys of the rows are unique
    before a call, they are after it. *)
Theorem create_or_get_keeps_keys (env : Env) (data : LeadCreate.t) (w : World) :
  valid_lead_input data ->
  pending (session w) = [] ->
  (forall rows, interfere env rows = rows) ->
  well_keyed (leads w) ->
  well_keyed (leads (snd (create_or_get_lead env data w))).
Proof.
  intros (_ & _ & _ & Hwf) Hp Hquiet (Hkeys & Hids & Hsome).
  destruct (Db.key_taken (leads w) (_generate_dedupe_key env data)) eqn:Hk.
  - destruct (key_taken_find _ _ Hk) as (row & Hfind & _).
    rewrite (insert_refused env data w Hp Hk). cbv zeta.
    unfold after_rollback. cbn [leads]. rewrite Hquiet, Hfind.
    cbn [snd leads logged]. now repeat split.
  - destruct (created_row env data w Hwf Hp Hk) as (row & w1 & Hrun & Hrows & _ & Hrow).
    rewrite Hrun. cbn [snd]. rewrite Hrows.
    assert (Lead.dedupe_key row = _generate_dedupe_key env data) as Hkey
        by (destruct Hrow as [-> | (p & i & ->)]; reflexivity).
    assert (Lead.id row = Some (Db.next_id (leads w))) as Hid
        by (destruct Hrow as [-> | (p & i & ->)]; reflexivity).
    unfold well_keyed. rewrite !map_app. cbn [map]. repeat split.
    + apply NoDup_snoc; [exact Hkeys |]. rewrite Hkey. intros Hin.
      apply in_map_iff in Hin as (r & Hr & Hin).
      assert (Db.key_taken (leads w) (_generate_dedupe_key env data) = true) as C
          by (apply key_taken_iff; eauto).
      congruence.
    + apply NoDup_snoc; [exact Hids |]. rewrite Hid. apply next_id_not_in.
    + apply Forall_app. split; [exact Hsome |]. constructor; [| constructor].
      rewrite Hid. discriminate.
Qed.

Lemma create_or_get_keeps_keys_witness :
  let w2 := snd (create_or_get_lead env_later maria w_first) in
  valid_lead_input maria
  /\ well_keyed (leads w_first)
  /\ length (leads w_first) = 1%nat
  /\ well_keyed (leads w2)
  /\ length (leads w2) = 2%nat.
Proof.
  cbv zeta.
  assert (valid_lead_input maria) as Hvalid
      by (repeat split; [discriminate | repeat constructor]).
  assert (well_keyed (leads w_first)) as Hw.
  { assert (exists row, leads w_first = [row] /\ Lead.id row = Some 1) as (row & -> & Hid)
        by (eexists; split; vm_compute; reflexivity).
    repeat split; cbn [map].
    - constructor; [intros [] | constructor].
    - constructor; [intros [] | constructor].
    - constructor; [now rewrite Hid | constructor]. }
  split; [exact Hvalid |]. split; [exact Hw |]. split; [vm_compute; reflexivity |].
  split; [| vm_compute; reflexivity].
  apply (create_or_get_keeps_keys env_later maria w_first Hvalid); [| | exact Hw].
  - vm_compute. reflexivity.
  - intros rows. reflexivity.
Defined.





End Service.

(** ** The network traffic of a submission *)

Section Traffic.
Import ClickUpClient LeadService Samples Shape Scenarios.
Open Scope N_scope.
Variable P : Request -> Prop.

Lemma posts_of_app (a b : list IOEvent) : posts_of (a ++ b) = posts_of a ++ posts_of b.
Proof. apply flat_map_app. Qed.

Lemma sends_silent {A} (m : M A) : (forall w, io (snd (m w)) = io w) -> sends 0 P m.
Proof.
  intros H w. exists []. rewrite H, app_nil_r. repeat split; [constructor | apply le_n].
Qed.

Lemma sends_more {A} (n n' : nat) (m : M A) : (n <= n')%nat -> sends n P m -> sends n' P m.
Proof.
  intros Hle H w. destruct (H w) as (tr & H1 & H2 & H3). exists tr. repeat split; auto. lia.
Qed.

Lemma sends_bind {A B} (n k : nat) (m : M A) (f : A -> M B) :
  sends n P m -> (forall a, sends k P (f a)) -> sends (n + k) P (bind m f).
Proof.
  intros Hm Hf w. unfold bind. destruct (Hm w) as (tr & H1 & H2 & H3).
  destruct (m w) as [[a | e] w1]; cbn [snd] in *.
  - destruct (Hf a w1) as (tr' & H1' & H2' & H3').
    exists (tr ++ tr'). rewrite H1', H1, app_assoc, posts_of_app, length_app.
    repeat split; [apply Forall_app; auto | lia].
  - exists tr. repeat split; auto. lia.
Qed.

Lemma sends_try {A} (n k : nat) (body : M A) (handler : Exn -> M A) :
  sends n P body -> (forall e, sends k P (handler e)) ->
  sends (n + k) P (try_except body handler).
Proof.
  intros Hm Hf w. unfold try_except. destruct (Hm w) as (tr & H1 & H2 & H3).
  destruct (body w) as [[a | e] w1]; cbn [snd] in *.
  - exists tr. repeat split; auto. lia.
  - destruct (Hf e w1) as (tr' & H1' & H2' & H3').
    exists (tr ++ tr'). rewrite H1', H1, app_assoc, posts_of_app, length_app.
    repeat split; [apply Forall_app; auto | lia].
Qed.

Lemma sends_ret {A} (a : A) : sends 0 P (ret a).
Proof. now apply sends_silent. Qed.

Lemma sends_raise {A} (e : Exn) : sends 0 P (@raise A e).
Proof. now apply sends_silent. Qed.

Lemma sends_log (e : LogEvent) : sends 0 P (log_event e).
Proof. now apply sends_silent. Qed.

End Traffic.

Section SyncTraffic.
Import ClickUpClient LeadService Samples Shape Scenarios.
Open Scope N_scope.
Variable env : Env.
Variable self : ClickUpClient.t.

Lemma posts_paced req attempt outs :
  posts_of (paced req attempt outs) = map (pair req) outs.
Proof.
  revert attempt. induction outs as [|o rest IH]; intros attempt; [reflexivity |].
  cbn [paced]. destruct rest as [|o' rest']; [reflexivity |].
  change (posts_of (Posted req o :: Slept (backoff_delay attempt)
                      :: paced req (attempt + 1)%Z (o' :: rest')))
    with ((req, o) :: posts_of (paced req (attempt + 1)%Z (o' :: rest'))).
  now rewrite IH.
Qed.

Lemma sends_create_task name description due parent :
  sends (Z.to_nat (max_retries self)) (to_list self)
        (create_task env self name description due parent).
Proof.
  destruct (is_configured self) eqn:Hc.
  - intros w.
    destruct (create_task_request env self name description due parent w Hc)
      as (tr & lg & res & Hrun & Hshape).
    exists tr. rewrite Hrun. split; [reflexivity |].
    pose proof (run_posts_le _ _ _ _ _ _ _ Hshape) as Hle.
    rewrite (run_paced _ _ _ _ _ _ _ Hshape) by lia.
    rewrite posts_paced. split.
    + apply Forall_forall. intros p Hp. apply in_map_iff in Hp as (o & <- & _).
      now split.
    + rewrite length_map. exact Hle.
  - apply sends_more with (n := 0%nat); [lia |]. apply sends_silent. intros w.
    unfold create_task. now rewrite Hc.
Qed.

Lemma sends_create_subtasks parent_id due titles :
  forall idx sub_ids,
    sends (Z.to_nat (max_retries self) * length titles) (to_list self)
          (create_subtasks env self parent_id due titles idx sub_ids).
Proof.
  induction titles as [|title rest IH]; intros idx sub_ids.
  - rewrite Nat.mul_0_r. apply sends_ret.
  - cbn [create_subtasks length]. rewrite Nat.mul_succ_r, Nat.add_comm.
    apply sends_bind; [destruct idx; apply sends_create_task |].
    intros sub. apply sends_more with (n := (0 + (0 + Z.to_nat (max_retries self) * length rest))%nat);
      [lia |].
    apply sends_bind; [destruct sub; apply sends_silent; reflexivity |].
    intros sub_id. apply sends_bind; [apply sends_log |]. intros _. apply IH.
Qed.

Lemma sends_sync_body lead name description :
  sends (Z.to_nat (max_retries self) * (1 + length (_subtasks_from_env env))) (to_list self)
        (sync_body env self lead name description).
Proof.
  unfold sync_body. rewrite Nat.mul_add_distr_l, Nat.mul_1_r.
  apply sends_bind; [apply sends_create_task |]. intros parent.
  apply sends_more
    with (n := (0 + (0 + (0 + (Z.to_nat (max_retries self)
                                * length (_subtasks_from_env env) + 0))))%nat); [lia |].
  apply sends_bind; [destruct parent; apply sends_silent; reflexivity |]. intros skipped.
  destruct (truthy skipped).
  { apply sends_more with (n := (0 + 0)%nat); [lia |].
    apply sends_bind; [apply sends_log | intros _; apply sends_ret]. }
  apply sends_bind; [destruct parent; apply sends_silent; reflexivity |]. intros parent_id.
  apply sends_bind; [apply sends_log |]. intros _.
  apply sends_bind; [apply sends_create_subtasks |]. intros sub_ids.
  apply sends_more with (n := (0 + (0 + (0 + (0 + 0))))%nat); [lia |].
  apply sends_bind; [now apply sends_silent |]. intros sess.
  destruct sess; cbn [negb].
  - apply sends_bind; [now apply sends_silent |]. intros _.
    apply sends_bind.
    + apply sends_silent. intros w. unfold Db.refresh. now destruct (find _ _).
    + intros lead'. apply sends_bind; [apply sends_log | intros _; apply sends_ret].
  - apply sends_more with (n := (0 + 0)%nat); [lia |].
    apply sends_bind; [apply sends_log | intros _; apply sends_ret].
Qed.

End SyncTraffic.

Section SubmissionTraffic.
Import ClickUpClient LeadService Samples Shape Scenarios.
Open Scope N_scope.

Lemma sends_sync (env : Env) (lead : Lead.t) (data : LeadCreate.t) :
  sends (3 * (1 + length (_subtasks_from_env env))) (to_list (from_settings (settings env)))
        (_maybe_create_clickup_items env lead data).
Proof.
  unfold _maybe_create_clickup_items.
  set (self := from_settings (settings env)).
  set (n := (3 * (1 + length (_subtasks_from_env env)))%nat).
  destruct (is_configured self); cbn [negb].
  - apply sends_more with (n := (0 + (n + 0))%nat); [lia |].
    apply sends_bind.
    + destruct (truthy _); [| apply sends_ret].
      unfold join_value. destruct (Lead.intereses_servicios lead);
        try apply sends_raise; try apply sends_ret.
      destruct (all_strings items); [apply sends_ret | apply sends_raise].
    + intros intereses. apply sends_try.
      * apply (sends_sync_body env self).
      * intros e. apply sends_more with (n := (0 + 0)%nat); [lia |].
        destruct e; (apply sends_bind; [apply sends_log | intros _; apply sends_ret]).
  - apply sends_more with (n := (0 + 0)%nat); [lia |].
    apply sends_bind; [apply sends_log | intros _; apply sends_ret].
Qed.

(** X15.  Whatever the request and the state of the store, one call of
    [create_or_get_lead] only adds to the network trace; it sends at most
    three POSTs for the parent task and three for each configured
    subtask, every one of them to the task URL of the configured list
    and under the configured token. *)
Theorem submission_traffic (env : Env) (data : LeadCreate.t) (w : World) :
  exists tr,
    io (snd (create_or_get_lead env data w)) = io w ++ tr
    /\ Forall (fun p => to_list (from_settings (settings env)) (fst p)) (posts_of tr)
    /\ (length (posts_of tr) <= 3 * (1 + length (_subtasks_from_env env)))%nat.
Proof.
  revert w. change (sends (3 * (1 + length (_subtasks_from_env env)))
                          (to_list (from_settings (settings env)))
                          (create_or_get_lead env data)).
  set (n := (3 * (1 + length (_subtasks_from_env env)))%nat).
  unfold create_or_get_lead.
  apply sends_more with (n := (0 + ((0 + 0) + n))%nat); [lia |].
  apply sends_bind; [now apply sends_silent |]. intros _.
  apply sends_bind.
  - apply sends_try.
    + apply sends_more with (n := (0 + (0 + (0 + 0)))%nat); [lia |].
      apply sends_bind.
      * apply sends_silent. intros w. unfold Db.commit. now destruct (Db.flush _ _ _) as [[]|].
      * intros flushed. apply sends_bind.
        -- apply sends_silent. intros w. unfold Db.refresh. now destruct (find _ _).
        -- intros lead. apply sends_bind; [apply sends_log | intros _; apply sends_ret].
    + intros e. destruct e; try apply sends_raise.
      apply sends_more with (n := (0 + (0 + 0))%nat); [lia |].
      apply sends_bind; [now apply sends_silent |]. intros _.
      apply sends_bind; [now apply sends_silent |]. intros existing.
      destruct existing.
      * apply sends_more with (n := (0 + 0)%nat); [lia |].
        apply sends_bind; [apply sends_log | intros _; apply sends_ret].
      * apply sends_more with (n := (0 + 0)%nat); [lia |].
        apply sends_bind; [now apply sends_silent |]. intros fallback.
        destruct fallback; [| apply sends_raise].
        apply sends_more with (n := (0 + 0)%nat); [lia |].
        apply sends_bind; [apply sends_log | intros _; apply sends_ret].
  - intros [lead created]. destruct created; [| apply sends_more with (n := 0%nat); [lia |]; apply sends_ret].
    apply sends_more with (n := (n + 0)%nat); [lia |].
    apply sends_bind; [apply sends_sync | intros lead'; apply sends_ret].
Qed.

(** X16.  The dedupe key of the body as the webhook normalises it is the key
    of the body as it came: trimming the name, and trimming and
    lower-casing the address, before the service does the same changes
    nothing. *)
Theorem normalising_keeps_the_key (env : Env) (data : LeadCreate.t)
        (telefono : option str) (intereses : list str) (mensaje : option str) :
  _generate_dedupe_key env
    (LeadCreate.mk (strip (LeadCreate.nombre data))
                   (lower (strip (LeadCreate.correo data)))
                   telefono intereses mensaje)
  = _generate_dedupe_key env data.
Proof.
  apply dedupe_key_same; cbn [LeadCreate.nombre LeadCreate.correo].
  - now rewrite strip_lower, strip_strip, lower_lower.
  - apply strip_strip.
  - reflexivity.
Qed.

End SubmissionTraffic.

(** ** The webhook *)

Section WebhookProps.
Import ClickUpClient LeadService Samples Shape Scenarios.
Open Scope N_scope.
Import Webhook.
Open Scope Z_scope.

Lemma wf_app (a b : str) : wf (a ++ b) = true -> wf a = true /\ wf b = true.
Proof.
  induction a as [|c a IH]; [now split |].
  cbn [app wf]. intros H. apply andb_true_iff in H as [H Hrest].
  apply andb_true_iff in H as [Hc Hpair].
  destruct (IH Hrest) as [Ha Hb]. split; [| exact Hb].
  rewrite Hc, Ha. destruct a as [|c' a]; [now rewrite andb_false_r |].
  cbn [app] in Hpair. now rewrite Hpair.
Qed.

Lemma wf_strip (s : str) : wf s = true -> wf (strip s) = true.
Proof.
  intros H. destruct (strip_middle s) as (p & q & Hs & _). rewrite Hs in H.
  apply wf_app in H as [_ H]. now apply wf_app in H as [H _].
Qed.

Lemma authorised_guard (cfg : Config) (x : option str) :
  negb (nonempty (FORM_SHARED_SECRET cfg)) || differs x (FORM_SHARED_SECRET cfg) = false
  <-> authorised cfg x.
Proof.
  unfold authorised, differs. rewrite orb_false_iff, negb_false_iff, nonempty_iff.
  split; intros [H1 H2]; (split; [exact H1 |]).
  - destruct x as [s|]; [| discriminate]. apply negb_false_iff, str_eqb_eq in H2. now subst.
  - subst x. now rewrite str_eqb_refl.
Qed.

(** A call that raises, or returns [False], found the key taken; one
    that returns [True] found it free. *)
Lemma created_key_free (env : Env) (data : LeadCreate.t) (w : World)
      (row : Lead.t) (w' : World) :
  pending (session w) = [] ->
  create_or_get_lead env data w = (Ok (row, true), w') ->
  Db.key_taken (leads w) (_generate_dedupe_key env data) = false.
Proof.
  intros Hp Hrun.
  destruct (Db.key_taken (leads w) (_generate_dedupe_key env data)) eqn:Hk; [| reflexivity].
  rewrite (insert_refused env data w Hp Hk) in Hrun. cbv zeta in Hrun.
  destruct (find _ _); [discriminate |]. destruct (Db.latest _); discriminate.
Qed.

Lemma duplicate_row (env : Env) (data : LeadCreate.t) (w : World)
      (row : Lead.t) (w' : World) :
  pending (session w) = [] ->
  create_or_get_lead env data w = (Ok (row, false), w') ->
  leads w' = interfere env (leads w) /\ In row (leads w') /\ io w' = io w.
Proof.
  intros Hp Hrun.
  pose proof (duplicate_key_taken env data w row w' Hp Hrun) as Hk.
  rewrite (insert_refused env data w Hp Hk) in Hrun. cbv zeta in Hrun.
  unfold after_rollback in Hrun. cbn [leads] in Hrun.
  destruct (find _ (interfere env (leads w))) as [r|] eqn:Ef.
  - injection Hrun as <- <-. destruct (find_some _ _ Ef) as [Hin _]. now repeat split.
  - pose proof (latest_spec (filter (fun r => PyStr.eqb (Lead.correo r)
                                                       (lower (LeadCreate.correo data)))
                                    (interfere env (leads w)))) as Hl.
    destruct (Db.latest _) as [r|]; [| discriminate].
    injection Hrun as <- <-. destruct Hl as [Hin _]. apply filter_In in Hin as [Hin _].
    now repeat split.
Qed.

Lemma all_strings_spec (items : list JValue) (l : list str) :
  all_strings items = Some l -> items = map JString l.
Proof.
  revert l. induction items as [|v items IH]; intros l E.
  - now injection E as <-.
  - cbn in E. destruct v; try discriminate.
    destruct (all_strings items) as [l'|]; [| discriminate].
    injection E as <-. cbn. f_equal. now apply IH.
Qed.

Lemma model_validate_id (cfg : Config) (lead : Lead.t) (resp : LeadResponse) :
  model_validate cfg lead = Some resp ->
  Lead.id lead = Some (id resp)
  /\ nombre resp = Lead.nombre lead
  /\ telefono resp = Lead.telefono lead
  /\ mensaje resp = Lead.mensaje lead
  /\ Lead.intereses_servicios lead = Lead.py_list (intereses_servicios resp).
Proof.
  unfold model_validate.
  destruct (Lead.id lead) as [i|]; [| discriminate].
  destruct (validate_email cfg _) as [address|]; [| discriminate].
  destruct (Lead.intereses_servicios lead) as [ | | | | | items |]; try discriminate.
  destruct (all_strings items) as [l|] eqn:E; [| discriminate].
  intros [= <-]. cbn. repeat split. unfold Lead.py_list. f_equal.
  now apply all_strings_spec.
Qed.

(** X17.  The handler refuses, with HTTP 401 and before anything else, every
    request that does not carry the secret of the settings, and every
    request at all when the settings hold no secret; the table, the
    network and the log of the service are as they were.  It raises
    HTTP 401 in no other case. *)
Theorem webhook_requires_secret (cfg : Config) (env : Env) (payload : LeadCreate.t)
        (x : option str) (w : World) (events : list Event) :
  let run := receive_webhook cfg env payload x w events in
  (~ authorised cfg x ->
   run = (inl (HTTPException 401 s!"Unauthorized"), close w,
          events ++ [webhook_received (has_text x); webhook_unauthorized])
   /\ leads (close w) = leads w /\ io (close w) = io w /\ log (close w) = log w)
  /\ (authorised cfg x -> forall status detail, fst (fst run) <> inl (HTTPException status detail)).
Proof.
  cbv zeta. unfold receive_webhook, handle.
  destruct (negb (nonempty (FORM_SHARED_SECRET cfg)) || differs x (FORM_SHARED_SECRET cfg))
    eqn:G.
  - split.
    + intros _. rewrite <- app_assoc. now repeat split.
    + intros Ha. apply authorised_guard in Ha. congruence.
  - split.
    + intros Hn. apply authorised_guard in G. contradiction.
    + intros _ status detail.
      destruct (new_LeadCreate _ _ _ _ _ _) as [data|]; [| discriminate].
      destruct (create_or_get_lead env data (SessionLocal w)) as [[[lead created] | e] db];
        [| discriminate].
      destruct (model_validate cfg lead); [| discriminate].
      destruct created; discriminate.
Qed.

Lemma webhook_requires_secret_witness :
  let cfg := mkConfig [] (fun s => Some s) in
  ~ authorised cfg (Some [])
  /\ receive_webhook cfg env_first jose (Some []) empty_world []
     = (inl (HTTPException 401 s!"Unauthorized"), close empty_world,
        [webhook_received false; webhook_unauthorized]).
Proof.
  cbv zeta.
  assert (~ authorised (mkConfig [] (fun s => Some s)) (Some [])) as Hn
      by (intros [H _]; now apply H).
  split; [exact Hn |].
  apply (proj1 (webhook_requires_secret (mkConfig [] (fun s => Some s)) env_first jose
                  (Some []) empty_world []) Hn).
Defined.

(** X18.  A name of whitespace only passes the validation of the request body
    (it has a code point) but not that of the normalised body: the
    handler raises [ValidationError] before it reaches the store. *)
Theorem webhook_blank_name (cfg : Config) (env : Env) (payload : LeadCreate.t)
        (x : option str) (w : World) (events : list Event) :
  authorised cfg x ->
  blank (LeadCreate.nombre payload) = true ->
  receive_webhook cfg env payload x w events
  = (inl ValidationError, close w, events ++ [webhook_received true]).
Proof.
  intros Ha Hb. unfold receive_webhook, handle.
  rewrite (proj2 (authorised_guard cfg x) Ha).
  apply strip_blank in Hb. unfold new_LeadCreate. rewrite Hb. cbn [nonempty].
  destruct Ha as [Hs ->]. unfold has_text.
  destruct (FORM_SHARED_SECRET cfg); [contradiction | reflexivity].
Qed.

Lemma webhook_blank_name_witness :
  authorised cfg0 (Some s!"s3cret")
  /\ LeadCreate.nombre (LeadCreate.mk s!"  " s!"a@b.co" None [] None) <> []
  /\ receive_webhook cfg0 env_first (LeadCreate.mk s!"  " s!"a@b.co" None [] None)
                     (Some s!"s3cret") empty_world []
     = (inl ValidationError, close empty_world, [webhook_received true]).
Proof.
  assert (authorised cfg0 (Some s!"s3cret")) as Ha by (split; [discriminate | reflexivity]).
  split; [exact Ha |]. split; [discriminate |].
  apply (webhook_blank_name cfg0 env_first (LeadCreate.mk s!"  " s!"a@b.co" None [] None)
           (Some s!"s3cret") empty_world [] Ha eq_refl).
Defined.

(** What a run of the handler that answers went through. *)
Lemma answered (cfg : Config) (env : Env) (payload : LeadCreate.t)
      (x : option str) (w : World) (events : list Event)
      (status : Z) (resp : LeadResponse) (w1 : World) (events1 : list Event) :
  receive_webhook cfg env payload x w events = (inr (status, resp), w1, events1) ->
  exists data lead created db,
    authorised cfg x
    /\ normalized cfg payload = Some data
    /\ create_or_get_lead env data (SessionLocal w) = (Ok (lead, created), db)
    /\ model_validate cfg lead = Some resp
    /\ status = (if created then 201 else 200)
    /\ w1 = close db.
Proof.
  unfold receive_webhook, handle. fold (normalized cfg payload).
  destruct (negb (nonempty (FORM_SHARED_SECRET cfg)) || differs x (FORM_SHARED_SECRET cfg))
    eqn:G; [discriminate |].
  apply authorised_guard in G.
  destruct (normalized cfg payload) as [data|]; [| discriminate].
  destruct (create_or_get_lead env data (SessionLocal w)) as [[[lead created] | e] db] eqn:E;
    [| discriminate].
  destruct (model_validate cfg lead) as [r|] eqn:V; [| discriminate].
  destruct created; intros [= <- <- <- <-];
    [exists data, lead, true, db | exists data, lead, false, db];
    (split; [exact G |]); now repeat split.
Qed.

Lemma normalized_fields (cfg : Config) (payload data : LeadCreate.t) :
  normalized cfg payload = Some data ->
  LeadCreate.nombre data = strip (LeadCreate.nombre payload)
  /\ LeadCreate.nombre data <> []
  /\ validate_email cfg (lower (strip (LeadCreate.correo payload)))
     = Some (LeadCreate.correo data)
  /\ LeadCreate.telefono data = strip_or_none (LeadCreate.telefono payload)
  /\ LeadCreate.intereses_servicios data = map strip (LeadCreate.intereses_servicios payload)
  /\ LeadCreate.mensaje data = strip_or_none (LeadCreate.mensaje payload).
Proof.
  unfold normalized, new_LeadCreate.
  destruct (strip (LeadCreate.nombre payload)) eqn:En; [discriminate |]. cbn [nonempty].
  destruct (validate_email cfg _) as [address|]; [| discriminate].
  intros [= <-]. cbn. repeat split. discriminate.
Qed.

Lemma Forall_wf_strip (l : list str) :
  Forall (fun s => wf s = true) l -> Forall (fun s => wf s = true) (map strip l).
Proof.
  intros H. apply Forall_forall. intros s Hs. apply in_map_iff in Hs as (t & <- & Ht).
  rewrite Forall_forall in H. apply wf_strip. now apply H.
Qed.

(** X19.  The status of an answer tells whether the request created the
    lead.  With 201, the key of the normalised body was not in the table,
    and the table afterwards is the one before with one more row, that of
    the answer.  With 200, the key was there; no row was added or
    changed, nothing was sent to ClickUp, and the answer is a row of the
    table. *)
Theorem webhook_status (cfg : Config) (env : Env) (payload : LeadCreate.t)
        (x : option str) (w : World) (events : list Event)
        (status : Z) (resp : LeadResponse) (w1 : World) (events1 : list Event) :
  Forall (fun s => wf s = true) (LeadCreate.intereses_servicios payload) ->
  receive_webhook cfg env payload x w events = (inr (status, resp), w1, events1) ->
  exists data row,
    normalized cfg payload = Some data
    /\ Lead.id row = Some (id resp)
    /\ ((status = 201
         /\ Db.key_taken (leads w) (_generate_dedupe_key env data) = false
         /\ leads w1 = leads w ++ [row])
        \/ (status = 200
            /\ Db.key_taken (leads w) (_generate_dedupe_key env data) = true
            /\ leads w1 = interfere env (leads w)
            /\ In row (leads w1)
            /\ io w1 = io w)).
Proof.
  intros Hwf Hrun.
  destruct (answered _ _ _ _ _ _ _ _ _ _ Hrun)
    as (data & lead & created & db & Ha & Hn & Hcall & Hv & -> & ->).
  destruct (model_validate_id _ _ _ Hv) as (Hid & _).
  exists data, lead. split; [exact Hn |]. split; [exact Hid |].
  destruct created.
  - left. split; [reflexivity |].
    pose proof (created_key_free env data (SessionLocal w) lead db eq_refl Hcall) as Hk.
    split; [exact Hk |].
    destruct (normalized_fields _ _ _ Hn) as (_ & _ & _ & _ & Hi & _).
    assert (Forall (fun s => wf s = true) (LeadCreate.intereses_servicios data)) as Hwf'
        by (rewrite Hi; now apply Forall_wf_strip).
    destruct (created_row env data (SessionLocal w) Hwf' eq_refl Hk)
      as (row & w2 & Hrun2 & Hrows & _).
    rewrite Hcall in Hrun2. injection Hrun2 as <- <-. exact Hrows.
  - right. split; [reflexivity |].
    split; [exact (duplicate_key_taken env data (SessionLocal w) lead db eq_refl Hcall) |].
    destruct (duplicate_row env data (SessionLocal w) lead db eq_refl Hcall)
      as (H1 & H2 & H3).
    now repeat split.
Qed.

End WebhookProps.

Section WebhookRuns.
Import ClickUpClient LeadService Samples Shape Scenarios.
Open Scope N_scope.
Import Webhook.
Open Scope Z_scope.

Lemma py_list_inj (l l' : list str) : Lead.py_list l = Lead.py_list l' -> l = l'.
Proof.
  unfold Lead.py_list. intros [= H]. revert l' H.
  induction l as [|s l IH]; intros [|s' l'] H; try discriminate; [reflexivity |].
  cbn in H. injection H as -> H. f_equal. now apply IH.
Qed.

(** The run of the service behind an answer of 201. *)
Lemma answered_created (cfg : Config) (env : Env) (payload : LeadCreate.t)
      (x : option str) (w : World) (events : list Event)
      (resp : LeadResponse) (w1 : World) (events1 : list Event) :
  Forall (fun s => wf s = true) (LeadCreate.intereses_servicios payload) ->
  receive_webhook cfg env payload x w events = (inr (201, resp), w1, events1) ->
  exists data lead db,
    authorised cfg x
    /\ normalized cfg payload = Some data
    /\ Forall (fun s => wf s = true) (LeadCreate.intereses_servicios data)
    /\ Db.key_taken (leads w) (_generate_dedupe_key env data) = false
    /\ model_validate cfg lead = Some resp
    /\ w1 = close db
    /\ leads db = leads w ++ [lead]
    /\ (lead = inserted env data (leads w)
        \/ exists parent_id sub_ids,
             lead = written_back env (inserted env data (leads w)) parent_id sub_ids).
Proof.
  intros Hwf Hrun.
  destruct (answered _ _ _ _ _ _ _ _ _ _ Hrun)
    as (data & lead & created & db & Ha & Hn & Hcall & Hv & Hst & ->).
  destruct created; [| discriminate].
  pose proof (created_key_free env data (SessionLocal w) lead db eq_refl Hcall) as Hk.
  destruct (normalized_fields _ _ _ Hn) as (_ & _ & _ & _ & Hi & _).
  assert (Forall (fun s => wf s = true) (LeadCreate.intereses_servicios data)) as Hwf'
      by (rewrite Hi; now apply Forall_wf_strip).
  destruct (created_row env data (SessionLocal w) Hwf' eq_refl Hk)
    as (row & w2 & Hrun2 & Hrows & _ & Hrow).
  rewrite Hcall in Hrun2. injection Hrun2 as <- <-.
  exists data, lead, db. split; [exact Ha |]. repeat split; auto.
Qed.

(** X20.  An answer of 201 gives back what was sent, normalised: the name
    and the interests without the whitespace at their ends, the
    telephone and the message likewise ([None] when they were missing or
    empty), under the primary key of the new row. *)
Theorem webhook_answers_what_was_sent (cfg : Config) (env : Env) (payload : LeadCreate.t)
        (x : option str) (w : World) (events : list Event)
        (resp : LeadResponse) (w1 : World) (events1 : list Event) :
  Forall (fun s => wf s = true) (LeadCreate.intereses_servicios payload) ->
  receive_webhook cfg env payload x w events = (inr (201, resp), w1, events1) ->
  id resp = Db.next_id (leads w)
  /\ nombre resp = strip (LeadCreate.nombre payload)
  /\ telefono resp = strip_or_none (LeadCreate.telefono payload)
  /\ mensaje resp = strip_or_none (LeadCreate.mensaje payload)
  /\ intereses_servicios resp = map strip (LeadCreate.intereses_servicios payload).
Proof.
  intros Hwf Hrun.
  destruct (answered_created _ _ _ _ _ _ _ _ _ Hwf Hrun)
    as (data & lead & db & _ & Hn & Hwf' & _ & Hv & _ & _ & Hrow).
  destruct (model_validate_id _ _ _ Hv) as (Hid & Hnombre & Htel & Hmsg & Hint).
  destruct (normalized_fields _ _ _ Hn) as (Hn1 & _ & _ & Hn4 & Hn5 & Hn6).
  assert (Lead.intereses_servicios_json lead
          = Lead.dump_list (LeadCreate.intereses_servicios data)) as Hjson
      by (destruct Hrow as [-> | (p & i & ->)]; reflexivity).
  repeat split.
  - assert (Lead.id lead = Some (Db.next_id (leads w))) as Hid'
        by (destruct Hrow as [-> | (p & i & ->)]; reflexivity).
    congruence.
  - rewrite Hnombre, <- Hn1. destruct Hrow as [-> | (p & i & ->)]; reflexivity.
  - rewrite Htel, <- Hn4. destruct Hrow as [-> | (p & i & ->)]; reflexivity.
  - rewrite Hmsg, <- Hn6. destruct Hrow as [-> | (p & i & ->)]; reflexivity.
  - rewrite <- Hn5. apply py_list_inj. rewrite <- Hint.
    unfold Lead.intereses_servicios. rewrite Hjson.
    now apply load_list_dump_list.
Qed.


Lemma webhook_status_witness :
  Forall (fun s => wf s = true) (LeadCreate.intereses_servicios form)
  /\ exists resp w1 events1 row,
      receive_webhook cfg0 env_first form (Some s!"s3cret") empty_world []
      = (inr (201, resp), w1, events1)
      /\ Lead.id row = Some (id resp)
      /\ leads w1 = [row].
Proof.
  assert (Forall (fun s => wf s = true) (LeadCreate.intereses_servicios form)) as Hwf
      by (repeat constructor).
  split; [exact Hwf |].
  set (run := receive_webhook cfg0 env_first form (Some s!"s3cret") empty_world []).
  assert (exists resp, run = (inr (201, resp), snd (fst run), snd run)) as (resp & Hrun)
      by (eexists; vm_compute; reflexivity).
  destruct (webhook_status cfg0 env_first form (Some s!"s3cret") empty_world [] _ _ _ _
                           Hwf Hrun) as (data & row & _ & Hid & Hcases).
  exists resp, (snd (fst run)), (snd run), row. split; [exact Hrun |]. split; [exact Hid |].
  destruct Hcases as [(_ & _ & H) | (C & _)]; [exact H | discriminate].
Defined.

Lemma webhook_answers_what_was_sent_witness :
  Forall (fun s => wf s = true) (LeadCreate.intereses_servicios form)
  /\ exists resp w1 events1,
      receive_webhook cfg0 env_first form (Some s!"s3cret") empty_world []
      = (inr (201, resp), w1, events1)
      /\ nombre resp = s!"Jose Guerrero"
      /\ telefono resp = Some []
      /\ mensaje resp = None
      /\ intereses_servicios resp = [s!"riego"; s!"diseño"].
Proof.
  assert (Forall (fun s => wf s = true) (LeadCreate.intereses_servicios form)) as Hwf
      by (repeat constructor).
  split; [exact Hwf |].
  set (run := receive_webhook cfg0 env_first form (Some s!"s3cret") empty_world []).
  assert (exists resp, run = (inr (201, resp), snd (fst run), snd run)) as (resp & Hrun)
      by (eexists; vm_compute; reflexivity).
  destruct (webhook_answers_what_was_sent cfg0 env_first form (Some s!"s3cret") empty_world
              [] _ _ _ Hwf Hrun) as (_ & H2 & H3 & H4 & H5).
  exists resp, (snd (fst run)), (snd run).
  split; [exact Hrun |].
  rewrite H2, H3, H4, H5. vm_compute. repeat split.
Defined.


End WebhookRuns.

(** ** The startup migrations *)

Section MigrationProps.
Import ClickUpClient LeadService Samples Shape Scenarios.
Open Scope N_scope.
Import Migrations.

Lemma grown_refl (added : list str) (t : str * list str) : grown added t t.
Proof. split; [reflexivity |]. exists []. rewrite app_nil_r. split; [reflexivity | easy]. Qed.

Lemma Forall2_grown_refl (added : list str) (tbls : list (str * list str)) :
  Forall2 (grown added) tbls tbls.
Proof. induction tbls; constructor; auto using grown_refl. Qed.

Lemma grown_trans (added : list str) (a b c : str * list str) :
  grown added a b -> grown added b c -> grown added a c.
Proof.
  intros (H1 & x & Hx & Ix) (H2 & y & Hy & Iy). split; [congruence |].
  exists (x ++ y). rewrite Hy, Hx, app_assoc. split; [reflexivity |].
  now apply incl_app.
Qed.

Lemma Forall2_grown_trans (added : list str) (a b c : list (str * list str)) :
  Forall2 (grown added) a b -> Forall2 (grown added) b c -> Forall2 (grown added) a c.
Proof.
  intros H. revert c. induction H; intros c Hc; inversion Hc; subst; constructor.
  - eapply grown_trans; eauto.
  - auto.
Qed.

Lemma add_column_grown (added : list str) (tbls tbls' : list (str * list str))
      (table column : str) :
  In column added ->
  add_column tbls table column = Some tbls' ->
  Forall2 (grown added) tbls tbls'.
Proof.
  intros Hin. revert tbls'. induction tbls as [|[name cols] rest IH]; intros tbls' H.
  - discriminate.
  - cbn in H. destruct (same_name name table).
    + destruct (existsb _ cols); [discriminate |]. injection H as <-.
      constructor; [| apply Forall2_grown_refl].
      split; [reflexivity |]. exists [column]. split; [reflexivity |].
      intros c [<- | []]. exact Hin.
    + destruct (add_column rest table column) as [rest'|]; [| discriminate].
      injection H as <-. constructor; [apply grown_refl | now apply IH].
Qed.

(** The columns of the table after a column was added to it. *)
Lemma add_column_columns (tbls tbls' : list (str * list str)) (table column : str) :
  add_column tbls table column = Some tbls' ->
  columns_of tbls' table = columns_of tbls table ++ [column].
Proof.
  revert tbls'. induction tbls as [|[name cols] rest IH]; intros tbls' H.
  - discriminate.
  - cbn in H. unfold columns_of. cbn [find fst].
    destruct (same_name name table) eqn:E.
    + destruct (existsb _ cols); [discriminate |]. injection H as <-.
      cbn [find fst]. now rewrite E.
    + destruct (add_column rest table column) as [rest'|]; [| discriminate].
      injection H as <-. cbn [find fst]. rewrite E. now apply IH.
Qed.

Lemma add_column_fresh (tbls : list (str * list str)) (table column : str) :
  columns_of tbls table <> [] ->
  existsb (same_name column) (columns_of tbls table) = false ->
  exists tbls', add_column tbls table column = Some tbls'.
Proof.
  unfold columns_of. induction tbls as [|[name cols] rest IH]; [easy |].
  cbn [find fst add_column]. destruct (same_name name table).
  - intros _ ->. eauto.
  - intros H1 H2. destruct (IH H1 H2) as (rest' & ->). eauto.
Qed.

Lemma step_ok_refl (s : State) : step_ok s s.
Proof.
  repeat split; [apply Forall2_grown_refl |]. exists []. now rewrite app_nil_r.
Qed.

Lemma step_ok_trans (a b c : State) : step_ok a b -> step_ok b c -> step_ok a c.
Proof.
  intros (H1 & H2 & x & Hx) (H1' & H2' & y & Hy). repeat split; [congruence | |].
  - eapply Forall2_grown_trans; eauto.
  - exists (x ++ y). now rewrite Hy, Hx, app_assoc.
Qed.

Lemma step_ok_info (e : Event) (s : State) : step_ok s (info e s).
Proof. repeat split; [apply Forall2_grown_refl |]. now exists [e]. Qed.

Lemma exec_ok (drv : Driver) (st : Statement) (s : State) :
  (forall t c, st = AddColumn t c -> In (column_name c) NEW_COLUMNS) ->
  step_ok s (snd (exec_driver_sql drv st s)).
Proof.
  intros Hst. unfold exec_driver_sql. destruct (drv _ _).
  - repeat split; [apply Forall2_grown_refl |]. exists []. cbn. now rewrite app_nil_r.
  - destruct st as [t | t c].
    + repeat split; [apply Forall2_grown_refl |]. exists []. cbn. now rewrite app_nil_r.
    + destruct (add_column _ _ _) as [tbls|] eqn:E.
      * repeat split; cbn.
        -- eapply add_column_grown; [| exact E]. now apply (Hst t c).
        -- exists []. now rewrite app_nil_r.
      * repeat split; [apply Forall2_grown_refl |]. exists []. cbn. now rewrite app_nil_r.
Qed.

Lemma add_column_sqlite_ok (drv : Driver) (table coldef : str) (s : State) :
  In (column_name coldef) NEW_COLUMNS ->
  step_ok s (snd (_add_column_sqlite drv table coldef s)).
Proof.
  intros Hin. unfold _add_column_sqlite, and_then.
  pose proof (exec_ok drv (AddColumn table coldef) s) as H.
  destruct (exec_driver_sql _ _ s) as [[e | rows] s1]; cbn [snd] in *.
  - apply H. now intros t c [= -> ->].
  - eapply step_ok_trans; [apply H; now intros t c [= -> ->] | apply step_ok_info].
Qed.

Lemma migrate_leads_ok (drv : Driver) (s : State) : step_ok s (snd (migrate_leads drv s)).
Proof.
  unfold migrate_leads, and_then at 1, _table_columns.
  pose proof (exec_ok drv (TableInfo s!"leads") s ltac:(discriminate)) as H0.
  destruct (exec_driver_sql drv (TableInfo s!"leads") s) as [[e | cols] s1]; cbn [snd] in *;
    [exact H0 |].
  destruct cols as [|c cols]; [eapply step_ok_trans; [exact H0 | apply step_ok_info] |].
  unfold and_then at 1.
  assert (step_ok s1 (snd ((if has s!"external_task_id" (c :: cols)
                            then fun s => (inr tt, s)
                            else _add_column_sqlite drv s!"leads"
                                   s!"external_task_id VARCHAR(64)") s1))) as H1.
  { destruct (has _ _); [apply step_ok_refl |].
    apply add_column_sqlite_ok. left. reflexivity. }
  destruct ((if has s!"external_task_id" (c :: cols) then _ else _) s1) as [[e | []] s2];
    cbn [snd] in *; [eapply step_ok_trans; eauto |].
  unfold and_then at 1.
  assert (step_ok s2 (snd ((if has s!"external_subtask_ids" (c :: cols)
                            then fun s => (inr tt, s)
                            else _add_column_sqlite drv s!"leads"
                                   s!"external_subtask_ids TEXT") s2))) as H2.
  { destruct (has _ _); [apply step_ok_refl |].
    apply add_column_sqlite_ok. right. left. reflexivity. }
  destruct ((if has s!"external_subtask_ids" (c :: cols) then _ else _) s2) as [[e | []] s3];
    cbn [snd] in *.
  - eapply step_ok_trans; [exact H0 |]. eapply step_ok_trans; eauto.
  - eapply step_ok_trans; [exact H0 |]. eapply step_ok_trans; [exact H1 |].
    eapply step_ok_trans; [exact H2 | apply step_ok_info].
Qed.

Lemma run_ok (drv : Driver) (s : State) :
  fst (run_startup_migrations drv s) = inr tt
  /\ step_ok s (snd (run_startup_migrations drv s)).
Proof.
  unfold run_startup_migrations.
  destruct (negb (PyStr.eqb (backend s) s!"sqlite")).
  - split; [reflexivity |]. apply step_ok_info.
  - pose proof (migrate_leads_ok drv s) as H.
    destruct (migrate_leads drv s) as [[e | []] s1]; cbn [fst snd] in *.
    + split; [reflexivity |]. eapply step_ok_trans; [exact H | apply step_ok_info].
    + split; [reflexivity | exact H].
Qed.

(** X22.  The startup migrations never raise, whatever the driver does, and
    are never destructive: the backend is the same, every table keeps
    its name and its columns in their order, and the only columns that
    can appear are the two of the ClickUp identifiers, at the end of a
    table; the log only grows. *)
Theorem migrations_never_raise_nor_destroy (drv : Driver) (s : State) :
  let run := run_startup_migrations drv s in
  fst run = inr tt
  /\ backend (snd run) = backend s
  /\ Forall2 (grown NEW_COLUMNS) (tables s) (tables (snd run))
  /\ exists evs, events (snd run) = events s ++ evs.
Proof. apply run_ok. Qed.

End MigrationProps.

Section MigrationRuns.
Import ClickUpClient LeadService Samples Shape Scenarios.
Open Scope N_scope.
Import Migrations.

Lemma has_app (n : str) (a b : list str) : has n (a ++ b) = has n a || has n b.
Proof. apply existsb_app. Qed.

Lemma has_In (n : str) (cols : list str) : has n cols = true <-> In n cols.
Proof.
  unfold has. rewrite existsb_exists. split.
  - intros (c & Hin & Hc). apply str_eqb_eq in Hc. now subst.
  - intros Hin. exists n. split; [exact Hin | apply str_eqb_refl].
Qed.

(** One conditional [ALTER TABLE] of the migration, for the column [n]
    of definition [coldef], in a state whose table has the columns
    [now]; [cols] are the columns read at the start. *)
Lemma add_if_missing (drv : Driver) (n coldef : str) (cols : list str) (s : State) :
  column_name coldef = n ->
  match (if has n cols then fun s => (inr tt, s)
         else _add_column_sqlite drv s!"leads" coldef) s with
  | (inl e, s') => tables s' = tables s /\ backend s' = backend s
  | (inr _, s') =>
      backend s' = backend s
      /\ columns_of (tables s') s!"leads"
         = columns_of (tables s) s!"leads" ++ (if has n cols then [] else [n])
      /\ ((forall t, In t (statements s') -> exists x, t = TableInfo x) ->
          has n cols = true /\ s' = s)
  end.
Proof.
  intros Hn. destruct (has n cols) eqn:Hh.
  - split; [reflexivity |]. split; [now rewrite app_nil_r | now split].
  - unfold _add_column_sqlite, and_then, exec_driver_sql. rewrite Hn.
    destruct (drv _ _); [now split |].
    destruct (add_column (tables s) s!"leads" n) as [tbls|] eqn:E; [| now split].
    cbn [backend tables info statements].
    split; [reflexivity |]. split; [now apply add_column_columns |].
    intros H. exfalso.
    destruct (H (AddColumn s!"leads" coldef)) as (x & Hx); [| discriminate].
    apply in_or_app. right. now left.
Qed.

(** The ways the [try] block can end. *)
Lemma migrate_leads_cases (drv : Driver) (s : State) :
  let cols := columns_of (tables s) s!"leads" in
  match migrate_leads drv s with
  | (inl e, s') => True
  | (inr _, s') =>
      (cols = [] /\ tables s' = tables s
       /\ events s' = events s ++ [db_migration_skipped s!"leads_table_missing" None])
      \/ (cols <> []
          /\ columns_of (tables s') s!"leads" = cols ++ missing cols
          /\ ended_with s' (db_migration_done s!"leads"))
  end.
Proof.
  cbv zeta. unfold migrate_leads, and_then at 1, _table_columns, exec_driver_sql.
  destruct (drv _ _); [exact I |].
  destruct (columns_of (tables s) s!"leads") as [|c cols] eqn:Ec.
  { left. now repeat split. }
  set (s1 := mkState (backend s) (tables s) (statements s ++ [TableInfo s!"leads"]) (events s)).
  unfold and_then at 1.
  pose proof (add_if_missing drv s!"external_task_id" s!"external_task_id VARCHAR(64)"
                             (c :: cols) s1 eq_refl) as H1.
  destruct ((if has s!"external_task_id" (c :: cols) then _ else _) s1) as [[e | u] s2];
    [exact I |].
  destruct H1 as (_ & Hc1 & _).
  unfold and_then at 1.
  pose proof (add_if_missing drv s!"external_subtask_ids" s!"external_subtask_ids TEXT"
                             (c :: cols) s2 eq_refl) as H2.
  destruct ((if has s!"external_subtask_ids" (c :: cols) then _ else _) s2) as [[e | u'] s3];
    [exact I |].
  destruct H2 as (_ & Hc2 & _).
  right. split; [discriminate |]. split.
  - cbn [tables info]. rewrite Hc2, Hc1. subst s1. cbn [tables]. rewrite Ec, <- app_assoc.
    f_equal. unfold missing, NEW_COLUMNS. cbn [filter].
    destruct (has s!"external_task_id" (c :: cols)),
             (has s!"external_subtask_ids" (c :: cols)); reflexivity.
  - now exists (events s3).
Qed.

Lemma final_columns (cols : list str) :
  has s!"external_task_id" (cols ++ missing cols) = true
  /\ has s!"external_subtask_ids" (cols ++ missing cols) = true.
Proof.
  rewrite !has_app. unfold missing, NEW_COLUMNS. cbn [filter].
  destruct (has s!"external_task_id" cols), (has s!"external_subtask_ids" cols);
    split; reflexivity.
Qed.

(** A run that ends with [db_migration_done] leaves the table of the
    leads with the two columns. *)
Lemma done_has_columns (drv : Driver) (s : State) :
  ended_with (snd (run_startup_migrations drv s)) (db_migration_done s!"leads") ->
  backend s = s!"sqlite"
  /\ has s!"external_task_id"
         (columns_of (tables (snd (run_startup_migrations drv s))) s!"leads") = true
  /\ has s!"external_subtask_ids"
         (columns_of (tables (snd (run_startup_migrations drv s))) s!"leads") = true.
Proof.
  unfold run_startup_migrations.
  destruct (PyStr.eqb (backend s) s!"sqlite") eqn:Eb; cbn [negb].
  2:{ intros (evs & H). cbn in H. apply app_inj_tail in H as [_ H]. discriminate. }
  apply str_eqb_eq in Eb.
  pose proof (migrate_leads_cases drv s) as H. cbv zeta in H.
  destruct (migrate_leads drv s) as [[e | []] s1]; cbn [snd].
  - intros (evs & He). cbn in He. apply app_inj_tail in He as [_ He]. discriminate.
  - destruct H as [(_ & _ & Hev) | (_ & Hcols & _)].
    + intros (evs & He). rewrite Hev in He. apply app_inj_tail in He as [_ He]. discriminate.
    + intros _. split; [exact Eb |]. rewrite Hcols. apply final_columns.
Qed.

(** With the two columns in the table, the [try] block changes no table
    and sends no [ALTER TABLE]. *)
Lemma nothing_to_add (drv : Driver) (s : State) :
  has s!"external_task_id" (columns_of (tables s) s!"leads") = true ->
  has s!"external_subtask_ids" (columns_of (tables s) s!"leads") = true ->
  tables (snd (migrate_leads drv s)) = tables s
  /\ statements (snd (migrate_leads drv s)) = statements s ++ [TableInfo s!"leads"].
Proof.
  intros H1 H2. remember (migrate_leads drv s) as r eqn:Er.
  unfold migrate_leads, and_then at 1, _table_columns, exec_driver_sql in Er.
  destruct (drv _ _); [subst r; split; reflexivity |].
  destruct (columns_of (tables s) s!"leads") as [|c cols]; [discriminate |].
  rewrite H1, H2 in Er. unfold and_then in Er. subst r. split; reflexivity.
Qed.

(** X23.  The migrations are idempotent: after a run that ended with
    [db_migration_done], the table of the leads has the two columns, and
    any later run, whatever the driver does, leaves every table as it is
    and sends no [ALTER TABLE]. *)
Theorem migrations_are_idempotent (drv1 drv2 : Driver) (s : State) :
  let s1 := snd (run_startup_migrations drv1 s) in
  let s2 := snd (run_startup_migrations drv2 s1) in
  ended_with s1 (db_migration_done s!"leads") ->
  In s!"external_task_id" (columns_of (tables s1) s!"leads")
  /\ In s!"external_subtask_ids" (columns_of (tables s1) s!"leads")
  /\ tables s2 = tables s1
  /\ statements s2 = statements s1 ++ [TableInfo s!"leads"].
Proof.
  cbv zeta. intros Hdone.
  destruct (done_has_columns drv1 s Hdone) as (Hb & H1 & H2).
  split; [now apply has_In |]. split; [now apply has_In |].
  set (s1 := snd (run_startup_migrations drv1 s)) in *.
  assert (backend s1 = s!"sqlite") as Hb1.
  { subst s1. destruct (run_ok drv1 s) as (_ & H & _). now rewrite H. }
  unfold run_startup_migrations. rewrite Hb1.
  change (negb (PyStr.eqb s!"sqlite" s!"sqlite")) with false. cbv iota.
  pose proof (nothing_to_add drv2 s1 H1 H2) as H.
  destruct (migrate_leads drv2 s1) as [[e | []] s2]; exact H.
Qed.

Lemma migrations_are_idempotent_witness :
  let s1 := snd (run_startup_migrations sound old_schema) in
  ended_with s1 (db_migration_done s!"leads")
  /\ tables s1 = [(s!"leads", [s!"id"; s!"nombre"; s!"correo"; s!"dedupe_key";
                               s!"external_task_id"; s!"external_subtask_ids"])]
  /\ tables (snd (run_startup_migrations sound s1)) = tables s1.
Proof.
  cbv zeta.
  assert (ended_with (snd (run_startup_migrations sound old_schema))
                     (db_migration_done s!"leads")) as Hdone
      by (exists (removelast (events (snd (run_startup_migrations sound old_schema))));
          vm_compute; reflexivity).
  split; [exact Hdone |]. split; [vm_compute; reflexivity |].
  now destruct (migrations_are_idempotent sound sound old_schema Hdone) as (_ & _ & H & _).
Defined.

(** The columns that are missing, one conditional at a time. *)
Lemma missing_eq (cols : list str) :
  missing cols
  = (if has s!"external_task_id" cols then [] else [s!"external_task_id"])
    ++ (if has s!"external_subtask_ids" cols then [] else [s!"external_subtask_ids"]).
Proof.
  unfold missing, NEW_COLUMNS. cbn [filter].
  destruct (has s!"external_task_id" cols), (has s!"external_subtask_ids" cols);
    reflexivity.
Qed.

(** No column of [cols] has the name [n] in any case, when none has it
    exactly and a column that has it in some case has it exactly. *)
Lemma no_case_variant (n : str) (cols : list str) :
  (forall c, In c cols -> same_name n c = true -> c = n) ->
  has n cols = false ->
  existsb (same_name n) cols = false.
Proof.
  intros Hcase Hh. destruct (existsb (same_name n) cols) eqn:E; [| reflexivity].
  apply existsb_exists in E as (c & Hc & Hs).
  rewrite (Hcase c Hc Hs) in Hc. apply has_In in Hc. congruence.
Qed.

(** One conditional [ALTER TABLE] under a driver that fails only for the
    schema: it succeeds when the table exists and has no column of that
    name. *)
Lemma add_if_missing_sound (drv : Driver) (table n coldef : str) (cols : list str)
      (s : State) :
  (forall l st, drv l st = None) ->
  column_name coldef = n ->
  columns_of (tables s) table <> [] ->
  (has n cols = false -> existsb (same_name n) (columns_of (tables s) table) = false) ->
  exists s',
    (if has n cols then fun s => (inr tt, s)
     else _add_column_sqlite drv table coldef) s = (inr tt, s')
    /\ columns_of (tables s') table
       = columns_of (tables s) table ++ (if has n cols then [] else [n]).
Proof.
  intros Hdrv Hn Hcols Hfresh. destruct (has n cols).
  - exists s. split; [reflexivity |]. symmetry. apply app_nil_r.
  - unfold _add_column_sqlite, and_then, exec_driver_sql. rewrite Hdrv, Hn.
    destruct (add_column_fresh (tables s) table n Hcols (Hfresh eq_refl)) as (tbls & E).
    rewrite E. eexists. split; [reflexivity |]. cbn [tables info].
    apply (add_column_columns _ _ _ _ E).
Qed.

(** Two conditional [ALTER TABLE]s in a row, then a last event. *)
Lemma add_two_sound (drv : Driver) (table n1 d1 n2 d2 : str) (cols : list str)
      (done : Event) (s : State) :
  (forall l st, drv l st = None) ->
  column_name d1 = n1 -> column_name d2 = n2 ->
  same_name n2 n1 = false ->
  columns_of (tables s) table = cols -> cols <> [] ->
  (forall c, In c cols -> same_name n1 c = true -> c = n1) ->
  (forall c, In c cols -> same_name n2 c = true -> c = n2) ->
  exists s3,
    and_then (if has n1 cols then fun s => (inr tt, s)
              else _add_column_sqlite drv table d1)
      (fun _ =>
         and_then (if has n2 cols then fun s => (inr tt, s)
                   else _add_column_sqlite drv table d2)
           (fun _ s => (inr tt, info done s))) s
    = (inr tt, info done s3)
    /\ columns_of (tables s3) table
       = cols ++ (if has n1 cols then [] else [n1]) ++ (if has n2 cols then [] else [n2]).
Proof.
  intros Hdrv Hd1 Hd2 Hdiff Ec Hne Hc1 Hc2.
  destruct (add_if_missing_sound drv table n1 d1 cols s Hdrv Hd1) as (s2 & E2 & Ec2).
  { now rewrite Ec. }
  { intros Hh. rewrite Ec. now apply no_case_variant. }
  destruct (add_if_missing_sound drv table n2 d2 cols s2 Hdrv Hd2) as (s3 & E3 & Ec3).
  { rewrite Ec2, Ec. now destruct cols. }
  { intros Hh. rewrite Ec2, Ec, existsb_app, (no_case_variant n2 cols Hc2 Hh).
    destruct (has n1 cols); [reflexivity |]. cbn [existsb]. now rewrite Hdiff. }
  exists s3. split.
  - unfold and_then at 1. rewrite E2. unfold and_then. now rewrite E3.
  - now rewrite Ec3, Ec2, Ec, <- app_assoc.
Qed.

(** X24.  On SQLite, with a driver that fails only for the schema, a table of
    the leads that has columns, none of them one of the two new names in
    another case, gets the columns it lacks, at its end and in the order
    of the code; the run ends with [db_migration_done]. *)
Theorem migrations_add_the_columns (s : State) :
  backend s = s!"sqlite" ->
  columns_of (tables s) s!"leads" <> [] ->
  (forall c n, In c (columns_of (tables s) s!"leads") -> In n NEW_COLUMNS ->
               same_name n c = true -> c = n) ->
  let s' := snd (run_startup_migrations sound s) in
  columns_of (tables s') s!"leads"
  = columns_of (tables s) s!"leads" ++ missing (columns_of (tables s) s!"leads")
  /\ ended_with s' (db_migration_done s!"leads").
Proof.
  intros Hb Hcols Hcase. cbv zeta.
  enough (exists s3,
             run_startup_migrations sound s
             = (inr tt, info (db_migration_done s!"leads") s3)
             /\ columns_of (tables s3) s!"leads"
                = columns_of (tables s) s!"leads"
                  ++ missing (columns_of (tables s) s!"leads")) as (s3 & -> & E)
      by (split; [exact E | exists (events s3); reflexivity]).
  rewrite missing_eq.
  unfold run_startup_migrations. rewrite Hb.
  change (negb (PyStr.eqb s!"sqlite" s!"sqlite")) with false. cbv iota.
  unfold migrate_leads, and_then at 1, _table_columns, exec_driver_sql.
  change (sound (statements s) (TableInfo s!"leads")) with (@None str). cbv iota.
  set (s1 := mkState (backend s) (tables s) (statements s ++ [TableInfo s!"leads"]) (events s)).
  destruct (add_two_sound sound s!"leads"
              s!"external_task_id" s!"external_task_id VARCHAR(64)"
              s!"external_subtask_ids" s!"external_subtask_ids TEXT"
              (columns_of (tables s) s!"leads") (db_migration_done s!"leads") s1
              (fun _ _ => eq_refl) eq_refl eq_refl eq_refl eq_refl Hcols)
    as (s3 & E3 & Ec3).
  { intros c Hc. apply Hcase; [exact Hc | left; reflexivity]. }
  { intros c Hc. apply Hcase; [exact Hc | right; left; reflexivity]. }
  exists s3. split; [| exact Ec3].
  destruct (columns_of (tables s) s!"leads") as [|c cols]; [contradiction |].
  rewrite E3. reflexivity.
Qed.

Lemma migrations_add_the_columns_witness :
  backend old_schema = s!"sqlite"
  /\ columns_of (tables old_schema) s!"leads" <> []
  /\ columns_of (tables (snd (run_startup_migrations sound old_schema))) s!"leads"
     = columns_of (tables old_schema) s!"leads"
       ++ [s!"external_task_id"; s!"external_subtask_ids"].
Proof.
  split; [reflexivity |]. split; [discriminate |].
  destruct (migrations_add_the_columns old_schema eq_refl) as (H & _).
  - discriminate.
  - intros c n Hc Hn Hs. vm_compute in Hc.
    destruct Hn as [<- | [<- | []]];
      repeat (destruct Hc as [<- | Hc]; [vm_compute in Hs; discriminate |]);
      contradiction.
  - exact H.
Defined.

(** A column that differs from a new name by its case only is not seen
    by the check, and SQLite refuses the [ALTER TABLE]: the error is
    logged and the other column is not added either. *)
Example case_variant_column :
  let s := mkState s!"sqlite" [(s!"leads", [s!"id"; s!"External_Task_Id"])] [] [] in
  let run := run_startup_migrations sound s in
  fst run = inr tt
  /\ tables (snd run) = tables s
  /\ events (snd run)
     = [db_migration_error
          (OperationalError s!"no such table or duplicate column name")].
Proof. vm_compute. repeat split. Qed.

End MigrationRuns.
